(** * mxio: the POSIX file-descriptor layer of [system/ulib/mxio/unistd.c]

    A shallow embedding of the fd table, the cwd tracker, the blocking
    read/write pattern, [open]/[openat] and [poll], with the properties
    the specification states about them. *)

From Stdlib Require Import ZArith Lia List Ascii String Bool.
From stdpp Require Import base option list gmap strings.

Local Open Scope Z_scope.

(** ** C strings

    A C string is the list of its characters up to the terminator. *)

Abbreviation cstr := (list ascii).

Definition str (s : string) : cstr := list_ascii_of_string s.

Definition slash : ascii := "/"%char.
Definition dot : ascii := "."%char.
Definition NUL : ascii := "000"%char.

(** [path[i]]; reading the terminator yields [NUL]. *)
Definition char_at (s : cstr) (i : nat) : ascii := nth i s NUL.

(** [strchr(s, c)] as the offset of the first [c], [None] for NULL. *)
Fixpoint strchr (s : cstr) (c : ascii) : option nat :=
  match s with
  | [] => None
  | x :: r => if Ascii.eqb x c then Some O else S <$> strchr r c
  end.

(** [strrchr(s, c)] as the offset of the last [c], [None] for NULL. *)
Fixpoint strrchr (s : cstr) (c : ascii) : option nat :=
  match s with
  | [] => None
  | x :: r =>
      match strrchr r c with
      | Some i => Some (S i)
      | None => if Ascii.eqb x c then Some O else None
      end
  end.

(** ** update_cwd_path *)

(** [PATH_MAX] of <limits.h>. *)
Definition PATH_MAX : nat := 4096.

(** The string stored at label [wat]. *)
Definition unknown_path : cstr := str "(unknown)".

(** One turn of the [for] loop of [update_cwd_path] after [seglen] and
    [next] are known: the new [mxio_cwd_path], or [None] for [goto wat]. *)
Definition cwd_segment (cwd path : cstr) (seglen : nat) : option cstr :=
  if (seglen =? 0)%nat then Some cwd
  else if (seglen =? 1)%nat && Ascii.eqb (char_at path 0) dot then Some cwd
  else if (seglen =? 2)%nat && Ascii.eqb (char_at path 0) dot
                            && Ascii.eqb (char_at path 1) dot then
    match strrchr cwd slash with
    | None => None
    | Some x => if (x =? 0)%nat then Some (take 1 cwd) else Some (take x cwd)
    end
  else
    let len := length cwd in
    if (PATH_MAX <=? len + seglen + 2)%nat then None
    else
      let cwd1 := if (len =? 1)%nat then cwd else cwd ++ [slash] in
      Some (cwd1 ++ take seglen path).

(** The [for (; path[0]; path = next)] loop.  Every turn moves [path]
    forward by at least one character, so [length path] turns are enough;
    [fuel] only makes the recursion structural. *)
Fixpoint cwd_loop (fuel : nat) (cwd path : cstr) : cstr :=
  match fuel with
  | O => cwd
  | S fuel' =>
      match path with
      | [] => cwd
      | _ :: _ =>
          let '(seglen, next) :=
            match strchr path slash with
            | None => (length path, [])
            | Some i => (i, drop (S i) path)
            end in
          match cwd_segment cwd path seglen with
          | None => unknown_path
          | Some cwd' => cwd_loop fuel' cwd' next
          end
      end
  end.

(** [update_cwd_path(path)] with [mxio_cwd_path] passed in and returned. *)
Definition update_cwd_path (cwd path : cstr) : cstr :=
  if Ascii.eqb (char_at path 0) slash
  then cwd_loop (length path) [slash] (drop 1 path)
  else cwd_loop (length path) cwd path.

(** ** The segment rules of the cwd tracker, as the specification
    words them

    The cwd is a stack of segments below the root.  An empty segment and
    [.] change nothing, [..] drops the last segment (the root stays the
    root), any other segment is pushed, and a path that no longer fits
    the buffer ends the walk with the cwd unknown. *)

(** The segments of a path: the pieces between its slashes. *)
Fixpoint split_slash (s : cstr) : list cstr :=
  match s with
  | [] => [[]]
  | c :: r =>
      if Ascii.eqb c slash then [] :: split_slash r
      else match split_slash r with
           | seg :: segs => (c :: seg) :: segs
           | [] => [[c]]
           end
  end.

(** The path string of a stack of segments: ["/"] for the root, else
    every segment behind a ["/"]. *)
Definition render (stack : list cstr) : cstr :=
  match stack with
  | [] => [slash]
  | _ => concat (map (cons slash) stack)
  end.

(** The cwd with one more segment, a separator and the terminator
    reaches [PATH_MAX]. *)
Definition too_long (stack : list cstr) (seg : cstr) : bool :=
  (PATH_MAX <=? length (render stack) + length seg + 2)%nat.

Fixpoint walk (stack : list cstr) (segs : list cstr) : option (list cstr) :=
  match segs with
  | [] => Some stack
  | seg :: rest =>
      if decide (seg = []) then walk stack rest
      else if decide (seg = [dot]) then walk stack rest
      else if decide (seg = [dot; dot]) then walk (removelast stack) rest
      else if too_long stack seg then None
      else walk (stack ++ [seg]) rest
  end.

Definition render_walk (r : option (list cstr)) : cstr :=
  match r with
  | Some stack => render stack
  | None => unknown_path
  end.

(** A segment as the tracker stores it: not empty and without a slash. *)
Definition segment (seg : cstr) : Prop := seg <> [] /\ slash ∉ seg.

(** A segment that names a directory entry: neither [.] nor [..]. *)
Definition proper_segment (seg : cstr) : Prop :=
  segment seg /\ seg <> [dot] /\ seg <> [dot; dot].

(** The form the tracker keeps the cwd in: the path of a stack of
    proper segments, each of which fitted when it was pushed. *)
Fixpoint fits_from (stack : list cstr) (segs : list cstr) : Prop :=
  match segs with
  | [] => True
  | seg :: rest => too_long stack seg = false /\ fits_from (stack ++ [seg]) rest
  end.

Definition tracked (stack : list cstr) : Prop :=
  Forall proper_segment stack /\ fits_from [] stack.

(** Normalized as the specification words it: absolute, no ["//"], no
    ["/./"], no trailing slash except for the root. *)
Fixpoint has_infix (pat s : cstr) : bool :=
  match s with
  | [] => bool_decide (pat = [])
  | _ :: r => bool_decide (take (length pat) s = pat) || has_infix pat r
  end.

Definition normalized_as_worded (s : cstr) : Prop :=
  char_at s 0 = slash /\
  has_infix (str "//") s = false /\
  has_infix (str "/./") s = false /\
  (s = [slash] \/ last s <> Some slash).

(** ** Kernel statuses and errno *)

(** The negative [mx_status_t] codes this file names ([ERR_INTERNAL]
    stands for every other one).  They are distinct constants of
    <magenta/errors.h>. *)
Inductive mx_err : Set :=
  | ERR_NOT_FOUND | ERR_NO_MEMORY | ERR_INVALID_ARGS | ERR_BUFFER_TOO_SMALL
  | ERR_TIMED_OUT | ERR_ALREADY_EXISTS | ERR_REMOTE_CLOSED | ERR_BAD_PATH
  | ERR_IO | ERR_NOT_DIR | ERR_NOT_SUPPORTED | ERR_OUT_OF_RANGE
  | ERR_NO_RESOURCES | ERR_BAD_HANDLE | ERR_ACCESS_DENIED | ERR_SHOULD_WAIT
  | ERR_FILE_BIG | ERR_NO_SPACE | ERR_UNAVAILABLE | ERR_INTERNAL.

#[global] Instance mx_err_eq_dec : EqDecision mx_err.
Proof. solve_decision. Defined.

(** An [mx_status_t] or [ssize_t] result: a count that is not negative
    ([NO_ERROR] is the count 0) or one of the negative codes. *)
Inductive status : Set :=
  | Ok (n : N)
  | Err (e : mx_err).

#[global] Instance status_eq_dec : EqDecision status.
Proof. solve_decision. Defined.

Definition NO_ERROR : status := Ok 0.

(** [status < 0]. *)
Definition is_err (r : status) : bool :=
  match r with Ok _ => false | Err _ => true end.

(** errno values of the C library (Linux numbering). *)
Definition ENOENT : Z := 2.
Definition EIO : Z := 5.
Definition EBADF : Z := 9.
Definition EAGAIN : Z := 11.
Definition ENOMEM : Z := 12.
Definition EACCES : Z := 13.
Definition EEXIST : Z := 17.
Definition ENOTDIR : Z := 20.
Definition EINVAL : Z := 22.
Definition EMFILE : Z := 24.
Definition EFBIG : Z := 27.
Definition ENOSPC : Z := 28.
Definition ERANGE : Z := 34.
Definition ENAMETOOLONG : Z := 36.
Definition ENOSYS : Z := 38.
Definition ENOTSUP : Z := 95.
Definition ENOTCONN : Z := 107.
Definition ETIMEDOUT : Z := 110.

Definition mxio_status_to_errno (e : mx_err) : Z :=
  match e with
  | ERR_NOT_FOUND => ENOENT
  | ERR_NO_MEMORY => ENOMEM
  | ERR_INVALID_ARGS => EINVAL
  | ERR_BUFFER_TOO_SMALL => EINVAL
  | ERR_TIMED_OUT => ETIMEDOUT
  | ERR_ALREADY_EXISTS => EEXIST
  | ERR_REMOTE_CLOSED => ENOTCONN
  | ERR_BAD_PATH => ENAMETOOLONG
  | ERR_IO => EIO
  | ERR_NOT_DIR => ENOTDIR
  | ERR_NOT_SUPPORTED => ENOTSUP
  | ERR_OUT_OF_RANGE => EINVAL
  | ERR_NO_RESOURCES => ENOMEM
  | ERR_BAD_HANDLE => EBADF
  | ERR_ACCESS_DENIED => EACCES
  | ERR_SHOULD_WAIT => EAGAIN
  | ERR_FILE_BIG => EFBIG
  | ERR_NO_SPACE => ENOSPC
  | _ => EIO
  end.

(** ** Constants of the C library and of the kernel headers *)

(** Modelled from the spec: "fixed-size vector of MAX_FD (default 1024)
    optional IoObject references"; the macro itself is in mxio's
    private.h. *)
Definition MAX_MXIO_FD : Z := 1024.

Definition MAX_POLL_NFDS : Z := 1024.

Definition O_CREAT : Z := 64.          (* 0100 *)
Definition O_NONBLOCK : Z := 2048.     (* 04000 *)
Definition O_DIRECTORY : Z := 65536.   (* 0200000 *)
Definition AT_FDCWD : Z := -100.
Definition POLLERR : Z := 8.
Definition POLLHUP : Z := 16.
Definition POLLNVAL : Z := 32.
Definition EPOLLERR : Z := 8.
Definition EPOLLHUP : Z := 16.
Definition UTIME_NOW : Z := 1073741823.
Definition UTIME_OMIT : Z := 1073741822.

Definition MX_HANDLE_INVALID : Z := 0.
Definition MX_TIME_INFINITE : Z := 2 ^ 64 - 1.
Definition MX_SEC (n : Z) : Z := n * 1000000000.
Definition MX_MSEC (n : Z) : Z := n * 1000000.

(** Conversion to [short] (two's complement, 16 bits), to [uint32_t]
    and to [int] (two's complement, 32 bits). *)
Definition to_short (x : Z) : Z := (x + 2 ^ 15) mod 2 ^ 16 - 2 ^ 15.
Definition to_uint32 (x : Z) : Z := x mod 2 ^ 32.
Definition to_int32 (x : Z) : Z := (x + 2 ^ 31) mod 2 ^ 32 - 2 ^ 31.

(** ** Objects and the world outside this file *)

(** An [mxio_t*] that is not NULL; NULL is [None] of [option ioref]. *)
Definition ioref := positive.

(** A user-memory address that is not NULL. *)
Abbreviation addr := Z.

Record timespec := { tv_sec : Z; tv_nsec : Z }.

Record vnattr_t := { vn_valid : Z; vn_modify_time : Z }.

Inductive misc_op := MXRIO_STAT | MXRIO_SETATTR | MXRIO_TRUNCATE | MXRIO_SYNC.

(** The [ptr] argument of the [misc] operation. *)
Inductive misc_ptr :=
  | MiscNull
  | MiscStatBuf
  | MiscAttr (vn : vnattr_t).

Record mx_wait_item_t := { wi_handle : Z; wi_waitfor : Z; wi_pending : Z }.

(** Calls that leave this file: transport operations through
    [io->ops] and kernel system calls. *)
Inductive call :=
  | CallClose (io : ioref)
  | CallRead (io : ioref) (buf : addr) (count : Z)
  | CallWrite (io : ioref) (buf : addr) (count : Z)
  | CallReadAt (io : ioref) (buf : addr) (count : Z) (ofs : Z)
  | CallWriteAt (io : ioref) (buf : addr) (count : Z) (ofs : Z)
  | CallSeek (io : ioref) (offset whence : Z)
  | CallMisc (io : ioref) (op : misc_op) (arg maxreply : Z) (p : misc_ptr) (len : Z)
  | CallPosixIoctl (io : ioref) (req : Z) (ap : list Z)
  | CallOpen (io : ioref) (path : cstr) (flags mode : Z) (new : ioref)
  | CallWaitOne (h signals timeout : Z)
  | CallWaitMany (items : list mx_wait_item_t) (timeout : Z)
  | CallTimeGet.

(** What the functions of this file call but do not define: the
    transports behind [io->ops], the kernel, and the constants of mxio's
    private.h and of the kernel headers.  [W] is the state of all of it
    (kernel objects, the transports' private data, user buffers). *)
Class World := {
  W : Type;
  (** The numbering of <magenta/errors.h>: the code a negative
      [mx_status_t] value names, [ERR_INTERNAL] when it names none of
      the others. *)
  status_code : Z -> mx_err;
  MXIO_FLAG_NONBLOCK : Z;
  MXIO_FD_FLAGS : Z;
  MXIO_EVT_READABLE : Z;
  MXIO_EVT_WRITABLE : Z;
  ATTR_MTIME : Z;
  sizeof_vnattr : N;
  ops_close : ioref -> W -> status * W;
  ops_read : ioref -> addr -> Z -> W -> status * W;
  ops_write : ioref -> addr -> Z -> W -> status * W;
  ops_read_at : ioref -> addr -> Z -> Z -> W -> status * W;
  ops_write_at : ioref -> addr -> Z -> Z -> W -> status * W;
  ops_seek : ioref -> Z -> Z -> W -> status * W;
  ops_misc : ioref -> misc_op -> Z -> Z -> misc_ptr -> Z -> W -> status * W;
  ops_posix_ioctl : ioref -> Z -> list Z -> W -> status * W;
  (** [open] creates the object at the address given last; on success
      the result carries the new object's flag word. *)
  ops_open : ioref -> cstr -> Z -> Z -> ioref -> W -> (status * Z) * W;
  (** [wait_begin] and [wait_end] translate event bits to a handle with
      signals and back. *)
  ops_wait_begin : ioref -> Z -> Z * Z;
  ops_wait_end : ioref -> Z -> Z;
  mx_object_wait_one : Z -> Z -> Z -> W -> (status * Z) * W;
  (** The result lists the pending signals written to the items. *)
  mx_object_wait_many : list mx_wait_item_t -> Z -> W -> (status * list Z) * W;
  mx_time_get : W -> Z * W;
}.

(** The fields of [mxio_t] this file reads and writes.  The counts are
    kept as integers without a bound: the struct is declared in mxio's
    private.h. *)
Record mxio_t := {
  flags : Z;
  refcount : Z;
  dupcount : Z;
}.

Section Mxio.
Context `{World}.

(** [__mxio_global_state], the objects it points to, [errno], the world
    and the calls made into it so far (newest first). *)
Record mxio_state := {
  fdtab : gmap Z ioref;
  objs : gmap ioref mxio_t;
  root_handle : option ioref;
  cwd_handle : option ioref;
  cwd_path : cstr;
  errno : Z;
  world : W;
  calls : list call;
}.

Definition set_fdtab (f : gmap Z ioref -> gmap Z ioref) (s : mxio_state) :=
  {| fdtab := f (fdtab s); objs := objs s; root_handle := root_handle s;
     cwd_handle := cwd_handle s; cwd_path := cwd_path s; errno := errno s;
     world := world s; calls := calls s |}.

Definition set_objs (f : gmap ioref mxio_t -> gmap ioref mxio_t) (s : mxio_state) :=
  {| fdtab := fdtab s; objs := f (objs s); root_handle := root_handle s;
     cwd_handle := cwd_handle s; cwd_path := cwd_path s; errno := errno s;
     world := world s; calls := calls s |}.

Definition set_cwd_handle (io : option ioref) (s : mxio_state) :=
  {| fdtab := fdtab s; objs := objs s; root_handle := root_handle s;
     cwd_handle := io; cwd_path := cwd_path s; errno := errno s;
     world := world s; calls := calls s |}.

Definition set_cwd_path (p : cstr) (s : mxio_state) :=
  {| fdtab := fdtab s; objs := objs s; root_handle := root_handle s;
     cwd_handle := cwd_handle s; cwd_path := p; errno := errno s;
     world := world s; calls := calls s |}.

Definition set_errno (e : Z) (s : mxio_state) :=
  {| fdtab := fdtab s; objs := objs s; root_handle := root_handle s;
     cwd_handle := cwd_handle s; cwd_path := cwd_path s; errno := e;
     world := world s; calls := calls s |}.

Definition set_world (c : call) (w : W) (s : mxio_state) :=
  {| fdtab := fdtab s; objs := objs s; root_handle := root_handle s;
     cwd_handle := cwd_handle s; cwd_path := cwd_path s; errno := errno s;
     world := w; calls := c :: calls s |}.

(** ** The monad of the C functions

    A function returns a value and a new state, or has undefined
    behaviour (an access outside [mxio_fdtab], or through a pointer that
    is NULL or freed), or is still in a retry loop when the fuel of the
    model ends. *)
Inductive outcome (A : Type) : Type :=
  | Returns (a : A) (s : mxio_state)
  | Undefined
  | OutOfFuel.
Arguments Returns {A} a s.
Arguments Undefined {A}.
Arguments OutOfFuel {A}.

Definition M (A : Type) : Type := mxio_state -> outcome A.

#[global] Instance M_ret : MRet M := fun A a s => Returns a s.

#[global] Instance M_bind : MBind M := fun A B k m s =>
  match m s with
  | Returns a s' => k a s'
  | Undefined => Undefined
  | OutOfFuel => OutOfFuel
  end.

Definition get : M mxio_state := fun s => Returns s s.
Definition modify (f : mxio_state -> mxio_state) : M unit := fun s => Returns tt (f s).
Definition undefined {A} : M A := fun _ => Undefined.
Definition out_of_fuel {A} : M A := fun _ => OutOfFuel.

(** A call out of this file: it acts on the world and is logged. *)
Definition extern {A} (c : call) (f : W -> A * W) : M A := fun s =>
  let '(a, w) := f (world s) in Returns a (set_world c w s).

(** [*io]; undefined when [io] is not a live object. *)
Definition deref (io : ioref) : M mxio_t := fun s =>
  match objs s !! io with
  | Some o => Returns o s
  | None => Undefined
  end.

Definition store (io : ioref) (o : mxio_t) : M unit :=
  modify (set_objs <[io := o]>).

(** A transport operation [io->ops->f(io, ...)]. *)
Definition op_call {A} (io : ioref) (c : call) (f : W -> A * W) : M A :=
  _ ← deref io; extern c f.

(** [mxio_fdtab[fd]]; undefined outside the array. *)
Definition tab_get (fd : Z) : M (option ioref) := fun s =>
  if (0 <=? fd) && (fd <? MAX_MXIO_FD) then Returns (fdtab s !! fd) s
  else Undefined.

(** [mxio_fdtab[fd] = io]. *)
Definition tab_set (fd : Z) (io : option ioref) : M unit := fun s =>
  if (0 <=? fd) && (fd <? MAX_MXIO_FD) then
    Returns tt (set_fdtab (match io with
                           | Some p => <[fd := p]>
                           | None => delete fd
                           end) s)
  else Undefined.

(** Modelled from the spec: "−1 with errno set on failure"; the macro
    [ERRNO] of mxio's unistd.h, which sets errno and yields -1. *)
Definition ERRNO (e : Z) : M Z :=
  _ ← modify (set_errno e); mret (-1).

(** The errno of a status: the translation of a negative code, the
    default of [mxio_status_to_errno] for any other value. *)
Definition error_errno (r : status) : Z :=
  match r with
  | Err e => mxio_status_to_errno e
  | Ok _ => EIO
  end.

(** Modelled from the spec: "kernel statuses are translated via ErrorMap
    at the POSIX boundary only"; the macro [ERROR] of mxio's unistd.h,
    which sets errno to the translation of the status and yields -1. *)
Definition ERROR (r : status) : M Z := ERRNO (error_errno r).

(** Modelled from the spec: "−1 with errno set on failure, or ≥ 0 on
    success"; the macro [STATUS] of mxio's unistd.h, which is [ERROR]
    for a negative status and the status itself otherwise. *)
Definition STATUS (r : status) : M Z :=
  match r with
  | Err e => ERRNO (mxio_status_to_errno e)
  | Ok n => mret (Z.of_N n)
  end.

(** An [ssize_t] answer of a transport stored in an [mx_status_t], as
    in [mx_status_t status = io->ops->read(...)]: the conversion keeps
    the low 32 bits.  A negative code is in the range of [mx_status_t]
    and stays what it is; a count of [2^31] or more does not fit, and
    reads as a negative code when bit 31 of what is left is set. *)
Definition to_mx_status (r : status) : status :=
  match r with
  | Err e => Err e
  | Ok n =>
      let v := to_int32 (Z.of_N n) in
      if v <? 0 then Err (status_code v) else Ok (Z.to_N v)
  end.

(** Modelled from the spec: "lookup: refcount++ under lock"; the inline
    function [mxio_acquire] of mxio's private.h. *)
Definition mxio_acquire (io : ioref) : M unit :=
  o ← deref io;
  store io {| flags := flags o; refcount := refcount o + 1; dupcount := dupcount o |}.

(** Modelled from the spec: "Release on refcount==1→0 frees the object";
    the inline function [mxio_release] of mxio's private.h. *)
Definition mxio_release (io : ioref) : M unit :=
  o ← deref io;
  if refcount o =? 1 then modify (set_objs (delete io))
  else store io {| flags := flags o; refcount := refcount o - 1; dupcount := dupcount o |}.

(** [io->dupcount = d] and [io->flags = f]. *)
Definition set_dupcount (io : ioref) (d : Z) : M unit :=
  o ← deref io;
  store io {| flags := flags o; refcount := refcount o; dupcount := d |}.

Definition set_flags (io : ioref) (f : Z) : M unit :=
  o ← deref io;
  store io {| flags := f; refcount := refcount o; dupcount := dupcount o |}.

(** ** The fd table *)

(** The scan [for (fd = starting_fd; fd < MAX_MXIO_FD; fd++)] with [n]
    turns left: the first free slot, if any. *)
Fixpoint find_free_fd (n : nat) (fd : Z) : M (option Z) :=
  match n with
  | O => mret None
  | S n' =>
      io ← tab_get fd;
      match io with
      | None => mret (Some fd)
      | Some _ => find_free_fd n' (fd + 1)
      end
  end.

(** The code below label [free_fd_found]. *)
Definition bind_install (io : ioref) (fd : Z) (io_to_close : option ioref) : M Z :=
  o ← deref io;
  _ ← set_dupcount io (dupcount o + 1);
  _ ← tab_set fd (Some io);
  _ ← match io_to_close with
      | Some c => _ ← op_call c (CallClose c) (ops_close c); mxio_release c
      | None => mret tt
      end;
  mret fd.

(** [mxio_bind_to_fd]. *)
Definition mxio_bind_to_fd (io : ioref) (fd starting_fd : Z) : M Z :=
  if fd <? 0 then
    r ← find_free_fd (Z.to_nat (MAX_MXIO_FD - starting_fd)) starting_fd;
    match r with
    | Some fd' => bind_install io fd' None
    | None => ERRNO EMFILE
    end
  else if fd >=? MAX_MXIO_FD then ERRNO EINVAL
  else
    old ← tab_get fd;
    match old with
    | Some c =>
        o ← deref c;
        _ ← set_dupcount c (dupcount o - 1);
        if dupcount o - 1 >? 0 then
          _ ← mxio_release c; bind_install io fd None
        else bind_install io fd (Some c)
    | None => bind_install io fd None
    end.

(** [mxio_unbind_from_fd]: the status and the value stored to [*out]. *)
Definition mxio_unbind_from_fd (fd : Z) : M (status * option ioref) :=
  if fd >=? MAX_MXIO_FD then mret (Err ERR_INVALID_ARGS, None)
  else
    io ← tab_get fd;
    match io with
    | None => mret (Err ERR_INVALID_ARGS, None)
    | Some p =>
        o ← deref p;
        if dupcount o >? 1 then mret (Err ERR_UNAVAILABLE, None)
        else if refcount o >? 1 then mret (Err ERR_UNAVAILABLE, None)
        else
          _ ← set_dupcount p 0;
          _ ← tab_set fd None;
          mret (NO_ERROR, Some p)
    end.

(** [__mxio_fd_to_io], which the file calls through the macro
    [fd_to_io]: the object of the slot, with one more reference. *)
Definition __mxio_fd_to_io (fd : Z) : M (option ioref) :=
  if (fd <? 0) || (fd >=? MAX_MXIO_FD) then mret None
  else
    io ← tab_get fd;
    match io with
    | Some p => _ ← mxio_acquire p; mret (Some p)
    | None => mret None
    end.

(** ** Waiting on one fd *)

(** [mxio_wait_fd]: the status and the events it would store to
    [*_pending]. *)
Definition mxio_wait_fd (fd events timeout : Z) : M (status * Z) :=
  io ← __mxio_fd_to_io fd;
  match io with
  | None => mret (Err ERR_BAD_HANDLE, events)
  | Some p =>
      _ ← deref p;
      let '(h, signals) := ops_wait_begin p events in
      if h =? MX_HANDLE_INVALID then
        _ ← mxio_release p; mret (Err ERR_INVALID_ARGS, events)
      else
        '(r, pending) ← extern (CallWaitOne h signals timeout)
                                (mx_object_wait_one h signals timeout);
        if is_err r && negb (bool_decide (r = Err ERR_TIMED_OUT)) then
          _ ← mxio_release p; mret (r, events)
        else
          _ ← deref p;
          let events' := ops_wait_end p pending in
          _ ← mxio_release p; mret (r, events')
  end.

(** ** read, write, pread, pwrite *)

(** The [for (;;)] loop the four functions share: [op] is the transport
    call, whose [ssize_t] answer is stored in the [mx_status_t] variable
    [status], and [evt] the event waited for before the next try. *)
Fixpoint retry_loop (fuel : nat) (io : ioref) (fd : Z) (op : M status) (evt : Z)
  : M status :=
  match fuel with
  | O => out_of_fuel
  | S fuel' =>
      r ← op;
      let st := to_mx_status r in
      if decide (st = Err ERR_SHOULD_WAIT) then
        o ← deref io;
        if Z.land (flags o) MXIO_FLAG_NONBLOCK =? 0 then
          _ ← mxio_wait_fd fd evt MX_TIME_INFINITE;
          retry_loop fuel' io fd op evt
        else mret st
      else mret st
  end.

(** The body of the four functions after the test of [buf]. *)
Definition blocking_io (fuel : nat) (fd : Z) (op : ioref -> M status) (evt : Z) : M Z :=
  io ← __mxio_fd_to_io fd;
  match io with
  | None => ERRNO EBADF
  | Some p =>
      st ← retry_loop fuel p fd (op p) evt;
      _ ← mxio_release p;
      STATUS st
  end.

(** [read], [write], [pread] and [pwrite]; [buf] is [None] for NULL and
    [fuel] bounds the turns of the retry loop. *)
Definition read (fuel : nat) (fd : Z) (buf : option addr) (count : Z) : M Z :=
  match buf with
  | None => ERRNO EINVAL
  | Some b =>
      blocking_io fuel fd
        (fun p => op_call p (CallRead p b count) (ops_read p b count))
        MXIO_EVT_READABLE
  end.

Definition write (fuel : nat) (fd : Z) (buf : option addr) (count : Z) : M Z :=
  match buf with
  | None => ERRNO EINVAL
  | Some b =>
      blocking_io fuel fd
        (fun p => op_call p (CallWrite p b count) (ops_write p b count))
        MXIO_EVT_WRITABLE
  end.

Definition pread (fuel : nat) (fd : Z) (buf : option addr) (size ofs : Z) : M Z :=
  match buf with
  | None => ERRNO EINVAL
  | Some b =>
      blocking_io fuel fd
        (fun p => op_call p (CallReadAt p b size ofs) (ops_read_at p b size ofs))
        MXIO_EVT_READABLE
  end.

Definition pwrite (fuel : nat) (fd : Z) (buf : option addr) (size ofs : Z) : M Z :=
  match buf with
  | None => ERRNO EINVAL
  | Some b =>
      blocking_io fuel fd
        (fun p => op_call p (CallWriteAt p b size ofs) (ops_write_at p b size ofs))
        MXIO_EVT_WRITABLE
  end.

(** ** close, dup, fcntl and the other fd operations *)

(** [close]; the three tests of its first [if] short-circuit, so the
    table is read only for an fd in range. *)
Definition close (fd : Z) : M Z :=
  s ← get;
  if (fd <? 0) || (fd >=? MAX_MXIO_FD) || bool_decide (fdtab s !! fd = None)
  then ERRNO EBADF
  else
    io ← tab_get fd;
    match io with
    | None => undefined
    | Some p =>
        o ← deref p;
        _ ← set_dupcount p (dupcount o - 1);
        _ ← tab_set fd None;
        if dupcount o - 1 >? 0 then
          _ ← mxio_release p; mret 0
        else
          r ← op_call p (CallClose p) (ops_close p);
          _ ← mxio_release p;
          STATUS r
    end.

Definition mxio_dup (oldfd newfd starting_fd : Z) : M Z :=
  io ← __mxio_fd_to_io oldfd;
  match io with
  | None => ERRNO EBADF
  | Some p =>
      fd ← mxio_bind_to_fd p newfd starting_fd;
      if fd <? 0 then _ ← mxio_release p; mret fd else mret fd
  end.

Definition dup2 (oldfd newfd : Z) : M Z := mxio_dup oldfd newfd 0.
Definition dup (oldfd : Z) : M Z := mxio_dup oldfd (-1) 0.

Inductive fcntl_cmd :=
  | F_DUPFD | F_DUPFD_CLOEXEC | F_GETFD | F_SETFD | F_GETFL | F_SETFL
  | F_GETOWN | F_SETOWN | F_GETLK | F_SETLK | F_SETLKW
  | F_other (cmd : Z).

(** [fcntl(fd, cmd, arg)]; [arg] is the [int] the commands that take one
    read from the variable arguments. *)
Definition fcntl (fd : Z) (cmd : fcntl_cmd) (arg : Z) : M Z :=
  match cmd with
  | F_DUPFD | F_DUPFD_CLOEXEC => mxio_dup fd (-1) arg
  | F_GETFD =>
      io ← __mxio_fd_to_io fd;
      match io with
      | None => ERRNO EBADF
      | Some p =>
          o ← deref p;
          _ ← mxio_release p;
          mret (Z.land (flags o) MXIO_FD_FLAGS)
      end
  | F_SETFD =>
      io ← __mxio_fd_to_io fd;
      match io with
      | None => ERRNO EBADF
      | Some p =>
          o ← deref p;
          _ ← set_flags p (Z.lor (Z.land (flags o) (Z.lnot MXIO_FD_FLAGS))
                                 (Z.land arg MXIO_FD_FLAGS));
          _ ← mxio_release p;
          mret 0
      end
  | F_GETFL =>
      io ← __mxio_fd_to_io fd;
      match io with
      | None => ERRNO EBADF
      | Some p =>
          o ← deref p;
          _ ← mxio_release p;
          mret (if Z.land (flags o) MXIO_FLAG_NONBLOCK =? 0 then 0 else O_NONBLOCK)
      end
  | F_SETFL =>
      io ← __mxio_fd_to_io fd;
      match io with
      | None => ERRNO EBADF
      | Some p =>
          o ← deref p;
          _ ← set_flags p (if Z.land arg O_NONBLOCK =? 0
                           then Z.land (flags o) (Z.lnot MXIO_FLAG_NONBLOCK)
                           else Z.lor (flags o) MXIO_FLAG_NONBLOCK);
          _ ← mxio_release p;
          mret 0
      end
  | F_GETOWN | F_SETOWN => ERRNO ENOSYS
  | F_GETLK | F_SETLK | F_SETLKW => ERRNO ENOSYS
  | F_other _ => ERRNO EINVAL
  end.

Definition lseek (fd offset whence : Z) : M Z :=
  io ← __mxio_fd_to_io fd;
  match io with
  | None => ERRNO EBADF
  | Some p =>
      r ← op_call p (CallSeek p offset whence) (ops_seek p offset whence);
      r' ← match r with
           | Err _ => ERROR r
           | Ok n => mret (Z.of_N n)
           end;
      _ ← mxio_release p;
      mret r'
  end.

Definition ftruncate (fd len : Z) : M Z :=
  io ← __mxio_fd_to_io fd;
  match io with
  | None => ERRNO EBADF
  | Some p =>
      st ← op_call p (CallMisc p MXRIO_TRUNCATE len 0 MiscNull 0)
                     (ops_misc p MXRIO_TRUNCATE len 0 MiscNull 0);
      r ← STATUS st;
      _ ← mxio_release p;
      mret r
  end.

Definition fsync (fd : Z) : M Z :=
  io ← __mxio_fd_to_io fd;
  match io with
  | None => ERRNO EBADF
  | Some p =>
      st ← op_call p (CallMisc p MXRIO_SYNC 0 0 MiscNull 0)
                     (ops_misc p MXRIO_SYNC 0 0 MiscNull 0);
      r ← STATUS st;
      _ ← mxio_release p;
      mret r
  end.

(** [mxio_stat]; the [struct stat] it fills is user memory. *)
Definition mxio_stat (io : ioref) : M status :=
  r ← op_call io (CallMisc io MXRIO_STAT 0 (Z.of_N sizeof_vnattr) MiscStatBuf 0)
                 (ops_misc io MXRIO_STAT 0 (Z.of_N sizeof_vnattr) MiscStatBuf 0);
  match r with
  | Err _ => mret (Err ERR_BAD_HANDLE)
  | Ok n => if (n <? sizeof_vnattr)%N then mret (Err ERR_IO) else mret (Ok 0)
  end.

Definition fstat (fd : Z) : M Z :=
  io ← __mxio_fd_to_io fd;
  match io with
  | None => ERRNO EBADF
  | Some p =>
      st ← mxio_stat p;
      r ← STATUS st;
      _ ← mxio_release p;
      mret r
  end.

(** [ioctl]; the transport's answer is an [ssize_t], which [STATUS]
    takes as an [mx_status_t]. *)
Definition ioctl (fd req : Z) (ap : list Z) : M Z :=
  io ← __mxio_fd_to_io fd;
  match io with
  | None => ERRNO EBADF
  | Some p =>
      r ← op_call p (CallPosixIoctl p req ap) (ops_posix_ioctl p req ap);
      _ ← mxio_release p;
      STATUS (to_mx_status r)
  end.

(** [mxio_setattr] on a pointer that may be NULL: [io->ops] is read
    without a test. *)
Definition mxio_setattr (io : option ioref) (vn : vnattr_t) : M status :=
  match io with
  | None => undefined
  | Some p =>
      r ← op_call p (CallMisc p MXRIO_SETATTR 0 0 (MiscAttr vn) (Z.of_N sizeof_vnattr))
                    (ops_misc p MXRIO_SETATTR 0 0 (MiscAttr vn) (Z.of_N sizeof_vnattr));
      if is_err r then mret (Err ERR_BAD_HANDLE) else mret r
  end.

(** [mx_utimens]; [vn.modify_time] is a [uint64_t], and [MX_SEC] and
    the sum are computed in that type. *)
Definition mx_utimens (io : option ioref) (times : option (timespec * timespec)) : M status :=
  let now := match times with
             | None => true
             | Some (_, t1) => tv_nsec t1 =? UTIME_NOW
             end in
  mtime ← (if now then extern CallTimeGet mx_time_get
           else match times with
                | Some (_, t1) => mret ((MX_SEC (tv_sec t1) + tv_nsec t1) mod 2 ^ 64)
                | None => mret 0
                end);
  let valid := match times with
               | None => ATTR_MTIME
               | Some (_, t1) => if tv_nsec t1 =? UTIME_OMIT then 0 else ATTR_MTIME
               end in
  mxio_setattr io {| vn_valid := valid; vn_modify_time := mtime |}.

Definition futimens (fd : Z) (times : option (timespec * timespec)) : M Z :=
  io ← __mxio_fd_to_io fd;
  r ← mx_utimens io times;
  STATUS r.

(** ** Paths: open, openat, chdir, getcwd *)

(** [mxio_iodir]: the directory object, acquired, and the adjusted
    [*path]. *)
Definition mxio_iodir (path : cstr) (dirfd : Z) : M (option ioref * cstr) :=
  '(iodir, path') ←
    (if Ascii.eqb (char_at path 0) slash then
       s ← get;
       let p1 := drop 1 path in
       mret (root_handle s, if Ascii.eqb (char_at p1 0) NUL then str "." else p1)
     else if dirfd =? AT_FDCWD then
       s ← get; mret (cwd_handle s, path)
     else if (0 <=? dirfd) && (dirfd <? MAX_MXIO_FD) then
       io ← tab_get dirfd; mret (io, path)
     else mret (None, path));
  match iodir with
  | Some d => _ ← mxio_acquire d; mret (iodir, path')
  | None => mret (iodir, path')
  end.

(** [__mxio_open_at]: the status and the object stored to [*io].  A
    path that is NULL is [None]. *)
Definition __mxio_open_at (dirfd : Z) (path : option cstr) (oflags mode : Z)
  : M (status * option ioref) :=
  match path with
  | None => mret (Err ERR_INVALID_ARGS, None)
  | Some p =>
      if Ascii.eqb (char_at p 0) NUL then mret (Err ERR_INVALID_ARGS, None)
      else
        '(iodir, p') ← mxio_iodir p dirfd;
        match iodir with
        | None => mret (Err ERR_BAD_HANDLE, None)
        | Some d =>
            s ← get;
            let new := fresh (dom (objs s)) in
            '(r, fl) ← op_call d (CallOpen d p' oflags mode new)
                                 (ops_open d p' oflags mode new);
            io ← (if is_err r then mret None
                  else _ ← store new {| flags := fl; refcount := 1; dupcount := 0 |};
                       mret (Some new));
            _ ← mxio_release d;
            mret (r, io)
        end
  end.

Definition __mxio_open (path : option cstr) (oflags mode : Z) : M (status * option ioref) :=
  __mxio_open_at AT_FDCWD path oflags mode.

(** [vopenat]; [mode_arg] is the argument [va_arg] reads when [O_CREAT]
    is set. *)
Definition vopenat (dirfd : Z) (path : option cstr) (oflags mode_arg : Z) : M Z :=
  let creat := negb (Z.land oflags O_CREAT =? 0) in
  if creat && negb (Z.land oflags O_DIRECTORY =? 0) then ERRNO EINVAL
  else
    let mode := if creat then Z.land (to_uint32 mode_arg) 511 else 0 in
    '(r, io) ← __mxio_open_at dirfd path oflags mode;
    if is_err r then ERROR r
    else
      match io with
      | None => undefined
      | Some p =>
          _ ← (if Z.land oflags O_NONBLOCK =? 0 then mret tt
               else o ← deref p; set_flags p (Z.lor (flags o) MXIO_FLAG_NONBLOCK));
          fd ← mxio_bind_to_fd p (-1) 0;
          if fd <? 0 then
            _ ← op_call p (CallClose p) (ops_close p);
            _ ← mxio_release p;
            ERRNO EMFILE
          else mret fd
      end.

Definition open (path : option cstr) (oflags mode_arg : Z) : M Z :=
  vopenat AT_FDCWD path oflags mode_arg.

Definition openat (dirfd : Z) (path : option cstr) (oflags mode_arg : Z) : M Z :=
  vopenat dirfd path oflags mode_arg.

(** [getcwd]: the string the result points to, [None] for NULL. *)
Definition getcwd (buf : option addr) (size : Z) : M (option cstr) :=
  let copy (size : Z) : M (option cstr) :=
    s ← get;
    let len := Z.of_nat (length (cwd_path s)) + 1 in
    if len <? size then mret (Some (cwd_path s))
    else _ ← modify (set_errno ERANGE); mret None in
  match buf with
  | None => copy (Z.of_nat PATH_MAX)
  | Some _ =>
      if size =? 0 then _ ← modify (set_errno EINVAL); mret None
      else copy size
  end.

Definition chdir (path : option cstr) : M Z :=
  '(r, io) ← __mxio_open path O_DIRECTORY 0;
  if is_err r then STATUS r
  else
    match path, io with
    | Some p, Some new =>
        _ ← modify (fun s => set_cwd_path (update_cwd_path (cwd_path s) p) s);
        s ← get;
        match cwd_handle s with
        | None => undefined
        | Some old =>
            _ ← modify (set_cwd_handle (Some new));
            _ ← op_call old (CallClose old) (ops_close old);
            _ ← mxio_release old;
            mret 0
        end
    | _, _ => undefined
    end.

(** ** poll *)

Record pollfd := { pfd_fd : Z; pfd_events : Z; pfd_revents : Z }.

Definition set_revents (pfd : pollfd) (r : Z) : pollfd :=
  {| pfd_fd := pfd_fd pfd; pfd_events := pfd_events pfd; pfd_revents := r |}.

(** What the first loop of [poll] leaves: the array [fds], the array
    [ios] as far as it was written, [items] and [r]. *)
Record poll_scan := {
  ps_fds : list pollfd;
  ps_ios : list (option ioref);
  ps_items : list mx_wait_item_t;
  ps_r : status;
}.

(** The first loop of [poll], from the entry at the head of [fds] on. *)
Fixpoint poll_begin (fds : list pollfd) : M poll_scan :=
  match fds with
  | [] => mret {| ps_fds := []; ps_ios := []; ps_items := []; ps_r := NO_ERROR |}
  | pfd :: rest =>
      if pfd_fd pfd <? 0 then
        k ← poll_begin rest;
        mret {| ps_fds := set_revents pfd 0 :: ps_fds k; ps_ios := None :: ps_ios k;
                ps_items := ps_items k; ps_r := ps_r k |}
      else
        io ← __mxio_fd_to_io (pfd_fd pfd);
        match io with
        | None =>
            k ← poll_begin rest;
            mret {| ps_fds := set_revents pfd POLLNVAL :: ps_fds k;
                    ps_ios := None :: ps_ios k;
                    ps_items := ps_items k; ps_r := ps_r k |}
        | Some p =>
            _ ← deref p;
            let '(h, sigs) := ops_wait_begin p (to_uint32 (pfd_events pfd)) in
            if h =? MX_HANDLE_INVALID then
              mret {| ps_fds := set_revents pfd 0 :: rest; ps_ios := [Some p];
                      ps_items := []; ps_r := Err ERR_INVALID_ARGS |}
            else
              k ← poll_begin rest;
              mret {| ps_fds := set_revents pfd 0 :: ps_fds k;
                      ps_ios := Some p :: ps_ios k;
                      ps_items := {| wi_handle := h; wi_waitfor := sigs; wi_pending := 0 |}
                                  :: ps_items k;
                      ps_r := ps_r k |}
        end
  end.

(** The assignment [pfd->revents = events & (pfd->events | EPOLLHUP |
    EPOLLERR)] of the second loop, [events] being the [uint32_t] that
    [wait_end] wrote and [revents] a [short]. *)
Definition poll_revents (io : ioref) (pfd : pollfd) (pending : Z) : Z :=
  to_short (Z.land (to_uint32 (ops_wait_end io pending))
                   (Z.lor (Z.lor (pfd_events pfd) EPOLLHUP) EPOLLERR)).

(** The second loop of [poll]: [j] counts the valid entries seen, the
    result is the array and [nfds]. *)
Fixpoint poll_end (fds : list pollfd) (ios : list (option ioref)) (pending : list Z)
    (nvalid j : nat) : M (list pollfd * Z) :=
  match fds, ios with
  | pfd :: fds', io :: ios' =>
      match io with
      | None =>
          '(out, nfds) ← poll_end fds' ios' pending nvalid j;
          mret (pfd :: out, nfds)
      | Some p =>
          if (j <? nvalid)%nat then
            _ ← deref p;
            let rev := poll_revents p pfd (nth j pending 0) in
            '(out, nfds) ← poll_end fds' ios' pending nvalid (S j);
            mret (set_revents pfd rev :: out, if rev =? 0 then nfds else nfds + 1)
          else
            '(out, nfds) ← poll_end fds' ios' pending nvalid (S j);
            mret (pfd :: out, nfds)
      end
  | _, _ => mret (fds, 0)
  end.

(** The last loop of [poll]. *)
Fixpoint poll_release (ios : list (option ioref)) : M unit :=
  match ios with
  | [] => mret tt
  | Some p :: ios' => _ ← mxio_release p; poll_release ios'
  | None :: ios' => poll_release ios'
  end.

(** [poll(fds, n, timeout)] with [n] the length of [fds]: the result and
    the array afterwards. *)
Definition poll (fds : list pollfd) (timeout : Z) : M (Z * list pollfd) :=
  if Z.of_nat (length fds) >? MAX_POLL_NFDS then
    r ← ERRNO EINVAL; mret (r, fds)
  else
    k ← poll_begin fds;
    let nvalid := length (ps_items k) in
    '(fds', nfds, r) ←
      (if bool_decide (ps_r k = NO_ERROR) && (0 <? nvalid)%nat then
         let tmo := if timeout >=? 0 then MX_MSEC timeout else MX_TIME_INFINITE in
         '(r, pending) ← extern (CallWaitMany (ps_items k) tmo)
                                 (mx_object_wait_many (ps_items k) tmo);
         if bool_decide (r = NO_ERROR) || bool_decide (r = Err ERR_TIMED_OUT) then
           '(out, nfds) ← poll_end (ps_fds k) (ps_ios k) pending nvalid 0;
           mret (out, nfds, r)
         else mret (ps_fds k, 0, r)
       else mret (ps_fds k, 0, ps_r k));
    _ ← poll_release (ps_ios k);
    ret ← (if bool_decide (r = NO_ERROR) || bool_decide (r = Err ERR_TIMED_OUT)
           then mret nfds else ERROR r);
    mret (ret, fds').

(** ** Notions the statements use *)

Definition in_table (fd : Z) : Prop := 0 <= fd < MAX_MXIO_FD.

(** An fd that names no object: negative, at least [MAX_MXIO_FD], or
    an empty slot. *)
Definition bad_fd (s : mxio_state) (fd : Z) : Prop :=
  fd < 0 \/ MAX_MXIO_FD <= fd \/ fdtab s !! fd = None.

(** The object behind an fd, as [__mxio_fd_to_io] finds it. *)
Definition lookup_fd (s : mxio_state) (fd : Z) : option ioref :=
  if (fd <? 0) || (fd >=? MAX_MXIO_FD) then None else fdtab s !! fd.

(** Every occupied slot points to a live object with a reference. *)
Definition wf_table (s : mxio_state) : Prop :=
  forall fd p, fdtab s !! fd = Some p ->
    exists o, objs s !! p = Some o /\ 1 <= refcount o.

Definition acquired (o : mxio_t) : mxio_t :=
  {| flags := flags o; refcount := refcount o + 1; dupcount := dupcount o |}.

Definition with_dupcount (o : mxio_t) (d : Z) : mxio_t :=
  {| flags := flags o; refcount := refcount o; dupcount := d |}.

(** [k] is the lowest free slot with index in [[lo, MAX_MXIO_FD)]. *)
Definition lowest_free (s : mxio_state) (lo k : Z) : Prop :=
  lo <= k < MAX_MXIO_FD /\ fdtab s !! k = None /\
  forall j, lo <= j < k -> fdtab s !! j <> None.

(** The state after [io] went into slot [k]. *)
Definition installed (s : mxio_state) (io : ioref) (o : mxio_t) (k : Z) : mxio_state :=
  set_fdtab <[k := io]> (set_objs <[io := with_dupcount o (dupcount o + 1)]> s).

(** The commands of [fcntl] that look the fd up. *)
Definition fcntl_uses_fd (cmd : fcntl_cmd) : Prop :=
  match cmd with
  | F_DUPFD | F_DUPFD_CLOEXEC | F_GETFD | F_SETFD | F_GETFL | F_SETFL => True
  | _ => False
  end.

(** One transport call [c] answered by [f]: the status and the state
    afterwards. *)
Definition try_status (f : W -> status * W) (s : mxio_state) : status :=
  (f (world s)).1.

Definition try_round (c : call) (f : W -> status * W) (s : mxio_state) : mxio_state :=
  set_world c (f (world s)).2 s.

(** What [read], [write], [pread] and [pwrite] keep of that answer in
    their variable [status]. *)
Definition stored_status (f : W -> status * W) (s : mxio_state) : status :=
  to_mx_status (try_status f s).

(** The state after [mxio_wait_fd(fd, evt, NULL, MX_TIME_INFINITE)] on
    an fd bound to [p]: a kernel wait with infinite timeout on the
    handle of [wait_begin], or nothing when that handle is invalid. *)
Definition wait_round (p : ioref) (evt : Z) (s : mxio_state) : mxio_state :=
  let hs := ops_wait_begin p evt in
  if hs.1 =? MX_HANDLE_INVALID then s
  else set_world (CallWaitOne hs.1 hs.2 MX_TIME_INFINITE)
                 (mx_object_wait_one hs.1 hs.2 MX_TIME_INFINITE (world s)).2 s.

(** The state after [k] turns of the retry loop that each found the
    transport not ready and waited. *)
Fixpoint rounds (k : nat) (c : call) (f : W -> status * W) (p : ioref) (evt : Z)
    (s : mxio_state) : mxio_state :=
  match k with
  | O => s
  | S k' => rounds k' c f p evt (wait_round p evt (try_round c f s))
  end.

(** The object an entry of [poll] waits on: none for a negative or
    unbound fd. *)
Definition poll_io (s : mxio_state) (pfd : pollfd) : option ioref :=
  if pfd_fd pfd <? 0 then None else lookup_fd s (pfd_fd pfd).

Definition poll_handle (p : ioref) (pfd : pollfd) : Z :=
  (ops_wait_begin p (to_uint32 (pfd_events pfd))).1.

Definition poll_item (p : ioref) (pfd : pollfd) : mx_wait_item_t :=
  {| wi_handle := poll_handle p pfd;
     wi_waitfor := (ops_wait_begin p (to_uint32 (pfd_events pfd))).2;
     wi_pending := 0 |}.

(** The wait items of an array, in order. *)
Definition poll_items (s : mxio_state) (fds : list pollfd) : list mx_wait_item_t :=
  omap (fun pfd => (fun p => poll_item p pfd) <$> poll_io s pfd) fds.

(** An entry whose [wait_begin] yields no handle. *)
Definition no_handle (s : mxio_state) (pfd : pollfd) : Prop :=
  exists p, poll_io s pfd = Some p /\ poll_handle p pfd = MX_HANDLE_INVALID.

(** [revents] of an entry that is not waited on. *)
Definition idle_revents (pfd : pollfd) : Z :=
  if pfd_fd pfd <? 0 then 0 else POLLNVAL.

(** The returned events masked to the requested events plus POLLHUP
    and POLLERR, as the specification words the [revents] of a waited
    entry. *)
Definition masked_events (returned requested : Z) : Z :=
  Z.land returned (Z.lor requested (Z.lor POLLHUP POLLERR)).

(** The [revents] a waited entry is to get: the events [wait_end]
    returns for the pending signals, a [uint32_t], masked and stored
    to a [short]. *)
Definition waited_revents (p : ioref) (pfd : pollfd) (pending : Z) : Z :=
  to_short (masked_events (to_uint32 (ops_wait_end p pending)) (pfd_events pfd)).

(** The array after a wait that reported [pending]; [j] is the index of
    the next wait item. *)
Fixpoint poll_marked (s : mxio_state) (pending : list Z) (j : nat) (fds : list pollfd)
  : list pollfd :=
  match fds with
  | [] => []
  | pfd :: rest =>
      match poll_io s pfd with
      | Some p =>
          set_revents pfd (waited_revents p pfd (nth j pending 0))
          :: poll_marked s pending (S j) rest
      | None => set_revents pfd (idle_revents pfd) :: poll_marked s pending j rest
      end
  end.

(** The array when no wait reported anything. *)
Definition poll_unwaited (s : mxio_state) (fds : list pollfd) : list pollfd :=
  map (fun pfd => set_revents pfd (match poll_io s pfd with
                                   | Some _ => 0
                                   | None => idle_revents pfd
                                   end)) fds.

(** The waited entries whose [revents] is not zero. *)
Definition ready_count (s : mxio_state) (fds : list pollfd) : Z :=
  Z.of_nat (length (filter (fun pfd => is_Some (poll_io s pfd) /\ pfd_revents pfd <> 0) fds)).

(** A live object with a reference. *)
Definition live (m : gmap ioref mxio_t) (p : ioref) : Prop :=
  exists o, m !! p = Some o /\ 1 <= refcount o.

(** What the first loop of [poll] leaves when every [wait_begin] yields
    a handle. *)
Definition scanned (s : mxio_state) (fds : list pollfd) : poll_scan :=
  {| ps_fds := poll_unwaited s fds; ps_ios := map (poll_io s) fds;
     ps_items := poll_items s fds; ps_r := NO_ERROR |}.

(** The timeout [poll] passes to the kernel. *)
Definition poll_timeout (timeout : Z) : Z :=
  if timeout >=? 0 then MX_MSEC timeout else MX_TIME_INFINITE.

(** The result of [poll] once the kernel wait on the items has
    answered: the count of ready entries with the marked array on
    success or timeout, else the translated error. *)
Definition poll_answer (s : mxio_state) (fds : list pollfd) (timeout : Z)
  : outcome (Z * list pollfd) :=
  let items := poll_items s fds in
  let tmo := poll_timeout timeout in
  let ans := mx_object_wait_many items tmo (world s) in
  let s' := set_world (CallWaitMany items tmo) ans.2 s in
  if bool_decide (ans.1.1 = NO_ERROR) || bool_decide (ans.1.1 = Err ERR_TIMED_OUT) then
    let fds' := poll_marked s ans.1.2 0 fds in
    Returns (ready_count s fds', fds') s'
  else Returns (-1, poll_unwaited s fds) (set_errno (error_errno ans.1.1) s').

(** What the retry loop relies on while it runs on behalf of [fd]. *)
Definition loop_ready (fd : Z) (p : ioref) (s : mxio_state) : Prop :=
  in_table fd /\ fdtab s !! fd = Some p /\
  exists o, objs s !! p = Some o /\ 1 <= refcount o /\
            Z.land (flags o) MXIO_FLAG_NONBLOCK = 0.

(** An action that leaves [mxio_cwd_path] alone. *)
Definition keeps_cwd {A} (m : M A) : Prop :=
  forall s a s', m s = Returns a s' -> cwd_path s' = cwd_path s.

(** The objects with one more reference for every entry of [ps]. *)
Definition bump (ps : list ioref) (m : gmap ioref mxio_t) : gmap ioref mxio_t :=
  foldr (alter acquired) m ps.

End Mxio.

Arguments Returns {_ A} a s.
Arguments Undefined {_ A}.
Arguments OutOfFuel {_ A}.

(** * More of unistd.c

    The functions of the file that call nothing but the ones above, the
    transports and the kernel. *)

(** ** More constants of the C library *)

Definition O_RDWR : Z := 2.
Definition O_EXCL : Z := 128.          (* 0200 *)
Definition O_CLOEXEC : Z := 524288.    (* 02000000 *)
Definition S_IFDIR : Z := 16384.       (* 0040000 *)
Definition ENOTTY : Z := 25.
Definition EPOLLIN : Z := 1.
Definition EPOLLOUT : Z := 4.
Definition FD_SETSIZE : Z := 1024.
Definition MX_USEC (n : Z) : Z := n * 1000.

(** [strnlen(s, maxlen)]. *)
Definition strnlen (s : cstr) (maxlen : nat) : nat := Nat.min (length s) maxlen.

(** ** The directory that contains a path

    The two scans of [__mxio_opendir_containing_at] over [path], as
    offsets into it. *)

(** The first scan: [path_end] moves back over the slashes that end
    the path, and stops at offset 0. *)
Fixpoint skip_slashes_back (path : cstr) (path_end : nat) : nat :=
  match path_end with
  | O => O
  | S e =>
      if Ascii.eqb (char_at path path_end) slash then skip_slashes_back path e
      else path_end
  end.

(** The second scan: [name] moves back to the nearest slash, and stops
    at offset 0. *)
Fixpoint back_to_slash (path : cstr) (name : nat) : nat :=
  match name with
  | O => O
  | S n => if Ascii.eqb (char_at path name) slash then name else back_to_slash path n
  end.

(** From [path] and the offset of its last character to [dirpath] and
    [name]; [None] where the function returns ERR_INVALID_ARGS. *)
Definition containing_split (path : cstr) (last_char : nat) : option (cstr * cstr) :=
  let path_end := skip_slashes_back path last_char in
  let name := back_to_slash path path_end in
  '(dirpath, name') ←
    (if (name =? 0)%nat && negb (Ascii.eqb (char_at path name) slash)
     then Some (str ".", path)
     else if (PATH_MAX - 1 <? name)%nat then None
     else Some (take name path, drop (S name) path));
  if Ascii.eqb (char_at name' 0) NUL then None else Some (dirpath, name').

(** [fd_set]: the fds whose bit is set. *)
Definition fd_set := gset Z.

(** [set && FD_ISSET(fd, set)]. *)
Definition fd_isset (fd : Z) (set : option fd_set) : bool :=
  match set with
  | Some X => bool_decide (fd ∈ X)
  | None => false
  end.

(** [FD_CLR(fd, set)] where [set] is not NULL. *)
Definition fd_clr (fd : Z) (set : option fd_set) : option fd_set :=
  (fun X => X ∖ {[fd]}) <$> set.

(** The events [select] asks for on [fd]. *)
Definition select_events (fd : Z) (rfds wfds efds : option fd_set) : Z :=
  Z.lor (Z.lor (if fd_isset fd rfds then EPOLLIN else 0)
               (if fd_isset fd wfds then EPOLLOUT else 0))
        (if fd_isset fd efds then EPOLLERR else 0).

(** The number of fds among the [k] from [fd] on that are in [set]. *)
Fixpoint fd_count (k : nat) (fd : Z) (set : option fd_set) : Z :=
  match k with
  | O => 0
  | S k' => (if fd_isset fd set then 1 else 0) + fd_count k' (fd + 1) set
  end.

(** [struct iovec]; [iov_base] is [None] for NULL. *)
Record iovec := { iov_base : option addr; iov_len : Z }.

Section MxioMore.
Context `{World}.

(** ** Process exit *)

(** The loop of [mxio_exit] from slot [fd] on, with [n] slots to go. *)
Fixpoint mxio_exit_loop (n : nat) (fd : Z) : M unit :=
  match n with
  | O => mret tt
  | S n' =>
      io ← tab_get fd;
      _ ← match io with
          | Some p =>
              _ ← tab_set fd None;
              o ← deref p;
              _ ← set_dupcount p (dupcount o - 1);
              if dupcount o - 1 =? 0 then
                _ ← op_call p (CallClose p) (ops_close p); mxio_release p
              else mret tt
          | None => mret tt
          end;
      mxio_exit_loop n' (fd + 1)
  end.

(** [mxio_exit], the [atexit] hook. *)
Definition mxio_exit : M unit := mxio_exit_loop (Z.to_nat MAX_MXIO_FD) 0.

(** ** Vectored reads and writes *)

(** The loop of [readv] and [writev] over the entries of [iov], [num]
    being their number; [io] is [read] or [write] on the fd.  [count] is
    an [ssize_t] and kept without a bound. *)
Fixpoint iov_loop (io : option addr -> Z -> M Z) (iov : list iovec) (count : Z) : M Z :=
  match iov with
  | [] => mret count
  | v :: rest =>
      if iov_len v =? 0 then iov_loop io rest count
      else
        r ← io (iov_base v) (iov_len v);
        if r <? 0 then mret (if count =? 0 then r else count)
        else if r <? iov_len v then mret (count + r)
        else iov_loop io rest (count + r)
  end.

Definition readv (fuel : nat) (fd : Z) (iov : list iovec) : M Z :=
  iov_loop (read fuel fd) iov 0.

Definition writev (fuel : nat) (fd : Z) (iov : list iovec) : M Z :=
  iov_loop (write fuel fd) iov 0.

(** The loop of [preadv] and [pwritev], which also moves the offset. *)
Fixpoint iov_loop_at (io : option addr -> Z -> Z -> M Z) (iov : list iovec)
    (iov_count ofs : Z) : M Z :=
  match iov with
  | [] => mret iov_count
  | v :: rest =>
      if iov_len v =? 0 then iov_loop_at io rest iov_count ofs
      else
        r ← io (iov_base v) (iov_len v) ofs;
        if r <? 0 then mret (if iov_count =? 0 then r else iov_count)
        else if r <? iov_len v then mret (iov_count + r)
        else iov_loop_at io rest (iov_count + r) (ofs + r)
  end.

Definition preadv (fuel : nat) (fd : Z) (iov : list iovec) (ofs : Z) : M Z :=
  iov_loop_at (pread fuel fd) iov 0 ofs.

Definition pwritev (fuel : nat) (fd : Z) (iov : list iovec) (ofs : Z) : M Z :=
  iov_loop_at (pwrite fuel fd) iov 0 ofs.

(** ** dup3, fdatasync, isatty *)

Definition dup3 (oldfd newfd oflags : Z) : M Z :=
  if oldfd =? newfd then ERRNO EINVAL
  else if negb (oflags =? 0) && negb (oflags =? O_CLOEXEC) then ERRNO EINVAL
  else mxio_dup oldfd newfd 0.

Definition fdatasync (fd : Z) : M Z := fsync fd.

Definition isatty (fd : Z) : M Z :=
  io ← __mxio_fd_to_io fd;
  match io with
  | None => _ ← modify (set_errno EBADF); mret 0
  | Some p =>
      ret ← (if (fd =? 0) || (fd =? 1) || (fd =? 2) then mret 1
             else _ ← modify (set_errno ENOTTY); mret 0);
      _ ← mxio_release p;
      mret ret
  end.

(** ** Opening the directory that contains a path *)

(** [__mxio_opendir_containing_at]: the status, the object stored to
    [*io] and the string stored to [*_name].  With an empty path the
    offset [strnlen(path) - 1] wraps around and [path[path_end]] is read
    outside the string. *)
Definition __mxio_opendir_containing_at (dirfd : Z) (path : option cstr)
  : M (status * option ioref * option cstr) :=
  match path with
  | None => mret (Err ERR_INVALID_ARGS, None, None)
  | Some p =>
      '(iodir, p') ← mxio_iodir p dirfd;
      match iodir with
      | None => mret (Err ERR_BAD_HANDLE, None, None)
      | Some d =>
          match strnlen p' (PATH_MAX - 1) with
          | O => undefined
          | S last_char =>
              match containing_split p' last_char with
              | None => _ ← mxio_release d; mret (Err ERR_INVALID_ARGS, None, None)
              | Some (dirpath, name) =>
                  s ← get;
                  let new := fresh (dom (objs s)) in
                  '(r, fl) ← op_call d (CallOpen d dirpath O_DIRECTORY 0 new)
                                       (ops_open d dirpath O_DIRECTORY 0 new);
                  io ← (if is_err r then mret None
                        else _ ← store new {| flags := fl; refcount := 1; dupcount := 0 |};
                             mret (Some new));
                  _ ← mxio_release d;
                  mret (r, io, Some name)
              end
          end
      end
  end.

Definition __mxio_opendir_containing (path : option cstr)
  : M (status * option ioref * option cstr) :=
  __mxio_opendir_containing_at AT_FDCWD path.

(** ** select *)

(** What the first loop of [select] leaves: [ios] as far as it was
    written, [items] and [r]. *)
Record select_scan := {
  ss_ios : list (option ioref);
  ss_items : list mx_wait_item_t;
  ss_r : status;
}.

(** The first loop of [select], from [fd] on with [k] fds to go. *)
Fixpoint select_begin (k : nat) (fd : Z) (rfds wfds efds : option fd_set) : M select_scan :=
  match k with
  | O => mret {| ss_ios := []; ss_items := []; ss_r := NO_ERROR |}
  | S k' =>
      let events := select_events fd rfds wfds efds in
      if events =? 0 then
        sc ← select_begin k' (fd + 1) rfds wfds efds;
        mret {| ss_ios := None :: ss_ios sc; ss_items := ss_items sc; ss_r := ss_r sc |}
      else
        io ← __mxio_fd_to_io fd;
        match io with
        | None => mret {| ss_ios := [None]; ss_items := []; ss_r := Err ERR_BAD_HANDLE |}
        | Some p =>
            _ ← deref p;
            let '(h, sigs) := ops_wait_begin p events in
            if h =? MX_HANDLE_INVALID then
              mret {| ss_ios := [Some p]; ss_items := []; ss_r := Err ERR_INVALID_ARGS |}
            else
              sc ← select_begin k' (fd + 1) rfds wfds efds;
              mret {| ss_ios := Some p :: ss_ios sc;
                      ss_items := {| wi_handle := h; wi_waitfor := sigs; wi_pending := 0 |}
                                  :: ss_items sc;
                      ss_r := ss_r sc |}
        end
  end.

(** One of the three sets in the second loop: a set that holds [fd]
    keeps it and counts when the event is pending, and loses it
    otherwise. *)
Definition select_mark (fd events evt : Z) (set : option fd_set) (nfds : Z)
  : option fd_set * Z :=
  if fd_isset fd set then
    if Z.land events evt =? 0 then (fd_clr fd set, nfds) else (set, nfds + 1)
  else (set, nfds).

(** The second loop of [select]: [j] counts the valid entries seen. *)
Fixpoint select_end (ios : list (option ioref)) (fd : Z) (pending : list Z)
    (nvalid j : nat) (rfds wfds efds : option fd_set) (nfds : Z)
  : M (option fd_set * option fd_set * option fd_set * Z) :=
  match ios with
  | [] => mret (rfds, wfds, efds, nfds)
  | None :: ios' => select_end ios' (fd + 1) pending nvalid j rfds wfds efds nfds
  | Some p :: ios' =>
      if (j <? nvalid)%nat then
        _ ← deref p;
        let events := to_uint32 (ops_wait_end p (nth j pending 0)) in
        let '(rfds', n1) := select_mark fd events EPOLLIN rfds nfds in
        let '(wfds', n2) := select_mark fd events EPOLLOUT wfds n1 in
        let '(efds', n3) := select_mark fd events EPOLLERR efds n2 in
        select_end ios' (fd + 1) pending nvalid (S j) rfds' wfds' efds' n3
      else
        select_end ios' (fd + 1) pending nvalid (S j)
                   (fd_clr fd rfds) (fd_clr fd wfds) (fd_clr fd efds) nfds
  end.

(** [select(n, rfds, wfds, efds, tv)]: the result and the three sets
    afterwards; a set or [tv] that is NULL is [None], and [tv] holds
    [tv_sec] and [tv_usec].  The last loop, which releases [ios], is the
    one of [poll]. *)
Definition select (n : Z) (rfds wfds efds : option fd_set) (tv : option (Z * Z))
  : M (Z * (option fd_set * option fd_set * option fd_set)) :=
  if (n >? FD_SETSIZE) || (n <? 1) then
    r ← ERRNO EINVAL; mret (r, (rfds, wfds, efds))
  else
    sc ← select_begin (Z.to_nat n) 0 rfds wfds efds;
    let nvalid := length (ss_items sc) in
    '(sets, nfds, r) ←
      (if bool_decide (ss_r sc = NO_ERROR) && (0 <? nvalid)%nat then
         let tmo := match tv with
                    | None => MX_TIME_INFINITE
                    | Some (sec, usec) => (MX_SEC sec + MX_USEC usec) mod 2 ^ 64
                    end in
         '(r, pending) ← extern (CallWaitMany (ss_items sc) tmo)
                                 (mx_object_wait_many (ss_items sc) tmo);
         if bool_decide (r = NO_ERROR) || bool_decide (r = Err ERR_TIMED_OUT) then
           '(rf, wf, ef, nfds) ← select_end (ss_ios sc) 0 pending nvalid 0 rfds wfds efds 0;
           mret ((rf, wf, ef), nfds, r)
         else mret ((rfds, wfds, efds), 0, r)
       else mret ((rfds, wfds, efds), 0, ss_r sc));
    _ ← poll_release (ss_ios sc);
    ret ← (if bool_decide (r = NO_ERROR) || bool_decide (r = Err ERR_TIMED_OUT)
           then mret nfds else ERROR r);
    mret (ret, sets).

(** ** mkdir *)

Definition mkdirat (dirfd : Z) (path : option cstr) (mode : Z) : M Z :=
  let mode' := Z.lor (Z.land mode 511) S_IFDIR in
  '(r, io) ← __mxio_open_at dirfd path (Z.lor (Z.lor O_CREAT O_EXCL) O_RDWR) mode';
  if is_err r then ERROR r
  else
    match io with
    | None => undefined
    | Some p =>
        _ ← op_call p (CallClose p) (ops_close p);
        _ ← mxio_release p;
        mret 0
    end.

Definition mkdir (path : option cstr) (mode : Z) : M Z := mkdirat AT_FDCWD path mode.

(** ** More notions the statements use *)

(** The objects after [mxio_release(p)]: one reference less, and the
    object gone with its last one. *)
Definition released (p : ioref) (m : gmap ioref mxio_t) : gmap ioref mxio_t :=
  match m !! p with
  | Some o =>
      if refcount o =? 1 then delete p m
      else <[p := {| flags := flags o; refcount := refcount o - 1; dupcount := dupcount o |}]> m
  | None => m
  end.

(** The state after slot [fd], bound to [p], was given up: the slot is
    empty, [p] counts one slot and one reference less. *)
Definition slot_closed (fd : Z) (p : ioref) (s : mxio_state) : mxio_state :=
  set_fdtab (delete fd)
    (set_objs (fun m => released p (alter (fun o => with_dupcount o (dupcount o - 1)) p m)) s).

(** The state after [dup2] put [p] into slot [fd], which was bound to
    another object [q]: [p] counts one slot and one reference more, [q]
    one slot and one reference less. *)
Definition slot_given (fd : Z) (p q : ioref) (s : mxio_state) : mxio_state :=
  set_fdtab <[fd := p]>
    (set_objs (fun m =>
       released q (alter (fun o => with_dupcount o (dupcount o - 1)) q
                     (alter (fun o => with_dupcount (acquired o) (dupcount o + 1)) p m))) s).

(** The status kept of the answer is ERR_SHOULD_WAIT for the first [k]
    tries of the call [c], each followed by a wait for [evt], and
    something else for the next one. *)
Definition ready_after (k : nat) (c : call) (f : W -> status * W) (p : ioref) (evt : Z)
    (s : mxio_state) : Prop :=
  (forall j, (j < k)%nat ->
     to_mx_status (try_status f (rounds j c f p evt s)) = Err ERR_SHOULD_WAIT) /\
  to_mx_status (try_status f (rounds k c f p evt s)) <> Err ERR_SHOULD_WAIT.

(** The object [o] with the flag word [f]. *)
Definition with_flags (o : mxio_t) (f : Z) : mxio_t :=
  {| flags := f; refcount := refcount o; dupcount := dupcount o |}.

(** The directory object and the adjusted path [mxio_iodir] finds for
    [path] and [dirfd]: the root for an absolute path, else the cwd for
    AT_FDCWD, else the object of the slot [dirfd]. *)
Definition iodir_of (s : mxio_state) (path : cstr) (dirfd : Z) : option ioref * cstr :=
  if Ascii.eqb (char_at path 0) slash then
    (root_handle s,
     if Ascii.eqb (char_at (drop 1 path) 0) NUL then str "." else drop 1 path)
  else if dirfd =? AT_FDCWD then (cwd_handle s, path)
  else if (0 <=? dirfd) && (dirfd <? MAX_MXIO_FD) then (fdtab s !! dirfd, path)
  else (None, path).

(** The object the transport's [open] creates next. *)
Definition next_object (s : mxio_state) : ioref := fresh (dom (objs s)).

(** The call of the transport's [open] on the directory [d]. *)
Definition open_call (d : ioref) (path : cstr) (oflags mode : Z) (s : mxio_state) : call :=
  CallOpen d path oflags mode (next_object s).

(** Its answer: the status with the flag word of the new object, and
    the world afterwards. *)
Definition open_answer (d : ioref) (path : cstr) (oflags mode : Z) (s : mxio_state)
  : (status * Z) * W :=
  ops_open d path oflags mode (next_object s) (world s).

(** The state after that call. *)
Definition opened (d : ioref) (path : cstr) (oflags mode : Z) (s : mxio_state)
  : mxio_state :=
  set_world (open_call d path oflags mode s) (open_answer d path oflags mode s).2 s.

(** The mode [vopenat] passes on: the low nine bits of the variable
    argument with O_CREAT, else 0. *)
Definition open_mode (oflags mode_arg : Z) : Z :=
  if Z.land oflags O_CREAT =? 0 then 0 else Z.land (to_uint32 mode_arg) 511.

(** The number of slots of the table that hold [p]. *)
Definition slot_count (t : gmap Z ioref) (p : ioref) : nat :=
  size (filter (fun kv => kv.2 = p) t).

(** The table and the objects agree: the table has no entry outside
    its range, and every object in it is live, counts its slots in
    [dupcount], and holds at least one reference for each of them. *)
Definition table_ok (s : mxio_state) : Prop :=
  (forall fd p, fdtab s !! fd = Some p -> in_table fd) /\
  (forall p, (0 < slot_count (fdtab s) p)%nat ->
     exists o, objs s !! p = Some o /\
               dupcount o = Z.of_nat (slot_count (fdtab s) p) /\
               dupcount o <= refcount o).

End MxioMore.

(** ** A small world for the examples

    One transport: its [read] finds nothing on the first two calls and
    delivers three bytes from then on, every other operation succeeds at
    once, and [wait_begin] hands out the object's number as the handle.
    The world counts the calls of [read]. *)
Definition example_world : World := {|
  W := nat;
  status_code := fun v => if v =? -22 then ERR_SHOULD_WAIT else ERR_INTERNAL;
  MXIO_FLAG_NONBLOCK := 16;
  MXIO_FD_FLAGS := 1;
  MXIO_EVT_READABLE := 1;
  MXIO_EVT_WRITABLE := 4;
  ATTR_MTIME := 1;
  sizeof_vnattr := 56;
  ops_close := fun _ w => (NO_ERROR, w);
  ops_read := fun _ _ _ w => (if (w <? 2)%nat then Err ERR_SHOULD_WAIT else Ok 3, S w);
  ops_write := fun _ _ _ w => (Ok 3, w);
  ops_read_at := fun _ _ _ _ w => (Ok 3, w);
  ops_write_at := fun _ _ _ _ w => (Ok 3, w);
  ops_seek := fun _ _ _ w => (Ok 0, w);
  ops_misc := fun _ _ _ _ _ _ w => (Ok 56, w);
  ops_posix_ioctl := fun _ _ _ w => (Ok 0, w);
  ops_open := fun _ _ _ _ _ w => ((NO_ERROR, 0), w);
  ops_wait_begin := fun p ev => (Z.pos p, ev);
  ops_wait_end := fun _ pending => pending;
  mx_object_wait_one := fun _ signals _ w => ((NO_ERROR, signals), w);
  mx_object_wait_many := fun items _ w => ((NO_ERROR, map wi_waitfor items), w);
  mx_time_get := fun w => (0, w);
|}.

Definition example_obj (fl : Z) : mxio_t := {| flags := fl; refcount := 1; dupcount := 1 |}.

Definition example_dir : mxio_t := {| flags := 0; refcount := 1; dupcount := 0 |}.

(** fd 3 is bound to object 1, whose flag word is [fl]; objects 2 and 4
    are the root and the cwd; the cwd string is ["/"]. *)
Definition example_state (fl : Z) : @mxio_state example_world :=
  @Build_mxio_state example_world
    {[ 3 := 1%positive ]}
    {[ 1%positive := example_obj fl; 2%positive := example_dir;
       4%positive := example_dir ]}
    (Some 2%positive) (Some 4%positive) [slash] 0 O [].

(** A path of [n] letters below the root. *)
Definition long_path (n : nat) : cstr := slash :: repeat "a"%char n.

(** ** A second world

    Its [write], [read_at] and [write_at] find the transport not ready
    on the first call and transfer three bytes from then on; its [read]
    delivers as many bytes as were asked for and its [posix_ioctl]
    answers the number of the request, however large; its kernel
    reports writability to an item that waits for readability alone,
    and writability with a hang-up to any other item.  The world counts
    the calls of [write], [read_at] and [write_at]. *)
Definition slow_world : World := {|
  W := nat;
  status_code := fun v => if v =? -22 then ERR_SHOULD_WAIT else ERR_INTERNAL;
  MXIO_FLAG_NONBLOCK := 16;
  MXIO_FD_FLAGS := 1;
  MXIO_EVT_READABLE := 1;
  MXIO_EVT_WRITABLE := 4;
  ATTR_MTIME := 1;
  sizeof_vnattr := 56;
  ops_close := fun _ w => (NO_ERROR, w);
  ops_read := fun _ _ count w => (Ok (Z.to_N count), w);
  ops_write := fun _ _ _ w => (if (w <? 1)%nat then Err ERR_SHOULD_WAIT else Ok 3, S w);
  ops_read_at := fun _ _ _ _ w => (if (w <? 1)%nat then Err ERR_SHOULD_WAIT else Ok 3, S w);
  ops_write_at := fun _ _ _ _ w => (if (w <? 1)%nat then Err ERR_SHOULD_WAIT else Ok 3, S w);
  ops_seek := fun _ _ _ w => (Ok 0, w);
  ops_misc := fun _ _ _ _ _ _ w => (Ok 56, w);
  ops_posix_ioctl := fun _ req _ w => (Ok (Z.to_N req), w);
  ops_open := fun _ _ _ _ _ w => ((NO_ERROR, 0), w);
  ops_wait_begin := fun p ev => (Z.pos p, ev);
  ops_wait_end := fun _ pending => pending;
  mx_object_wait_one := fun _ signals _ w => ((NO_ERROR, signals), w);
  mx_object_wait_many := fun items _ w =>
    ((NO_ERROR, map (fun it => if wi_waitfor it =? 1 then 4 else 20) items), w);
  mx_time_get := fun w => (0, w);
|}.

(** The example state in the second world. *)
Definition slow_state (fl : Z) : @mxio_state slow_world :=
  @Build_mxio_state slow_world
    {[ 3 := 1%positive ]}
    {[ 1%positive := example_obj fl; 2%positive := example_dir;
       4%positive := example_dir ]}
    (Some 2%positive) (Some 4%positive) [slash] 0 O [].

(** The example state with a second descriptor: fd 5 is bound to
    object 6. *)
Definition example_state2 : @mxio_state example_world :=
  set_fdtab <[5 := 6%positive]>
    (set_objs <[6%positive := example_obj 0]> (example_state 0)).

(** A state whose table has no free slot: every fd is bound to object 1. *)
Definition full_state : @mxio_state example_world :=
  set_fdtab (fun _ => list_to_map ((fun i => (Z.of_nat i, 1%positive)) <$> seq 0 1024))
    (example_state 0).

(** * Facts about the cwd tracker *)

Lemma split_slash_not_nil s : split_slash s <> [].
Proof.
  destruct s as [|c r]; simpl; [discriminate|].
  destruct (Ascii.eqb c slash); [discriminate|].
  destruct (split_slash r); discriminate.
Qed.

Lemma strchr_none_split path :
  strchr path slash = None -> split_slash path = [path] /\ slash ∉ path.
Proof.
  induction path as [|c r IH]; simpl.
  - intros _. split; [reflexivity | apply not_elem_of_nil].
  - destruct (Ascii.eqb_spec c slash) as [->|Hc]; [discriminate|].
    destruct (strchr r slash) eqn:E; [discriminate|].
    intros _. destruct (IH eq_refl) as [-> Hr]. split; [reflexivity|].
    rewrite elem_of_cons. intros [Heq|Hin]; [congruence | contradiction].
Qed.

Lemma strchr_some_split path i :
  strchr path slash = Some i ->
  (i < length path)%nat /\ (slash ∉ take i path) /\
  split_slash path = take i path :: split_slash (drop (S i) path).
Proof.
  revert i. induction path as [|c r IH]; simpl; intros i; [discriminate|].
  destruct (Ascii.eqb_spec c slash) as [->|Hc].
  - intros [= <-]. simpl. rewrite drop_0.
    split; [lia|]. split; [apply not_elem_of_nil | reflexivity].
  - destruct (strchr r slash) as [j|] eqn:E; [|discriminate].
    intros [= <-]. destruct (IH j eq_refl) as (Hlt & Hnot & Hsp).
    split; [lia|]. split.
    + simpl. rewrite elem_of_cons. intros [Heq|Hin]; [congruence | contradiction].
    + rewrite Hsp. reflexivity.
Qed.

Lemma strrchr_app_slash a seg :
  slash ∉ seg -> strrchr (a ++ slash :: seg) slash = Some (length a).
Proof.
  intros Hseg.
  assert (Hs : strrchr seg slash = None).
  { induction seg as [|c r IH]; simpl; [reflexivity|].
    rewrite not_elem_of_cons in Hseg. destruct Hseg as [Hc Hr].
    rewrite (IH Hr). destruct (Ascii.eqb_spec c slash); congruence. }
  induction a as [|x a IH]; simpl.
  - rewrite Hs. reflexivity.
  - rewrite IH. reflexivity.
Qed.

Lemma render_snoc_concat stack seg :
  render (stack ++ [seg]) = concat (map (cons slash) stack) ++ slash :: seg.
Proof.
  unfold render. destruct (stack ++ [seg]) eqn:E.
  - destruct stack; discriminate.
  - rewrite <- E, map_app, concat_app. simpl. rewrite app_nil_r. reflexivity.
Qed.

Lemma render_length_1 stack :
  Forall segment stack -> (length (render stack) =? 1)%nat = bool_decide (stack = []).
Proof.
  destruct stack as [|seg st]; [reflexivity|].
  intros Hs. apply Forall_cons in Hs as [[Hne _] _].
  rewrite bool_decide_eq_false_2 by discriminate.
  destruct seg as [|c seg]; [congruence|].
  reflexivity.
Qed.

Lemma render_snoc stack seg :
  Forall segment stack ->
  render (stack ++ [seg]) =
  (if (length (render stack) =? 1)%nat then render stack else render stack ++ [slash]) ++ seg.
Proof.
  intros Hs. rewrite render_snoc_concat, (render_length_1 _ Hs).
  destruct stack as [|s0 st]; [reflexivity|].
  rewrite bool_decide_eq_false_2 by discriminate.
  unfold render. rewrite <- app_assoc. reflexivity.
Qed.

Lemma render_parent stack :
  Forall segment stack ->
  exists x, strrchr (render stack) slash = Some x /\
    (if (x =? 0)%nat then take 1 (render stack) else take x (render stack))
    = render (removelast stack).
Proof.
  intros Hs. destruct (decide (stack = [])) as [->|Hne].
  - exists O. split; reflexivity.
  - destruct (exists_last Hne) as (st & seg & ->).
    apply Forall_app in Hs as [Hst Hseg].
    apply Forall_cons in Hseg as [[Hsne Hsl] _].
    rewrite removelast_last, render_snoc_concat.
    exists (length (concat (map (cons slash) st))).
    split; [apply strrchr_app_slash; assumption|].
    destruct st as [|s0 st]; [reflexivity|].
    replace ((length (concat (map (cons slash) (s0 :: st))) =? 0)%nat) with false
      by (simpl; reflexivity).
    rewrite take_app_length. reflexivity.
Qed.

Lemma seg_test_dot path n :
  (n <= length path)%nat ->
  (n =? 1)%nat && Ascii.eqb (char_at path 0) dot = bool_decide (take n path = [dot]).
Proof.
  intros Hn. unfold char_at.
  destruct n as [|[|n]]; destruct path as [|a [|b r]]; simpl in *; try lia;
    case_bool_decide as E; try discriminate E; try reflexivity.
  all: destruct (Ascii.eqb_spec a dot); congruence.
Qed.

Lemma seg_test_dotdot path n :
  (n <= length path)%nat ->
  (n =? 2)%nat && Ascii.eqb (char_at path 0) dot && Ascii.eqb (char_at path 1) dot
  = bool_decide (take n path = [dot; dot]).
Proof.
  intros Hn. unfold char_at.
  destruct n as [|[|[|n]]]; destruct path as [|a [|b [|c r]]]; simpl in *; try lia;
    case_bool_decide as E; try discriminate E; try reflexivity.
  all: destruct (Ascii.eqb_spec a dot); destruct (Ascii.eqb_spec b dot);
    simpl; congruence.
Qed.

Lemma walk_skip stack seg rest :
  seg = [] \/ seg = [dot] -> walk stack (seg :: rest) = walk stack rest.
Proof. intros [-> | ->]; reflexivity. Qed.

Lemma walk_parent stack rest :
  walk stack ([dot; dot] :: rest) = walk (removelast stack) rest.
Proof. reflexivity. Qed.

Lemma walk_push stack seg rest :
  seg <> [] -> seg <> [dot] -> seg <> [dot; dot] ->
  walk stack (seg :: rest) =
  if too_long stack seg then None else walk (stack ++ [seg]) rest.
Proof.
  intros H0 H1 H2. cbn [walk].
  repeat case_decide; congruence || reflexivity.
Qed.

Lemma cwd_segment_walk stack path n rest :
  Forall segment stack -> (n <= length path)%nat -> slash ∉ take n path ->
  match cwd_segment (render stack) path n with
  | None => walk stack (take n path :: rest) = None
  | Some cwd' =>
      exists stack', cwd' = render stack' /\ Forall segment stack' /\
                     walk stack (take n path :: rest) = walk stack' rest
  end.
Proof.
  intros Hs Hn Hsl. unfold cwd_segment.
  assert (Hlen : length (take n path) = n) by (rewrite length_take; lia).
  destruct (decide (take n path = [])) as [E0|E0].
  { rewrite walk_skip by auto.
    rewrite E0 in Hlen. simpl in Hlen. subst n. simpl.
    exists stack. repeat split; auto. }
  replace ((n =? 0)%nat) with false
    by (symmetry; apply Nat.eqb_neq; intros ->; apply E0; reflexivity).
  rewrite (seg_test_dot _ _ Hn), (seg_test_dotdot _ _ Hn).
  destruct (decide (take n path = [dot])) as [E1|E1].
  { rewrite walk_skip by auto.
    rewrite bool_decide_eq_true_2 by assumption. cbv beta iota.
    exists stack. repeat split; auto. }
  rewrite (bool_decide_eq_false_2 _ E1). cbv beta iota.
  destruct (decide (take n path = [dot; dot])) as [E2|E2].
  { rewrite bool_decide_eq_true_2 by assumption. cbv beta iota.
    rewrite E2, walk_parent.
    destruct (render_parent stack Hs) as (x & -> & Hx).
    assert (Hrl : Forall segment (removelast stack)).
    { destruct (decide (stack = [])) as [->|Hne]; [constructor|].
      destruct (exists_last Hne) as (st & seg & ->).
      rewrite removelast_last. apply Forall_app in Hs. tauto. }
    destruct (x =? 0)%nat; rewrite Hx; exists (removelast stack); repeat split; auto. }
  rewrite (bool_decide_eq_false_2 _ E2). cbv beta iota.
  rewrite walk_push by assumption.
  unfold too_long. rewrite Hlen.
  destruct (PATH_MAX <=? length (render stack) + n + 2)%nat; [reflexivity|].
  exists (stack ++ [take n path]). split; [|split; [|reflexivity]].
  - symmetry. apply render_snoc. assumption.
  - apply Forall_app. split; [assumption|]. constructor; [|constructor].
    split; assumption.
Qed.

Lemma cwd_loop_unfold fuel cwd path :
  path <> [] ->
  cwd_loop (S fuel) cwd path =
  let '(seglen, next) :=
    match strchr path slash with
    | None => (length path, [])
    | Some i => (i, drop (S i) path)
    end in
  match cwd_segment cwd path seglen with
  | None => unknown_path
  | Some cwd' => cwd_loop fuel cwd' next
  end.
Proof. destruct path; [congruence | reflexivity]. Qed.

Lemma cwd_loop_walk fuel : forall stack path,
  Forall segment stack -> (length path <= fuel)%nat ->
  cwd_loop fuel (render stack) path = render_walk (walk stack (split_slash path)).
Proof.
  induction fuel as [|fuel IH]; intros stack path Hs Hf.
  - destruct path; [reflexivity | simpl in Hf; lia].
  - destruct (decide (path = [])) as [->|Hne]; [reflexivity|].
    rewrite cwd_loop_unfold by assumption.
    assert (0 < length path)%nat by (destruct path; [congruence | simpl; lia]).
    destruct (strchr path slash) as [i|] eqn:Es.
    + destruct (strchr_some_split _ _ Es) as (Hi & Hsl & ->).
      pose proof (cwd_segment_walk stack path i (split_slash (drop (S i) path)) Hs
                    ltac:(lia) Hsl) as Hw.
      destruct (cwd_segment (render stack) path i) as [cwd'|].
      * destruct Hw as (stack' & -> & Hs' & ->).
        apply IH; [assumption|]. rewrite length_drop. lia.
      * rewrite Hw. reflexivity.
    + destruct (strchr_none_split _ Es) as (Hsp & Hsl). rewrite Hsp.
      pose proof (cwd_segment_walk stack path (length path) [] Hs ltac:(lia)) as Hw.
      rewrite firstn_all in Hw. specialize (Hw Hsl).
      destruct (cwd_segment (render stack) path (length path)) as [cwd'|].
      * destruct Hw as (stack' & -> & Hs' & Hw).
        rewrite Hw. destruct fuel; reflexivity.
      * rewrite Hw. reflexivity.
Qed.

(** Absolute and relative paths. *)
Lemma update_cwd_path_absolute cwd p :
  update_cwd_path cwd (slash :: p) = render_walk (walk [] (split_slash p)).
Proof.
  unfold update_cwd_path. change (char_at (slash :: p) 0) with slash.
  rewrite Ascii.eqb_refl. change (drop 1 (slash :: p)) with (drop 0 p).
  rewrite drop_0. change [slash] with (render []).
  apply cwd_loop_walk; [constructor | simpl; lia].
Qed.

Lemma update_cwd_path_relative stack p :
  Forall segment stack -> char_at p 0 <> slash ->
  update_cwd_path (render stack) p = render_walk (walk stack (split_slash p)).
Proof.
  intros Hs Hp. unfold update_cwd_path.
  destruct (Ascii.eqb_spec (char_at p 0) slash); [contradiction|].
  apply cwd_loop_walk; [assumption | lia].
Qed.

(** Idempotence and the form the tracker keeps. *)
Lemma split_slash_plain seg : slash ∉ seg -> split_slash seg = [seg].
Proof.
  induction seg as [|c r IH]; intros Hs; [reflexivity|].
  rewrite not_elem_of_cons in Hs. destruct Hs as [Hc Hr]. simpl.
  destruct (Ascii.eqb_spec c slash); [congruence|]. rewrite (IH Hr). reflexivity.
Qed.

Lemma split_slash_app seg r :
  slash ∉ seg -> split_slash (seg ++ slash :: r) = seg :: split_slash r.
Proof.
  induction seg as [|c seg IH]; intros Hs; simpl.
  - reflexivity.
  - rewrite not_elem_of_cons in Hs. destruct Hs as [Hc Hr].
    destruct (Ascii.eqb_spec c slash); [congruence|]. rewrite (IH Hr). reflexivity.
Qed.

Lemma split_slash_segments seg st :
  Forall segment (seg :: st) ->
  split_slash (seg ++ concat (map (cons slash) st)) = seg :: st.
Proof.
  revert seg. induction st as [|s2 st IH]; intros seg Hs.
  - simpl. rewrite app_nil_r. apply split_slash_plain.
    apply Forall_cons in Hs as [[_ Hsl] _]. assumption.
  - apply Forall_cons in Hs as [[_ Hsl] Hst]. simpl.
    rewrite split_slash_app by assumption. f_equal. apply IH. assumption.
Qed.

Lemma split_slash_no_slash p : Forall (fun seg => slash ∉ seg) (split_slash p).
Proof.
  induction p as [|c r IH]; simpl.
  - constructor; [apply not_elem_of_nil | constructor].
  - destruct (Ascii.eqb_spec c slash) as [->|Hc].
    + constructor; [apply not_elem_of_nil | assumption].
    + destruct (split_slash r) as [|seg segs]; [repeat constructor|].
      * rewrite elem_of_cons. intros [E|E]; [congruence | apply not_elem_of_nil in E; assumption].
      * apply Forall_cons in IH as [Hseg Hsegs]. constructor; [|assumption].
        rewrite elem_of_cons. intros [E|E]; [congruence | contradiction].
Qed.

Lemma fits_from_app pre a b :
  fits_from pre (a ++ b) <-> fits_from pre a /\ fits_from (pre ++ a) b.
Proof.
  revert pre. induction a as [|seg a IH]; intros pre; simpl.
  - rewrite app_nil_r. tauto.
  - rewrite IH, <- app_assoc. simpl. tauto.
Qed.

Lemma proper_is_segment stack : Forall proper_segment stack -> Forall segment stack.
Proof. intros Hp. eapply Forall_impl; [exact Hp|]. intros seg [Hs _]. exact Hs. Qed.

Lemma walk_proper segs : forall pre,
  Forall proper_segment segs -> fits_from pre segs -> walk pre segs = Some (pre ++ segs).
Proof.
  induction segs as [|seg segs IH]; intros pre Hp Hf.
  - simpl. rewrite app_nil_r. reflexivity.
  - apply Forall_cons in Hp as [[[Hne Hsl] [Hd Hdd]] Hp]. destruct Hf as [Hfit Hf].
    rewrite walk_push by assumption. rewrite Hfit.
    rewrite (IH _ Hp Hf), <- app_assoc. reflexivity.
Qed.

Lemma render_cons seg st :
  render (seg :: st) = slash :: seg ++ concat (map (cons slash) st).
Proof. reflexivity. Qed.

Lemma update_cwd_path_tracked stack cwd :
  tracked stack -> update_cwd_path cwd (render stack) = render stack.
Proof.
  intros [Hp Hf]. destruct stack as [|seg st].
  - reflexivity.
  - rewrite render_cons at 1. rewrite update_cwd_path_absolute.
    rewrite split_slash_segments by (apply proper_is_segment; assumption).
    rewrite (walk_proper _ [] Hp Hf). reflexivity.
Qed.

Lemma tracked_nil : tracked [].
Proof. split; [constructor | exact I]. Qed.

Lemma tracked_removelast stack : tracked stack -> tracked (removelast stack).
Proof.
  intros [Hp Hf]. destruct (decide (stack = [])) as [->|Hne]; [apply tracked_nil|].
  destruct (exists_last Hne) as (st & seg & ->). rewrite removelast_last.
  apply Forall_app in Hp as [Hp _]. apply fits_from_app in Hf as [Hf _].
  split; assumption.
Qed.

Lemma tracked_snoc stack seg :
  tracked stack -> proper_segment seg -> too_long stack seg = false ->
  tracked (stack ++ [seg]).
Proof.
  intros [Hp Hf] Hseg Hfit. split.
  - apply Forall_app. split; [assumption | constructor; [assumption | constructor]].
  - apply fits_from_app. split; [assumption|]. simpl. auto.
Qed.

Lemma walk_keeps_tracked segs : forall stack stack',
  tracked stack -> Forall (fun seg => slash ∉ seg) segs ->
  walk stack segs = Some stack' -> tracked stack'.
Proof.
  induction segs as [|seg segs IH]; intros stack stack' Ht Hs Hw.
  - injection Hw as <-. assumption.
  - apply Forall_cons in Hs as [Hsl Hs].
    destruct (decide (seg = [])) as [E0|E0];
      [rewrite walk_skip in Hw by auto; eauto|].
    destruct (decide (seg = [dot])) as [E1|E1];
      [rewrite walk_skip in Hw by auto; eauto|].
    destruct (decide (seg = [dot; dot])) as [E2|E2].
    { rewrite E2, walk_parent in Hw. eapply IH; [|eassumption|eassumption].
      apply tracked_removelast. assumption. }
    rewrite walk_push in Hw by assumption.
    destruct (too_long stack seg) eqn:Efit; [discriminate|].
    eapply IH; [|eassumption|eassumption].
    apply tracked_snoc; [assumption | | assumption].
    repeat split; assumption.
Qed.

Lemma update_cwd_path_keeps_tracked stack p :
  tracked stack ->
  update_cwd_path (render stack) p = unknown_path \/
  exists stack', tracked stack' /\ update_cwd_path (render stack) p = render stack'.
Proof.
  intros Ht.
  assert (Hgen : forall st0 segs, tracked st0 -> Forall (fun seg => slash ∉ seg) segs ->
            render_walk (walk st0 segs) = unknown_path \/
            exists stack', tracked stack' /\ render_walk (walk st0 segs) = render stack').
  { intros st0 segs Ht0 Hs. destruct (walk st0 segs) as [stack'|] eqn:Ew.
    - right. exists stack'. split; [|reflexivity]. eapply walk_keeps_tracked; eassumption.
    - left. reflexivity. }
  destruct (decide (char_at p 0 = slash)) as [E|E].
  - destruct p as [|c p]; [discriminate E|]. unfold char_at in E. simpl in E. subst c.
    rewrite update_cwd_path_absolute.
    apply Hgen; [apply tracked_nil | apply split_slash_no_slash].
  - rewrite update_cwd_path_relative
      by (try assumption; apply proper_is_segment, Ht).
    apply Hgen; [assumption | apply split_slash_no_slash].
Qed.


Lemma tracked_length stack : tracked stack -> (length (render stack) + 1 < PATH_MAX)%nat.
Proof.
  intros [Hp Hf].
  assert (Hgen : forall segs pre, Forall segment pre -> Forall segment segs ->
            fits_from pre segs -> (length (render pre) + 1 < PATH_MAX)%nat ->
            (length (render (pre ++ segs)) + 1 < PATH_MAX)%nat).
  { induction segs as [|seg segs IH]; intros pre Hpre Hsegs Hfit Hlen.
    - rewrite app_nil_r. assumption.
    - apply Forall_cons in Hsegs as [Hseg Hsegs]. destruct Hfit as [Hfit Hrest].
      replace (pre ++ seg :: segs) with ((pre ++ [seg]) ++ segs)
        by (rewrite <- app_assoc; reflexivity).
      apply IH; try assumption.
      + apply Forall_app. split; [assumption | constructor; [assumption | constructor]].
      + unfold too_long in Hfit. apply Nat.leb_gt in Hfit.
        rewrite (render_snoc _ _ Hpre), length_app.
        destruct (length (render pre) =? 1)%nat; [lia|].
        rewrite length_app. simpl. lia. }
  apply (Hgen stack []); try assumption.
  - constructor.
  - apply proper_is_segment. assumption.
  - unfold PATH_MAX. simpl. lia.
Qed.

(** * Facts about the fd layer *)

Section MxioFacts.
Context `{World}.

(** Running a sequence: the first action decides how it goes on. *)
Lemma bind_returns {A B} (m : M A) (k : A -> M B) s a s' :
  m s = Returns a s' -> (m ≫= k) s = k a s'.
Proof. intros E. unfold mbind, M_bind. rewrite E. reflexivity. Qed.

Lemma bind_undefined {A B} (m : M A) (k : A -> M B) s :
  m s = Undefined -> (m ≫= k) s = Undefined.
Proof. intros E. unfold mbind, M_bind. rewrite E. reflexivity. Qed.

(** Run the first action of the sequence in the goal; [tac] proves what
    it returns. *)
Ltac mrun tac :=
  cbv beta iota;
  match goal with
  | |- context [ (?m ≫= ?k) ?s ] => erewrite (bind_returns m k s) by tac
  end;
  cbv beta iota.

Lemma bind_out_of_fuel {A B} (m : M A) (k : A -> M B) s :
  m s = OutOfFuel -> (m ≫= k) s = OutOfFuel.
Proof. intros E. unfold mbind, M_bind. rewrite E. reflexivity. Qed.

Lemma tab_get_in fd s : in_table fd -> tab_get fd s = Returns (fdtab s !! fd) s.
Proof.
  intros [H0 H1]. unfold tab_get.
  replace (0 <=? fd) with true by (symmetry; apply Z.leb_le; lia).
  replace (fd <? MAX_MXIO_FD) with true by (symmetry; apply Z.ltb_lt; lia).
  reflexivity.
Qed.

Lemma tab_get_out fd s : ~ in_table fd -> tab_get fd s = Undefined.
Proof.
  intros Hn. unfold tab_get, in_table in *.
  destruct (0 <=? fd) eqn:E0; [|reflexivity].
  destruct (fd <? MAX_MXIO_FD) eqn:E1; [|reflexivity].
  apply Z.leb_le in E0. apply Z.ltb_lt in E1. lia.
Qed.

Lemma tab_set_in fd io s :
  in_table fd ->
  tab_set fd io s =
  Returns tt (set_fdtab (match io with Some p => <[fd := p]> | None => delete fd end) s).
Proof.
  intros [H0 H1]. unfold tab_set.
  replace (0 <=? fd) with true by (symmetry; apply Z.leb_le; lia).
  replace (fd <? MAX_MXIO_FD) with true by (symmetry; apply Z.ltb_lt; lia).
  reflexivity.
Qed.

Lemma deref_live io o s : objs s !! io = Some o -> deref io s = Returns o s.
Proof. intros E. unfold deref. rewrite E. reflexivity. Qed.

Lemma fd_to_io_bad fd s : bad_fd s fd -> __mxio_fd_to_io fd s = Returns None s.
Proof.
  intros Hb. unfold __mxio_fd_to_io.
  destruct (fd <? 0) eqn:E0; [reflexivity|].
  destruct (fd >=? MAX_MXIO_FD) eqn:E1; [reflexivity|].
  apply Z.ltb_ge in E0. rewrite Z.geb_leb in E1. apply Z.leb_gt in E1.
  destruct Hb as [Hb|[Hb|Hb]]; try lia.
  simpl. erewrite bind_returns by (apply tab_get_in; split; lia).
  rewrite Hb. reflexivity.
Qed.


Lemma fd_to_io_bound fd p o s :
  in_table fd -> fdtab s !! fd = Some p -> objs s !! p = Some o ->
  __mxio_fd_to_io fd s = Returns (Some p) (set_objs <[p := acquired o]> s).
Proof.
  intros Hin Hfd Hp. unfold __mxio_fd_to_io.
  replace ((fd <? 0) || (fd >=? MAX_MXIO_FD)) with false.
  2:{ symmetry. apply orb_false_intro; [apply Z.ltb_ge | rewrite Z.geb_leb; apply Z.leb_gt];
      unfold in_table in Hin; lia. }
  erewrite bind_returns by (apply tab_get_in; assumption).
  rewrite Hfd. unfold mxio_acquire.
  erewrite bind_returns by (erewrite bind_returns by (apply deref_live; eassumption); reflexivity).
  reflexivity.
Qed.

(** *** mxio_unbind_from_fd *)

Lemma unbind_out_of_range_high fd s :
  MAX_MXIO_FD <= fd -> mxio_unbind_from_fd fd s = Returns (Err ERR_INVALID_ARGS, None) s.
Proof.
  intros Hfd. unfold mxio_unbind_from_fd.
  replace (fd >=? MAX_MXIO_FD) with true; [reflexivity|].
  symmetry. rewrite Z.geb_leb. apply Z.leb_le. assumption.
Qed.

Lemma unbind_prefix fd s :
  in_table fd ->
  mxio_unbind_from_fd fd s =
  match fdtab s !! fd with
  | None => Returns (Err ERR_INVALID_ARGS, None) s
  | Some p =>
      match objs s !! p with
      | None => Undefined
      | Some o =>
          if dupcount o >? 1 then Returns (Err ERR_UNAVAILABLE, None) s
          else if refcount o >? 1 then Returns (Err ERR_UNAVAILABLE, None) s
          else Returns (NO_ERROR, Some p)
                 (set_fdtab (delete fd) (set_objs <[p := with_dupcount o 0]> s))
      end
  end.
Proof.
  intros Hin. unfold mxio_unbind_from_fd.
  replace (fd >=? MAX_MXIO_FD) with false
    by (symmetry; rewrite Z.geb_leb; apply Z.leb_gt; unfold in_table in Hin; lia).
  erewrite bind_returns by (apply tab_get_in; assumption).
  destruct (fdtab s !! fd) as [p|]; [|reflexivity].
  destruct (objs s !! p) as [o|] eqn:Ep.
  - erewrite bind_returns by (apply deref_live; eassumption).
    destruct (dupcount o >? 1); [reflexivity|].
    destruct (refcount o >? 1); [reflexivity|].
    unfold set_dupcount.
    erewrite bind_returns
      by (erewrite bind_returns by (apply deref_live; eassumption); reflexivity).
    erewrite bind_returns by (apply tab_set_in; assumption).
    reflexivity.
  - apply bind_undefined. unfold deref. rewrite Ep. reflexivity.
Qed.

Lemma unbind_unbound fd s :
  in_table fd -> fdtab s !! fd = None ->
  mxio_unbind_from_fd fd s = Returns (Err ERR_INVALID_ARGS, None) s.
Proof. intros Hin Hfd. rewrite unbind_prefix, Hfd by assumption. reflexivity. Qed.

Lemma unbind_unavailable fd p o s :
  in_table fd -> fdtab s !! fd = Some p -> objs s !! p = Some o ->
  1 < dupcount o \/ 1 < refcount o ->
  mxio_unbind_from_fd fd s = Returns (Err ERR_UNAVAILABLE, None) s.
Proof.
  intros Hin Hfd Hp Hbusy. rewrite unbind_prefix, Hfd, Hp by assumption.
  destruct (dupcount o >? 1) eqn:Ed; [reflexivity|].
  destruct (refcount o >? 1) eqn:Er; [reflexivity|].
  rewrite Z.gtb_ltb in Ed, Er. apply Z.ltb_ge in Ed, Er. lia.
Qed.

Lemma unbind_sole_reference fd p o s :
  in_table fd -> fdtab s !! fd = Some p -> objs s !! p = Some o ->
  dupcount o = 1 -> refcount o = 1 ->
  mxio_unbind_from_fd fd s =
  Returns (NO_ERROR, Some p)
          (set_fdtab (delete fd) (set_objs <[p := with_dupcount o 0]> s)).
Proof.
  intros Hin Hfd Hp Hd Hr. rewrite unbind_prefix, Hfd, Hp, Hd, Hr by assumption.
  reflexivity.
Qed.

Lemma unbind_negative fd s : fd < 0 -> mxio_unbind_from_fd fd s = Undefined.
Proof.
  intros Hfd. unfold mxio_unbind_from_fd.
  replace (fd >=? MAX_MXIO_FD) with false
    by (symmetry; rewrite Z.geb_leb; apply Z.leb_gt; unfold MAX_MXIO_FD; lia).
  apply bind_undefined, tab_get_out. unfold in_table. lia.
Qed.


(** *** mxio_bind_to_fd *)

Lemma find_free_fd_scan n : forall fd s,
  0 <= fd -> fd + Z.of_nat n <= MAX_MXIO_FD ->
  (exists k, fd <= k < fd + Z.of_nat n /\ fdtab s !! k = None /\
             (forall j, fd <= j < k -> fdtab s !! j <> None) /\
             find_free_fd n fd s = Returns (Some k) s)
  \/ ((forall j, fd <= j < fd + Z.of_nat n -> fdtab s !! j <> None) /\
      find_free_fd n fd s = Returns None s).
Proof.
  induction n as [|n IH]; intros fd s H0 Hn.
  - right. split; [intros j Hj; lia | reflexivity].
  - cbn [find_free_fd].
    erewrite bind_returns by (apply tab_get_in; unfold in_table; lia).
    destruct (fdtab s !! fd) as [p|] eqn:Efd.
    + destruct (IH (fd + 1) s ltac:(lia) ltac:(lia)) as [(k & Hk & Hfree & Hlow & ->)|[Hall ->]].
      * left. exists k. split; [lia|]. split; [assumption|]. split; [|reflexivity].
        intros j Hj. destruct (decide (j = fd)) as [->|Hne]; [congruence|].
        apply Hlow. lia.
      * right. split; [|reflexivity].
        intros j Hj. destruct (decide (j = fd)) as [->|Hne]; [congruence|].
        apply Hall. lia.
    + left. exists fd. split; [lia|]. split; [assumption|]. split; [|reflexivity].
      intros j Hj. lia.
Qed.

Lemma bind_install_free io o k s :
  in_table k -> objs s !! io = Some o ->
  bind_install io k None s = Returns k (installed s io o k).
Proof.
  intros Hin Hio. unfold bind_install.
  erewrite bind_returns by (apply deref_live; eassumption).
  unfold set_dupcount.
  erewrite bind_returns
    by (erewrite bind_returns by (apply deref_live; eassumption); reflexivity).
  erewrite bind_returns by (apply tab_set_in; assumption).
  reflexivity.
Qed.

Lemma bind_any_scan io fd lo s :
  fd < 0 ->
  mxio_bind_to_fd io fd lo s =
  (r ← find_free_fd (Z.to_nat (MAX_MXIO_FD - lo)) lo;
   match r with
   | Some fd' => bind_install io fd' None
   | None => ERRNO EMFILE
   end) s.
Proof.
  intros Hfd. unfold mxio_bind_to_fd.
  replace (fd <? 0) with true by (symmetry; apply Z.ltb_lt; assumption).
  reflexivity.
Qed.

Lemma bind_any_lowest io o fd lo k s :
  fd < 0 -> 0 <= lo -> objs s !! io = Some o -> lowest_free s lo k ->
  mxio_bind_to_fd io fd lo s = Returns k (installed s io o k).
Proof.
  intros Hfd Hlo Hio (Hk & Hfree & Hlow). rewrite bind_any_scan by assumption.
  destruct (find_free_fd_scan (Z.to_nat (MAX_MXIO_FD - lo)) lo s Hlo ltac:(lia))
    as [(k' & Hk' & Hfree' & Hlow' & Hscan)|[Hall _]].
  - assert (k' = k).
    { destruct (Z.lt_trichotomy k' k) as [Hlt|[Heq|Hgt]]; [|assumption|].
      - exfalso. apply (Hlow k'); [lia | assumption].
      - exfalso. apply (Hlow' k); [lia | assumption]. }
    subst k'. erewrite bind_returns by exact Hscan.
    apply bind_install_free; [unfold in_table; lia | assumption].
  - exfalso. apply (Hall k); [lia | assumption].
Qed.

Lemma bind_any_full io fd lo s :
  fd < 0 -> 0 <= lo ->
  (forall j, lo <= j < MAX_MXIO_FD -> fdtab s !! j <> None) ->
  mxio_bind_to_fd io fd lo s = Returns (-1) (set_errno EMFILE s).
Proof.
  intros Hfd Hlo Hfull. rewrite bind_any_scan by assumption.
  destruct (Z_le_gt_dec MAX_MXIO_FD lo) as [Hge|Hlt].
  - replace (Z.to_nat (MAX_MXIO_FD - lo)) with O by lia. reflexivity.
  - destruct (find_free_fd_scan (Z.to_nat (MAX_MXIO_FD - lo)) lo s Hlo ltac:(lia))
      as [(k & Hk & Hfree & _ & _)|[_ Hscan]].
    + exfalso. apply (Hfull k); [lia | assumption].
    + erewrite bind_returns by exact Hscan. reflexivity.
Qed.

Lemma bind_too_high io fd lo s :
  MAX_MXIO_FD <= fd -> mxio_bind_to_fd io fd lo s = Returns (-1) (set_errno EINVAL s).
Proof.
  intros Hfd. unfold mxio_bind_to_fd.
  replace (fd <? 0) with false by (symmetry; apply Z.ltb_ge; unfold MAX_MXIO_FD in *; lia).
  replace (fd >=? MAX_MXIO_FD) with true
    by (symmetry; rewrite Z.geb_leb; apply Z.leb_le; assumption).
  reflexivity.
Qed.

(** A scan that starts below the table reads [mxio_fdtab] out of
    bounds. *)
Lemma bind_any_negative_start io fd lo s :
  fd < 0 -> lo < 0 -> mxio_bind_to_fd io fd lo s = Undefined.
Proof.
  intros Hfd Hlo. rewrite bind_any_scan by assumption.
  apply bind_undefined.
  destruct (Z.to_nat (MAX_MXIO_FD - lo)) as [|n] eqn:En;
    [unfold MAX_MXIO_FD in En; lia|].
  cbn [find_free_fd]. apply bind_undefined, tab_get_out. unfold in_table. lia.
Qed.

(** *** The tests made before any lookup *)

Lemma null_buffer s fd count ofs fuel :
  read fuel fd None count s = Returns (-1) (set_errno EINVAL s) /\
  write fuel fd None count s = Returns (-1) (set_errno EINVAL s) /\
  pread fuel fd None count ofs s = Returns (-1) (set_errno EINVAL s) /\
  pwrite fuel fd None count ofs s = Returns (-1) (set_errno EINVAL s).
Proof. repeat split. Qed.

Lemma land_bit_nonzero x b : 0 < b -> Z.land x b = b -> (Z.land x b =? 0) = false.
Proof. intros Hb E. rewrite E. apply Z.eqb_neq. lia. Qed.

Lemma vopenat_creat_directory s dirfd path oflags mode :
  Z.land oflags O_CREAT = O_CREAT -> Z.land oflags O_DIRECTORY = O_DIRECTORY ->
  vopenat dirfd path oflags mode s = Returns (-1) (set_errno EINVAL s).
Proof.
  intros Hc Hd. unfold vopenat.
  rewrite (land_bit_nonzero oflags O_CREAT eq_refl Hc),
    (land_bit_nonzero oflags O_DIRECTORY eq_refl Hd).
  reflexivity.
Qed.

(** *** Operations on an fd that names no object *)

Lemma blocking_io_bad fuel fd op evt s :
  bad_fd s fd -> blocking_io fuel fd op evt s = Returns (-1) (set_errno EBADF s).
Proof.
  intros Hb. unfold blocking_io.
  erewrite bind_returns by (apply fd_to_io_bad; assumption). reflexivity.
Qed.

Lemma close_bad fd s : bad_fd s fd -> close fd s = Returns (-1) (set_errno EBADF s).
Proof.
  intros Hb. unfold close. erewrite bind_returns by reflexivity.
  replace ((fd <? 0) || (fd >=? MAX_MXIO_FD) || bool_decide (fdtab s !! fd = None))
    with true; [reflexivity|].
  symmetry. destruct Hb as [Hb|[Hb|Hb]].
  - replace (fd <? 0) with true by (symmetry; apply Z.ltb_lt; assumption). reflexivity.
  - replace (fd >=? MAX_MXIO_FD) with true
      by (symmetry; rewrite Z.geb_leb; apply Z.leb_le; assumption).
    apply orb_true_intro. left. apply orb_true_r.
  - rewrite bool_decide_eq_true_2 by assumption. apply orb_true_r.
Qed.

Lemma mxio_dup_bad oldfd newfd lo s :
  bad_fd s oldfd -> mxio_dup oldfd newfd lo s = Returns (-1) (set_errno EBADF s).
Proof.
  intros Hb. unfold mxio_dup.
  erewrite bind_returns by (apply fd_to_io_bad; assumption). reflexivity.
Qed.

Lemma fcntl_bad fd cmd arg s :
  bad_fd s fd -> fcntl_uses_fd cmd ->
  fcntl fd cmd arg s = Returns (-1) (set_errno EBADF s).
Proof.
  intros Hb Hc. destruct cmd; try contradiction; unfold fcntl;
    try (apply mxio_dup_bad; assumption);
    (erewrite bind_returns by (apply fd_to_io_bad; assumption); reflexivity).
Qed.

Lemma fd_op_bad fd s :
  bad_fd s fd ->
  (forall offset whence, lseek fd offset whence s = Returns (-1) (set_errno EBADF s)) /\
  (forall len, ftruncate fd len s = Returns (-1) (set_errno EBADF s)) /\
  fsync fd s = Returns (-1) (set_errno EBADF s) /\
  fstat fd s = Returns (-1) (set_errno EBADF s) /\
  (forall req ap, ioctl fd req ap s = Returns (-1) (set_errno EBADF s)).
Proof.
  intros Hb. unfold lseek, ftruncate, fsync, fstat, ioctl.
  repeat split; intros;
    (erewrite bind_returns by (apply fd_to_io_bad; assumption); reflexivity).
Qed.

Lemma futimens_bad fd times s : bad_fd s fd -> futimens fd times s = Undefined.
Proof.
  intros Hb. unfold futimens.
  erewrite bind_returns by (apply fd_to_io_bad; assumption).
  apply bind_undefined. unfold mx_utimens.
  destruct times as [[t0 t1]|]; [destruct (tv_nsec t1 =? UTIME_NOW)|];
    unfold mbind, M_bind, extern; simpl;
    try destruct (mx_time_get (world s)); reflexivity.
Qed.


(** *** An answer stored in an mx_status_t *)

Lemma to_int32_small x : 0 <= x < 2 ^ 31 -> to_int32 x = x.
Proof. intros Hx. unfold to_int32. rewrite Z.mod_small by lia. lia. Qed.

Lemma to_int32_wide x : 2 ^ 31 <= x < 2 ^ 32 -> to_int32 x = x - 2 ^ 32.
Proof.
  intros Hx. unfold to_int32.
  replace (x + 2 ^ 31) with (x - 2 ^ 31 + 1 * 2 ^ 32) by lia.
  rewrite Z.mod_add by lia. rewrite Z.mod_small by lia. lia.
Qed.

Lemma to_mx_status_small n : (n < 2 ^ 31)%N -> to_mx_status (Ok n) = Ok n.
Proof.
  intros Hn. unfold to_mx_status. cbv zeta.
  rewrite to_int32_small by lia.
  replace (Z.of_N n <? 0) with false by (symmetry; apply Z.ltb_ge; lia).
  rewrite N2Z.id. reflexivity.
Qed.

Lemma to_mx_status_wide n :
  (2 ^ 31 <= n < 2 ^ 32)%N ->
  to_mx_status (Ok n) = Err (status_code (Z.of_N n - 2 ^ 32)).
Proof.
  intros Hn. unfold to_mx_status. cbv zeta.
  rewrite to_int32_wide by lia.
  replace (Z.of_N n - 2 ^ 32 <? 0) with true by (symmetry; apply Z.ltb_lt; lia).
  reflexivity.
Qed.

(** *** The retry loop of read, write, pread and pwrite *)

Lemma extern_returns {A} c (f : W -> A * W) s :
  extern c f s = Returns (f (world s)).1 (set_world c (f (world s)).2 s).
Proof. unfold extern. destruct (f (world s)). reflexivity. Qed.

Lemma op_call_live {A} p o c (f : W -> A * W) s :
  objs s !! p = Some o ->
  op_call p c f s = Returns (f (world s)).1 (set_world c (f (world s)).2 s).
Proof.
  intros Hp. unfold op_call.
  erewrite bind_returns by (apply deref_live; eassumption).
  apply extern_returns.
Qed.

Lemma restore_objs s p o o' :
  objs s !! p = Some o -> set_objs <[p := o]> (set_objs <[p := o']> s) = s.
Proof.
  intros Hp. destruct s as [tab ob rt cw cp er wo ca]. simpl in *.
  unfold set_objs. simpl. f_equal.
  rewrite insert_insert_eq. apply insert_id. assumption.
Qed.

Lemma release_acquired p o s :
  objs s !! p = Some (acquired o) -> 1 <= refcount o ->
  mxio_release p s = Returns tt (set_objs <[p := o]> s).
Proof.
  intros Hp Hr. unfold mxio_release.
  erewrite bind_returns by (apply deref_live; eassumption).
  replace (refcount (acquired o) =? 1) with false
    by (symmetry; apply Z.eqb_neq; simpl; lia).
  unfold store, modify. do 2 f_equal. f_equal.
  destruct o as [fl rc dc]. unfold acquired. simpl. f_equal. lia.
Qed.

Lemma mxio_wait_fd_bound fd p o evt s :
  in_table fd -> fdtab s !! fd = Some p -> objs s !! p = Some o -> 1 <= refcount o ->
  match mxio_wait_fd fd evt MX_TIME_INFINITE s with
  | Returns _ s' => s' = wait_round p evt s
  | _ => False
  end.
Proof.
  intros Hin Hfd Hp Hr. unfold mxio_wait_fd, wait_round.
  mrun ltac:(eapply fd_to_io_bound; eassumption).
  set (s1 := set_objs <[p := acquired o]> s).
  assert (Hp1 : objs s1 !! p = Some (acquired o)) by apply lookup_insert_eq.
  mrun ltac:(apply deref_live; exact Hp1).
  destruct (ops_wait_begin p evt) as [h signals]. simpl.
  destruct (h =? MX_HANDLE_INVALID).
  - mrun ltac:(apply release_acquired; eassumption).
    unfold s1. rewrite (restore_objs _ _ _ _ Hp). reflexivity.
  - mrun ltac:(apply extern_returns).
    change (world s1) with (world s).
    destruct (mx_object_wait_one h signals MX_TIME_INFINITE (world s)) as [[r pending] w].
    simpl.
    assert (Hrel : forall c,
      mxio_release p (set_world c w s1) = Returns tt (set_world c w s)).
    { intros c. erewrite release_acquired by (try exact Hp1; assumption).
      f_equal. change (set_objs <[p:=o]> (set_world c w s1))
        with (set_world c w (set_objs <[p:=o]> s1)).
      unfold s1. rewrite (restore_objs _ _ _ _ Hp). reflexivity. }
    destruct (is_err r && negb (bool_decide (r = Err ERR_TIMED_OUT))).
    + mrun ltac:(apply Hrel). reflexivity.
    + mrun ltac:(apply deref_live; exact Hp1).
      mrun ltac:(apply Hrel). reflexivity.
Qed.

Lemma loop_ready_round fd p c f evt s :
  loop_ready fd p s -> loop_ready fd p (wait_round p evt (try_round c f s)).
Proof.
  intros Hl. unfold wait_round.
  destruct ((ops_wait_begin p evt).1 =? MX_HANDLE_INVALID); exact Hl.
Qed.

Lemma retry_loop_done fuel fd p o c f evt s :
  objs s !! p = Some o -> stored_status f s <> Err ERR_SHOULD_WAIT ->
  retry_loop (S fuel) p fd (op_call p c f) evt s
  = Returns (stored_status f s) (try_round c f s).
Proof.
  intros Hp Hst. cbn [retry_loop].
  erewrite bind_returns by (eapply op_call_live; eassumption).
  fold (try_status f s). fold (stored_status f s).
  destruct (decide (stored_status f s = Err ERR_SHOULD_WAIT));
    [contradiction | reflexivity].
Qed.

Lemma retry_loop_nonblock fuel fd p o c f evt s :
  objs s !! p = Some o -> Z.land (flags o) MXIO_FLAG_NONBLOCK <> 0 ->
  retry_loop (S fuel) p fd (op_call p c f) evt s
  = Returns (stored_status f s) (try_round c f s).
Proof.
  intros Hp Hnb. cbn [retry_loop].
  erewrite bind_returns by (eapply op_call_live; eassumption).
  fold (try_status f s). fold (stored_status f s).
  destruct (decide (stored_status f s = Err ERR_SHOULD_WAIT));
    [|reflexivity].
  erewrite bind_returns by (apply deref_live; exact Hp).
  replace (Z.land (flags o) MXIO_FLAG_NONBLOCK =? 0) with false
    by (symmetry; apply Z.eqb_neq; assumption).
  reflexivity.
Qed.

Lemma retry_loop_wait fuel fd p c f evt s :
  loop_ready fd p s -> stored_status f s = Err ERR_SHOULD_WAIT ->
  retry_loop (S fuel) p fd (op_call p c f) evt s
  = retry_loop fuel p fd (op_call p c f) evt (wait_round p evt (try_round c f s)).
Proof.
  intros (Hin & Hfd & o & Hp & Hr & Hnb) Hst. cbn [retry_loop].
  erewrite bind_returns by (eapply op_call_live; eassumption).
  fold (try_status f s). fold (stored_status f s). rewrite Hst.
  destruct (decide (Err ERR_SHOULD_WAIT = Err ERR_SHOULD_WAIT)); [|congruence].
  erewrite bind_returns by (apply deref_live; exact Hp).
  rewrite Hnb. change (0 =? 0) with true. cbv iota.
  pose proof (mxio_wait_fd_bound fd p o evt (try_round c f s) Hin Hfd Hp Hr) as Hw.
  destruct (mxio_wait_fd fd evt MX_TIME_INFINITE (try_round c f s)) as [r s'| |] eqn:Ew;
    try contradiction.
  subst s'. erewrite bind_returns by exact Ew. reflexivity.
Qed.

Lemma retry_loop_rounds k : forall fuel fd p c f evt s,
  loop_ready fd p s ->
  (forall j, (j < k)%nat -> stored_status f (rounds j c f p evt s) = Err ERR_SHOULD_WAIT) ->
  retry_loop (k + fuel) p fd (op_call p c f) evt s
  = retry_loop fuel p fd (op_call p c f) evt (rounds k c f p evt s).
Proof.
  induction k as [|k IH]; intros fuel fd p c f evt s Hl Hw; [reflexivity|].
  change (S k + fuel)%nat with (S (k + fuel)).
  rewrite retry_loop_wait by (try assumption; apply (Hw O); lia).
  cbn [rounds]. apply IH; [apply loop_ready_round; assumption|].
  intros j Hj. apply (Hw (S j)). lia.
Qed.

Lemma rounds_set_objs k g : forall c f p evt s,
  rounds k c f p evt (set_objs g s) = set_objs g (rounds k c f p evt s).
Proof.
  induction k as [|k IH]; intros c f p evt s; [reflexivity|].
  cbn [rounds]. rewrite <- IH. f_equal.
  unfold wait_round. destruct ((ops_wait_begin p evt).1 =? MX_HANDLE_INVALID); reflexivity.
Qed.

Lemma rounds_objs k : forall c f p evt s, objs (rounds k c f p evt s) = objs s.
Proof.
  induction k as [|k IH]; intros c f p evt s; [reflexivity|].
  cbn [rounds]. rewrite IH. unfold wait_round.
  destruct ((ops_wait_begin p evt).1 =? MX_HANDLE_INVALID); reflexivity.
Qed.

Lemma loop_ready_acquired fd p o s :
  in_table fd -> fdtab s !! fd = Some p -> objs s !! p = Some o -> 1 <= refcount o ->
  Z.land (flags o) MXIO_FLAG_NONBLOCK = 0 ->
  loop_ready fd p (set_objs <[p := acquired o]> s).
Proof.
  intros Hin Hfd Hp Hr Hnb. split; [assumption|]. split; [assumption|].
  exists (acquired o). split; [apply lookup_insert_eq|]. split; [simpl; lia | assumption].
Qed.

(** The blocking case: [k] tries find the transport not ready, the next
    one yields [st]. *)
Lemma blocking_io_blocks fd p o c f evt s k :
  in_table fd -> fdtab s !! fd = Some p -> objs s !! p = Some o -> 1 <= refcount o ->
  Z.land (flags o) MXIO_FLAG_NONBLOCK = 0 ->
  (forall j, (j < k)%nat ->
     stored_status (f p) (rounds j (c p) (f p) p evt s) = Err ERR_SHOULD_WAIT) ->
  stored_status (f p) (rounds k (c p) (f p) p evt s) <> Err ERR_SHOULD_WAIT ->
  forall fuel,
    ((k < fuel)%nat ->
     blocking_io fuel fd (fun q => op_call q (c q) (f q)) evt s
     = STATUS (stored_status (f p) (rounds k (c p) (f p) p evt s))
              (try_round (c p) (f p) (rounds k (c p) (f p) p evt s))) /\
    ((fuel <= k)%nat ->
     blocking_io fuel fd (fun q => op_call q (c q) (f q)) evt s = OutOfFuel).
Proof.
  intros Hin Hfd Hp Hr Hnb Hwait Hdone fuel.
  set (s1 := set_objs <[p := acquired o]> s).
  assert (Hl : loop_ready fd p s1) by (apply loop_ready_acquired; assumption).
  assert (Hst : forall j, stored_status (f p) (rounds j (c p) (f p) p evt s1)
                          = stored_status (f p) (rounds j (c p) (f p) p evt s)).
  { intros j. unfold s1. rewrite rounds_set_objs. reflexivity. }
  unfold blocking_io.
  erewrite bind_returns by (eapply fd_to_io_bound; eassumption). fold s1.
  split; intros Hfuel.
  - replace fuel with (k + S (fuel - S k))%nat by lia.
    erewrite bind_returns.
    2:{ rewrite retry_loop_rounds by (try assumption; intros j Hj; rewrite Hst; auto).
        eapply retry_loop_done.
        - rewrite rounds_objs. apply lookup_insert_eq.
        - rewrite Hst. assumption. }
    rewrite Hst. unfold s1. rewrite rounds_set_objs.
    erewrite bind_returns.
    2:{ apply release_acquired; [|eassumption]. simpl. apply lookup_insert_eq. }
    f_equal. change (try_round (c p) (f p) (set_objs <[p:=acquired o]> ?x))
      with (set_objs <[p:=acquired o]> (try_round (c p) (f p) x)).
    apply restore_objs. simpl. rewrite rounds_objs. assumption.
  - apply bind_out_of_fuel.
    replace fuel with (fuel + 0)%nat by lia.
    rewrite retry_loop_rounds; [reflexivity | assumption |].
    intros j Hj. rewrite Hst. apply Hwait. lia.
Qed.

(** The transport never becomes ready: the loop never ends. *)
Lemma blocking_io_forever fd p o c f evt s :
  in_table fd -> fdtab s !! fd = Some p -> objs s !! p = Some o -> 1 <= refcount o ->
  Z.land (flags o) MXIO_FLAG_NONBLOCK = 0 ->
  (forall j, stored_status (f p) (rounds j (c p) (f p) p evt s) = Err ERR_SHOULD_WAIT) ->
  forall fuel, blocking_io fuel fd (fun q => op_call q (c q) (f q)) evt s = OutOfFuel.
Proof.
  intros Hin Hfd Hp Hr Hnb Hwait fuel.
  set (s1 := set_objs <[p := acquired o]> s).
  assert (Hl : loop_ready fd p s1) by (apply loop_ready_acquired; assumption).
  unfold blocking_io.
  erewrite bind_returns by (eapply fd_to_io_bound; eassumption). fold s1.
  apply bind_out_of_fuel.
  replace fuel with (fuel + 0)%nat by lia.
  rewrite retry_loop_rounds; [reflexivity | assumption |].
  intros j Hj. unfold s1. rewrite rounds_set_objs. apply Hwait.
Qed.

(** The non-blocking case: one try, whatever it yields. *)
Lemma blocking_io_nonblock fd p o c f evt s fuel :
  in_table fd -> fdtab s !! fd = Some p -> objs s !! p = Some o -> 1 <= refcount o ->
  Z.land (flags o) MXIO_FLAG_NONBLOCK <> 0 ->
  blocking_io (S fuel) fd (fun q => op_call q (c q) (f q)) evt s
  = STATUS (stored_status (f p) s) (try_round (c p) (f p) s).
Proof.
  intros Hin Hfd Hp Hr Hnb.
  set (s1 := set_objs <[p := acquired o]> s).
  unfold blocking_io.
  mrun ltac:(eapply fd_to_io_bound; eassumption). fold s1.
  mrun ltac:(eapply retry_loop_nonblock; [apply lookup_insert_eq | exact Hnb]).
  mrun ltac:(apply release_acquired; [simpl; apply lookup_insert_eq | eassumption]).
  f_equal. change (try_round (c p) (f p) s1)
    with (set_objs <[p:=acquired o]> (try_round (c p) (f p) s)).
  apply restore_objs. assumption.
Qed.

(** *** chdir and getcwd *)

Lemma bind_inv {A B} (m : M A) (k : A -> M B) s b s' :
  (m ≫= k) s = Returns b s' ->
  exists a s1, m s = Returns a s1 /\ k a s1 = Returns b s'.
Proof.
  unfold mbind, M_bind. destruct (m s) as [a s1| |]; try discriminate. eauto.
Qed.

Lemma keeps_bind {A B} (m : M A) (k : A -> M B) :
  keeps_cwd m -> (forall a, keeps_cwd (k a)) -> keeps_cwd (m ≫= k).
Proof.
  intros Hm Hk s b s' E. apply bind_inv in E as (a & s1 & E1 & E2).
  rewrite (Hk _ _ _ _ E2). eapply Hm. eassumption.
Qed.

Lemma keeps_ret {A} (a : A) : keeps_cwd (mret a).
Proof. intros s b s' [= _ <-]. reflexivity. Qed.

Lemma keeps_undefined {A} : keeps_cwd (@undefined _ A).
Proof. intros s b s' E. discriminate E. Qed.

Lemma keeps_get : keeps_cwd get.
Proof. intros s b s' [= _ <-]. reflexivity. Qed.

Lemma keeps_modify g : (forall s, cwd_path (g s) = cwd_path s) -> keeps_cwd (modify g).
Proof. intros Hg s b s' [= _ <-]. apply Hg. Qed.

Lemma keeps_deref io : keeps_cwd (deref io).
Proof.
  intros s b s' E. unfold deref in E. destruct (objs s !! io); [|discriminate].
  injection E as _ <-. reflexivity.
Qed.

Lemma keeps_extern {A} c (f : W -> A * W) : keeps_cwd (extern c f).
Proof. intros s b s' E. rewrite extern_returns in E. injection E as _ <-. reflexivity. Qed.

Lemma keeps_tab_get fd : keeps_cwd (tab_get fd).
Proof.
  intros s b s' E. unfold tab_get in E.
  destruct ((0 <=? fd) && (fd <? MAX_MXIO_FD)); [|discriminate].
  injection E as _ <-. reflexivity.
Qed.

Lemma keeps_store io o : keeps_cwd (store io o).
Proof. apply keeps_modify. reflexivity. Qed.

Lemma keeps_acquire io : keeps_cwd (mxio_acquire io).
Proof. apply keeps_bind; [apply keeps_deref | intros; apply keeps_store]. Qed.

Lemma keeps_release io : keeps_cwd (mxio_release io).
Proof.
  apply keeps_bind; [apply keeps_deref|]. intros o.
  destruct (refcount o =? 1); [apply keeps_modify; reflexivity | apply keeps_store].
Qed.

Lemma keeps_op_call {A} io c (f : W -> A * W) : keeps_cwd (op_call io c f).
Proof. apply keeps_bind; [apply keeps_deref | intros; apply keeps_extern]. Qed.

Lemma keeps_ERRNO e : keeps_cwd (ERRNO e).
Proof. apply keeps_bind; [apply keeps_modify; reflexivity | intros; apply keeps_ret]. Qed.

Lemma keeps_STATUS r : keeps_cwd (STATUS r).
Proof. destruct r; [apply keeps_ret | apply keeps_ERRNO]. Qed.

Lemma keeps_iodir path dirfd : keeps_cwd (mxio_iodir path dirfd).
Proof.
  unfold mxio_iodir. apply keeps_bind.
  - destruct (Ascii.eqb (char_at path 0) slash).
    { apply keeps_bind; [apply keeps_get | intros; apply keeps_ret]. }
    destruct (dirfd =? AT_FDCWD).
    { apply keeps_bind; [apply keeps_get | intros; apply keeps_ret]. }
    destruct ((0 <=? dirfd) && (dirfd <? MAX_MXIO_FD)); [|apply keeps_ret].
    apply keeps_bind; [apply keeps_tab_get | intros; apply keeps_ret].
  - intros [[d|] path']; [|apply keeps_ret].
    apply keeps_bind; [apply keeps_acquire | intros; apply keeps_ret].
Qed.

Lemma keeps_open_at dirfd path oflags mode :
  keeps_cwd (__mxio_open_at dirfd path oflags mode).
Proof.
  unfold __mxio_open_at. destruct path as [p|]; [|apply keeps_ret].
  destruct (Ascii.eqb (char_at p 0) NUL); [apply keeps_ret|].
  apply keeps_bind; [apply keeps_iodir|]. intros [[d|] p']; [|apply keeps_ret].
  apply keeps_bind; [apply keeps_get|]. intros s0.
  apply keeps_bind; [apply keeps_op_call|]. intros [r fl].
  apply keeps_bind.
  - destruct (is_err r); [apply keeps_ret|].
    apply keeps_bind; [apply keeps_store | intros; apply keeps_ret].
  - intros io. apply keeps_bind; [apply keeps_release | intros; apply keeps_ret].
Qed.

Lemma STATUS_err_result r s a s' :
  is_err r = true -> STATUS r s = Returns a s' -> a = -1 /\ cwd_path s' = cwd_path s.
Proof.
  intros Hr E. destruct r as [n|e]; [discriminate|].
  injection E as <- <-. split; reflexivity.
Qed.

(** [chdir] either fails and leaves the path string, or succeeds and
    stores the normalized path. *)
Lemma chdir_cwd_path p s r s' :
  chdir (Some p) s = Returns r s' ->
  (r = 0 /\ cwd_path s' = update_cwd_path (cwd_path s) p) \/
  (r = -1 /\ cwd_path s' = cwd_path s).
Proof.
  unfold chdir. intros E.
  apply bind_inv in E as ([st io] & s1 & Eopen & E).
  unfold __mxio_open in Eopen. apply keeps_open_at in Eopen.
  destruct (is_err st) eqn:Est.
  - right. rewrite <- Eopen. eapply STATUS_err_result; eassumption.
  - destruct io as [new|]; [|discriminate E]. left.
    apply bind_inv in E as ([] & s2 & [= <-] & E).
    apply bind_inv in E as (s3 & s4 & [= <- <-] & E).
    destruct (cwd_handle (set_cwd_path (update_cwd_path (cwd_path s1) p) s1))
      as [old|]; [|discriminate E].
    apply bind_inv in E as ([] & s5 & [= <-] & E).
    apply bind_inv in E as (r5 & s6 & E5 & E).
    apply bind_inv in E as ([] & s7 & E6 & [= <- <-]).
    apply keeps_op_call in E5. apply keeps_release in E6.
    split; [reflexivity|]. rewrite E6, E5, <- Eopen. reflexivity.
Qed.

Lemma getcwd_alloc size s :
  Z.of_nat (length (cwd_path s)) + 1 < Z.of_nat PATH_MAX ->
  getcwd None size s = Returns (Some (cwd_path s)) s.
Proof.
  intros Hlen. unfold getcwd. mrun ltac:(reflexivity).
  replace (Z.of_nat (length (cwd_path s)) + 1 <? Z.of_nat PATH_MAX) with true
    by (symmetry; apply Z.ltb_lt; assumption).
  reflexivity.
Qed.

(** *** References held during poll *)

Lemma alter_acquired_comm p q (m : gmap ioref mxio_t) :
  alter acquired p (alter acquired q m) = alter acquired q (alter acquired p m).
Proof.
  apply map_eq. intros i. rewrite !lookup_alter.
  repeat case_decide; subst; try reflexivity; congruence.
Qed.

Lemma bump_alter_comm ps p m : bump ps (alter acquired p m) = alter acquired p (bump ps m).
Proof.
  induction ps as [|q ps IH]; [reflexivity|].
  cbn [bump foldr]. fold (bump ps (alter acquired p m)). fold (bump ps m).
  rewrite IH. apply alter_acquired_comm.
Qed.

Lemma insert_acquired p o (m : gmap ioref mxio_t) :
  m !! p = Some o -> <[p := acquired o]> m = alter acquired p m.
Proof.
  intros Hp. apply map_eq. intros i. rewrite lookup_alter, lookup_insert.
  case_decide; subst; [rewrite Hp|]; reflexivity.
Qed.

Lemma bump_lookup ps : forall p o m,
  m !! p = Some o ->
  exists o', bump ps m !! p = Some o' /\ refcount o <= refcount o'.
Proof.
  induction ps as [|q ps IH]; intros p o m Hp.
  - exists o. split; [assumption | lia].
  - destruct (IH p o m Hp) as (o' & Ho' & Hle).
    cbn [bump foldr]. fold (bump ps m). rewrite lookup_alter.
    case_decide.
    + subst q. rewrite Ho'. exists (acquired o'). split; [reflexivity | simpl; lia].
    + exists o'. split; assumption.
Qed.

Lemma set_objs_ext f g s : f (objs s) = g (objs s) -> set_objs f s = set_objs g s.
Proof. intros E. unfold set_objs. rewrite E. reflexivity. Qed.

Lemma set_objs_twice f g h s :
  f (g (objs s)) = h (objs s) -> set_objs f (set_objs g s) = set_objs h s.
Proof. intros E. unfold set_objs. simpl. rewrite E. reflexivity. Qed.

Lemma release_alter p o' m' s :
  m' !! p = Some o' -> 1 <= refcount o' -> objs s = alter acquired p m' ->
  mxio_release p s = Returns tt (set_objs (fun _ => m') s).
Proof.
  intros Hp Hr Hs.
  assert (Hps : objs s !! p = Some (acquired o')).
  { rewrite Hs, lookup_alter_eq, Hp. reflexivity. }
  rewrite (release_acquired p o' s Hps Hr). f_equal.
  apply set_objs_ext. rewrite Hs, insert_alter_eq. apply insert_id. assumption.
Qed.

Lemma poll_release_bumped ios : forall m s,
  Forall (live m) (omap id ios) -> objs s = bump (omap id ios) m ->
  poll_release ios s = Returns tt (set_objs (fun _ => m) s).
Proof.
  induction ios as [|[p|] ios IH]; intros m s Hlive Hs.
  - simpl in *. f_equal. destruct s. unfold set_objs. simpl in *. congruence.
  - cbn [omap list_omap id] in Hlive, Hs. apply Forall_cons in Hlive as [(o & Hp & Hr) Hlive].
    cbn [bump foldr] in Hs. fold (bump (omap id ios) m) in Hs.
    destruct (bump_lookup (omap id ios) p o m Hp) as (o' & Ho' & Hle).
    cbn [poll_release].
    mrun ltac:(eapply release_alter; [exact Ho' | lia | exact Hs]).
    rewrite (IH m) by (try assumption; reflexivity). reflexivity.
  - cbn [poll_release]. apply IH; assumption.
Qed.


(** *** The loops of poll *)

Lemma lookup_fd_some s fd p :
  lookup_fd s fd = Some p -> in_table fd /\ fdtab s !! fd = Some p.
Proof.
  unfold lookup_fd, in_table. destruct (fd <? 0) eqn:E0; [discriminate|].
  destruct (fd >=? MAX_MXIO_FD) eqn:E1; [discriminate|]. simpl.
  apply Z.ltb_ge in E0. rewrite Z.geb_leb in E1. apply Z.leb_gt in E1.
  intros E. split; [lia | assumption].
Qed.

Lemma lookup_fd_none s fd : lookup_fd s fd = None <-> bad_fd s fd.
Proof.
  unfold lookup_fd, bad_fd. destruct (fd <? 0) eqn:E0.
  { apply Z.ltb_lt in E0. simpl. tauto. }
  destruct (fd >=? MAX_MXIO_FD) eqn:E1.
  { rewrite Z.geb_leb in E1. apply Z.leb_le in E1. simpl. tauto. }
  apply Z.ltb_ge in E0. rewrite Z.geb_leb in E1. apply Z.leb_gt in E1. simpl.
  split; [tauto|]. intros [?|[?|?]]; [lia | lia | assumption].
Qed.

Lemma poll_io_none s pfd :
  poll_io s pfd = None <-> pfd_fd pfd < 0 \/ bad_fd s (pfd_fd pfd).
Proof.
  unfold poll_io. destruct (pfd_fd pfd <? 0) eqn:E0.
  - apply Z.ltb_lt in E0. tauto.
  - rewrite lookup_fd_none. apply Z.ltb_ge in E0. unfold bad_fd. split; [tauto|].
    intros [?|?]; [lia | assumption].
Qed.

Lemma wf_table_acquired s p :
  wf_table s -> wf_table (set_objs (alter acquired p) s).
Proof.
  intros Hwf fd q Hq. destruct (Hwf fd q Hq) as (o & Ho & Hr).
  simpl. rewrite lookup_alter. case_decide.
  - subst q. rewrite Ho. exists (acquired o). split; [reflexivity | simpl; lia].
  - exists o. split; assumption.
Qed.

Lemma poll_begin_scan fds : forall s,
  wf_table s ->
  exists k,
    poll_begin fds s = Returns k (set_objs (bump (omap id (ps_ios k))) s) /\
    Forall (live (objs s)) (omap id (ps_ios k)) /\
    ((exists i pfd,
        fds !! i = Some pfd /\ no_handle s pfd /\
        Forall (fun pfd => ~ no_handle s pfd) (take i fds) /\
        ps_fds k = poll_unwaited s (take i fds) ++ set_revents pfd 0 :: drop (S i) fds /\
        ps_r k = Err ERR_INVALID_ARGS) \/
     (Forall (fun pfd => ~ no_handle s pfd) fds /\ k = scanned s fds)).
Proof.
  induction fds as [|pfd rest IH]; intros s Hwf.
  - exists (scanned s []). split; [|split; [constructor | right; split; [constructor | reflexivity]]].
    simpl. unfold mret, M_ret. f_equal. destruct s; reflexivity.
  - cbn [poll_begin].
    destruct (poll_io s pfd) as [p|] eqn:Eio.
    + (* a waited entry *)
      assert (Hneg : (pfd_fd pfd <? 0) = false).
      { unfold poll_io in Eio. destruct (pfd_fd pfd <? 0); [discriminate | reflexivity]. }
      assert (Hlk : lookup_fd s (pfd_fd pfd) = Some p).
      { unfold poll_io in Eio. rewrite Hneg in Eio. exact Eio. }
      destruct (lookup_fd_some _ _ _ Hlk) as [Hin Hfd].
      destruct (Hwf _ _ Hfd) as (o & Ho & Hr).
      rewrite Hneg.
      mrun ltac:(eapply fd_to_io_bound; eassumption).
      rewrite (set_objs_ext _ (alter acquired p) s (insert_acquired p o _ Ho)).
      set (s1 := set_objs (alter acquired p) s).
      assert (Hp1 : objs s1 !! p = Some (acquired o)).
      { simpl. rewrite lookup_alter_eq, Ho. reflexivity. }
      mrun ltac:(apply deref_live; exact Hp1).
      destruct (ops_wait_begin p (to_uint32 (pfd_events pfd))) as [h sigs] eqn:Ewb.
      destruct (h =? MX_HANDLE_INVALID) eqn:Eh.
      * exists {| ps_fds := set_revents pfd 0 :: rest; ps_ios := [Some p];
                  ps_items := []; ps_r := Err ERR_INVALID_ARGS |}.
        split; [reflexivity|]. split.
        { constructor; [exists o; split; assumption | constructor]. }
        left. exists O, pfd. split; [reflexivity|]. split.
        { exists p. split; [assumption|]. unfold poll_handle. rewrite Ewb.
          apply Z.eqb_eq. assumption. }
        split; [constructor|]. split; reflexivity.
      * destruct (IH s1 (wf_table_acquired s p Hwf)) as (k & Ek & Hlive & Hcase).
        mrun ltac:(exact Ek).
        eexists. split; [|split].
        { unfold mret, M_ret. f_equal. cbn [ps_ios omap list_omap id].
          unfold s1. apply set_objs_twice.
          cbn [bump foldr]. fold (bump (omap id (ps_ios k)) (objs s)).
          apply bump_alter_comm. }
        { cbn [ps_ios omap list_omap id]. constructor; [exists o; split; assumption|].
          eapply Forall_impl; [exact Hlive|]. intros q (oq & Hq & Hrq). simpl in Hq.
          rewrite lookup_alter in Hq. case_decide.
          - subst q. rewrite Ho in Hq. injection Hq as <-. exists o. split; assumption.
          - exists oq. split; assumption. }
        assert (Hnh : ~ no_handle s pfd).
        { intros (q & Hq & Hbad). rewrite Eio in Hq. injection Hq as <-.
          unfold poll_handle in Hbad. rewrite Ewb in Hbad. simpl in Hbad.
          apply Z.eqb_neq in Eh. contradiction. }
        destruct Hcase as [(i & x & Hi & Hx & Hbefore & Hfds & Hr')|[Hall ->]].
        { left. exists (S i), x. split; [exact Hi|]. split; [exact Hx|].
          split; [cbn [take]; constructor; assumption|]. split; [|exact Hr'].
          cbn [ps_fds take drop poll_unwaited map app]. rewrite Eio.
          f_equal. exact Hfds. }
        right. split; [constructor; assumption|].
        unfold scanned. cbn [poll_unwaited map poll_items omap list_omap fmap option_fmap option_map].
        fold (poll_unwaited s rest). fold (poll_items s rest). rewrite Eio.
        cbn [ps_fds ps_ios ps_items ps_r fmap option_fmap option_map].
        unfold poll_item, poll_handle. rewrite Ewb. reflexivity.
    + (* an entry that is not waited on *)
      destruct (IH s Hwf) as (k & Ek & Hlive & Hcase).
      assert (Hnh : ~ no_handle s pfd).
      { intros (q & Hq & _). congruence. }
      exists {| ps_fds := set_revents pfd (idle_revents pfd) :: ps_fds k;
                ps_ios := None :: ps_ios k;
                ps_items := ps_items k; ps_r := ps_r k |}.
      split; [|split; [exact Hlive|]].
      * unfold idle_revents. destruct (pfd_fd pfd <? 0) eqn:Eneg.
        -- mrun ltac:(exact Ek). reflexivity.
        -- assert (Hlk : lookup_fd s (pfd_fd pfd) = None).
           { unfold poll_io in Eio. rewrite Eneg in Eio. exact Eio. }
           mrun ltac:(apply fd_to_io_bad, lookup_fd_none; exact Hlk).
           mrun ltac:(exact Ek). reflexivity.
      * destruct Hcase as [(i & x & Hi & Hx & Hbefore & Hfds & Hr')|[Hall ->]].
        -- left. exists (S i), x. split; [exact Hi|]. split; [exact Hx|].
           split; [cbn [take]; constructor; assumption|]. split; [|exact Hr'].
           cbn [ps_fds take drop poll_unwaited map app]. rewrite Eio.
           f_equal. exact Hfds.
        -- right. split; [constructor; assumption|].
           unfold scanned.
           cbn [poll_unwaited map poll_items omap list_omap fmap option_fmap option_map
                ps_fds ps_ios ps_items ps_r].
           fold (poll_unwaited s rest). fold (poll_items s rest). rewrite Eio.
           reflexivity.
Qed.


Lemma ready_count_cons s x l :
  ready_count s (x :: l) =
  (if decide (is_Some (poll_io s x) /\ pfd_revents x <> 0) then 1 else 0) + ready_count s l.
Proof.
  unfold ready_count. rewrite filter_cons. case_decide; [|lia].
  cbn [length]. lia.
Qed.

(** The assignment of the code is the mask the specification words. *)
Lemma poll_revents_masked p pfd pending :
  poll_revents p pfd pending = waited_revents p pfd pending.
Proof.
  unfold poll_revents, waited_revents, masked_events.
  rewrite <- Z.lor_assoc. reflexivity.
Qed.

Lemma poll_end_marked s fds : forall pending nvalid j s2,
  Forall (fun p => is_Some (objs s2 !! p)) (omap (poll_io s) fds) ->
  (j + length (poll_items s fds) <= nvalid)%nat ->
  poll_end (poll_unwaited s fds) (map (poll_io s) fds) pending nvalid j s2
  = Returns (poll_marked s pending j fds, ready_count s (poll_marked s pending j fds)) s2.
Proof.
  induction fds as [|pfd rest IH]; intros pending nvalid j s2 Hlive Hj; [reflexivity|].
  cbn [poll_unwaited map poll_end poll_marked]. fold (poll_unwaited s rest).
  cbn [omap list_omap poll_items] in Hlive, Hj. fold (poll_items s rest) in Hj.
  destruct (poll_io s pfd) as [p|] eqn:Eio; rewrite ready_count_cons.
  - cbn [fmap option_fmap option_map length] in Hj.
    apply Forall_cons in Hlive as [[o Ho] Hlive].
    replace (j <? nvalid)%nat with true by (symmetry; apply Nat.ltb_lt; lia).
    mrun ltac:(apply deref_live; exact Ho).
    mrun ltac:(apply IH; [exact Hlive | lia]).
    unfold mret, M_ret. f_equal.
    change (poll_revents p (set_revents pfd 0) (nth j pending 0))
      with (poll_revents p pfd (nth j pending 0)).
    rewrite poll_revents_masked.
    set (rev := waited_revents p pfd (nth j pending 0)).
    change (set_revents (set_revents pfd 0) rev) with (set_revents pfd rev).
    f_equal.
    change (poll_io s (set_revents pfd rev)) with (poll_io s pfd). rewrite Eio.
    destruct (rev =? 0) eqn:Erev.
    + apply Z.eqb_eq in Erev. rewrite decide_False; [lia|]. simpl. tauto.
    + apply Z.eqb_neq in Erev. rewrite decide_True; [lia|]. simpl. split; [eauto | assumption].
  - mrun ltac:(apply IH; assumption).
    unfold mret, M_ret. f_equal. f_equal.
    change (poll_io s (set_revents pfd (idle_revents pfd))) with (poll_io s pfd).
    rewrite Eio. rewrite decide_False; [lia|]. intros [[q Hq] _]. discriminate.
Qed.

Lemma poll_begin_idle s fds :
  Forall (fun pfd => poll_io s pfd = None) fds ->
  poll_begin fds s = Returns (scanned s fds) s.
Proof.
  induction fds as [|pfd rest IH]; intros Hidle; [reflexivity|].
  apply Forall_cons in Hidle as [Eio Hidle]. cbn [poll_begin].
  unfold scanned.
  cbn [poll_unwaited map poll_items omap list_omap]. fold (poll_unwaited s rest).
  fold (poll_items s rest). rewrite Eio.
  unfold idle_revents. destruct (pfd_fd pfd <? 0) eqn:Eneg.
  - mrun ltac:(apply IH; exact Hidle). reflexivity.
  - assert (Hlk : lookup_fd s (pfd_fd pfd) = None).
    { unfold poll_io in Eio. rewrite Eneg in Eio. exact Eio. }
    mrun ltac:(apply fd_to_io_bad, lookup_fd_none; exact Hlk).
    mrun ltac:(apply IH; exact Hidle). reflexivity.
Qed.

Lemma poll_items_idle s fds :
  Forall (fun pfd => poll_io s pfd = None) fds ->
  poll_items s fds = [] /\ map (poll_io s) fds = map (fun _ => None) fds /\
  poll_unwaited s fds = map (fun pfd => set_revents pfd (idle_revents pfd)) fds.
Proof.
  induction fds as [|pfd rest IH]; intros Hidle; [repeat split|].
  apply Forall_cons in Hidle as [Eio Hidle]. destruct (IH Hidle) as (E1 & E2 & E3).
  unfold poll_items, poll_unwaited in *. cbn [omap list_omap map].
  rewrite Eio, E2, E3. cbn [fmap option_fmap option_map]. rewrite E1. repeat split.
Qed.

Lemma poll_release_none (fds : list pollfd) s :
  poll_release (map (fun _ => None) fds) s = Returns tt s.
Proof. induction fds as [|pfd rest IH]; [reflexivity | exact IH]. Qed.

(** *** poll *)

Lemma poll_too_many fds timeout s :
  MAX_POLL_NFDS < Z.of_nat (length fds) ->
  poll fds timeout s = Returns (-1, fds) (set_errno EINVAL s).
Proof.
  intros Hn. unfold poll.
  replace (Z.of_nat (length fds) >? MAX_POLL_NFDS) with true
    by (symmetry; rewrite Z.gtb_ltb; apply Z.ltb_lt; assumption).
  reflexivity.
Qed.

Lemma poll_small (fds : list pollfd) :
  Z.of_nat (length fds) <= MAX_POLL_NFDS ->
  (Z.of_nat (length fds) >? MAX_POLL_NFDS) = false.
Proof. intros Hn. rewrite Z.gtb_ltb. apply Z.ltb_ge. assumption. Qed.

Lemma poll_idle fds timeout s :
  Z.of_nat (length fds) <= MAX_POLL_NFDS ->
  Forall (fun pfd => pfd_fd pfd < 0 \/ bad_fd s (pfd_fd pfd)) fds ->
  poll fds timeout s
  = Returns (0, map (fun pfd => set_revents pfd (idle_revents pfd)) fds) s.
Proof.
  intros Hn Hidle.
  assert (Hio : Forall (fun pfd => poll_io s pfd = None) fds).
  { eapply Forall_impl; [exact Hidle|]. intros pfd Hp. apply poll_io_none. exact Hp. }
  destruct (poll_items_idle s fds Hio) as (E1 & E2 & E3).
  unfold poll. rewrite (poll_small fds Hn).
  mrun ltac:(apply poll_begin_idle; exact Hio).
  cbn [scanned ps_fds ps_ios ps_items ps_r]. rewrite E1, E2, E3.
  cbn [length]. rewrite andb_false_r.
  mrun ltac:(reflexivity).
  mrun ltac:(apply poll_release_none).
  reflexivity.
Qed.

Lemma restore_bumped ps s : set_objs (fun _ => objs s) (set_objs (bump ps) s) = s.
Proof. destruct s. reflexivity. Qed.

Lemma poll_no_handle fds timeout s :
  wf_table s -> Z.of_nat (length fds) <= MAX_POLL_NFDS ->
  Exists (no_handle s) fds ->
  exists i pfd,
    fds !! i = Some pfd /\ no_handle s pfd /\
    Forall (fun pfd => ~ no_handle s pfd) (take i fds) /\
    poll fds timeout s
    = Returns (-1, poll_unwaited s (take i fds) ++ set_revents pfd 0 :: drop (S i) fds)
              (set_errno (mxio_status_to_errno ERR_INVALID_ARGS) s).
Proof.
  intros Hwf Hn Hex.
  destruct (poll_begin_scan fds s Hwf)
    as (k & Ek & Hlive & [(i & pfd & Hi & Hbad & Hbefore & Hfds & Hr)|[Hall _]]).
  2:{ exfalso. apply Exists_exists in Hex as (pfd & Hin & Hbad).
      rewrite Forall_forall in Hall. apply (Hall pfd); assumption. }
  exists i, pfd. split; [exact Hi|]. split; [exact Hbad|]. split; [exact Hbefore|].
  rewrite <- Hfds. unfold poll. rewrite (poll_small fds Hn).
  mrun ltac:(exact Ek). rewrite Hr.
  rewrite (bool_decide_eq_false_2 (Err ERR_INVALID_ARGS = NO_ERROR)) by discriminate.
  cbn [andb].
  mrun ltac:(reflexivity).
  mrun ltac:(apply poll_release_bumped; [exact Hlive | reflexivity]).
  rewrite restore_bumped.
  rewrite (bool_decide_eq_false_2 (Err ERR_INVALID_ARGS = NO_ERROR)) by discriminate.
  rewrite (bool_decide_eq_false_2 (Err ERR_INVALID_ARGS = Err ERR_TIMED_OUT)) by discriminate.
  reflexivity.
Qed.


Lemma omap_id_map {A B} (f : A -> option B) (l : list A) : omap id (map f l) = omap f l.
Proof.
  induction l as [|x l IH]; [reflexivity|]. cbn [map omap list_omap]. rewrite <- IH.
  destruct (f x); reflexivity.
Qed.

Lemma poll_waits fds timeout s :
  wf_table s -> Z.of_nat (length fds) <= MAX_POLL_NFDS ->
  Forall (fun pfd => ~ no_handle s pfd) fds -> poll_items s fds <> [] ->
  poll fds timeout s = poll_answer s fds timeout.
Proof.
  intros Hwf Hn Hall Hitems.
  destruct (poll_begin_scan fds s Hwf)
    as (k & Ek & Hlive & [(i & pfd & Hi & Hbad & _)|[_ ->]]).
  { exfalso. rewrite Forall_forall in Hall.
    apply (Hall pfd); [eapply list_elem_of_lookup_2; exact Hi | exact Hbad]. }
  cbn [scanned ps_ios] in Ek, Hlive. rewrite omap_id_map in Ek, Hlive.
  set (ps := omap (poll_io s) fds) in *.
  unfold poll, poll_answer. rewrite (poll_small fds Hn).
  mrun ltac:(exact Ek). cbn [scanned ps_fds ps_ios ps_items ps_r].
  rewrite bool_decide_eq_true_2 by reflexivity.
  replace (0 <? length (poll_items s fds))%nat with true
    by (symmetry; apply Nat.ltb_lt; destruct (poll_items s fds); [congruence | simpl; lia]).
  cbn [andb]. fold (poll_timeout timeout).
  set (items := poll_items s fds). set (tmo := poll_timeout timeout).
  set (s1 := set_objs (bump ps) s).
  assert (Hrel : forall s2, s2 = set_world (CallWaitMany items tmo)
                                   (mx_object_wait_many items tmo (world s)).2 s1 ->
            poll_release (map (poll_io s) fds) s2
            = Returns tt (set_world (CallWaitMany items tmo)
                                    (mx_object_wait_many items tmo (world s)).2 s)).
  { intros s2 ->. rewrite (poll_release_bumped _ (objs s)).
    - reflexivity.
    - rewrite omap_id_map. exact Hlive.
    - rewrite omap_id_map. reflexivity. }
  assert (Hsome : forall s2, objs s2 = objs s1 ->
            Forall (fun p => is_Some (objs s2 !! p)) ps).
  { intros s2 E2. eapply Forall_impl; [exact Hlive|]. intros p (o & Ho & Hr).
    destruct (bump_lookup ps p o (objs s) Ho) as (o' & Ho' & _).
    exists o'. rewrite E2. exact Ho'. }
  destruct (mx_object_wait_many items tmo (world s)) as [[r pending] w] eqn:Eans.
  cbn [fst snd] in *.
  assert (Hext : extern (CallWaitMany items tmo) (mx_object_wait_many items tmo) s1
                 = Returns (r, pending) (set_world (CallWaitMany items tmo) w s1)).
  { rewrite extern_returns. change (world s1) with (world s). rewrite Eans. reflexivity. }
  destruct (bool_decide (r = NO_ERROR) || bool_decide (r = Err ERR_TIMED_OUT)) eqn:Eok.
  - mrun ltac:(mrun ltac:(exact Hext); rewrite Eok;
               mrun ltac:(apply poll_end_marked; [apply Hsome; reflexivity | unfold items; lia]);
               reflexivity).
    mrun ltac:(apply Hrel; reflexivity).
    rewrite Eok. reflexivity.
  - mrun ltac:(mrun ltac:(exact Hext); rewrite Eok; reflexivity).
    mrun ltac:(apply Hrel; reflexivity).
    rewrite Eok. reflexivity.
Qed.

(** *** Marks of the entries poll does not wait on *)

Lemma poll_items_nil s fds :
  poll_items s fds = [] -> Forall (fun pfd => poll_io s pfd = None) fds.
Proof.
  induction fds as [|pfd rest IH]; intros E; [constructor|].
  unfold poll_items in E. cbn [omap list_omap] in E.
  destruct (poll_io s pfd) as [p|] eqn:Eio; [discriminate E|].
  constructor; [exact Eio | apply IH; exact E].
Qed.

Lemma poll_marked_idle s pending fds : forall j i pfd,
  fds !! i = Some pfd -> poll_io s pfd = None ->
  poll_marked s pending j fds !! i = Some (set_revents pfd (idle_revents pfd)).
Proof.
  induction fds as [|x rest IH]; intros j i pfd Hi Hio; [discriminate Hi|].
  cbn [poll_marked]. destruct i as [|i].
  - injection Hi as ->. rewrite Hio. reflexivity.
  - destruct (poll_io s x); apply IH; assumption.
Qed.

Lemma poll_unwaited_idle s fds i pfd :
  fds !! i = Some pfd -> poll_io s pfd = None ->
  poll_unwaited s fds !! i = Some (set_revents pfd (idle_revents pfd)).
Proof.
  intros Hi Hio. unfold poll_unwaited. rewrite list_lookup_fmap, Hi. simpl.
  rewrite Hio. reflexivity.
Qed.

Lemma poll_unwaited_waited s fds i pfd p :
  fds !! i = Some pfd -> poll_io s pfd = Some p ->
  poll_unwaited s fds !! i = Some (set_revents pfd 0).
Proof.
  intros Hi Hio. unfold poll_unwaited. rewrite list_lookup_fmap, Hi. simpl.
  rewrite Hio. reflexivity.
Qed.

Lemma poll_marked_waited s pending fds : forall j i pfd p,
  fds !! i = Some pfd -> poll_io s pfd = Some p ->
  poll_marked s pending j fds !! i
  = Some (set_revents pfd
            (waited_revents p pfd (nth (j + length (poll_items s (take i fds))) pending 0))).
Proof.
  induction fds as [|x rest IH]; intros j i pfd p Hi Hio; [discriminate Hi|].
  cbn [poll_marked]. destruct i as [|i].
  - injection Hi as ->. rewrite Hio. cbn [take]. unfold poll_items. cbn [omap list_omap length].
    rewrite Nat.add_0_r. reflexivity.
  - cbn [take]. unfold poll_items. cbn [omap list_omap]. fold (poll_items s (take i rest)).
    destruct (poll_io s x) as [q|]; cbn [fmap option_fmap option_map length].
    + change ((set_revents x (waited_revents q x (nth j pending 0))
               :: poll_marked s pending (S j) rest) !! S i)
        with (poll_marked s pending (S j) rest !! i).
      rewrite (IH (S j) i pfd p Hi Hio). do 4 f_equal. lia.
    + apply IH; assumption.
Qed.

(** * The claims *)

(** C1 (defect of the code).  [mxio_unbind_from_fd] tests only
    [fd >= MAX_MXIO_FD] before it reads [mxio_fdtab[fd]]: for the fd -1
    the read is outside the table and nothing is promised, where the
    claim has ERR_INVALID_ARGS for every fd out of range.  The lookup
    and [close], given the same fd, do test [fd < 0]. *)
Theorem mxio_unbind_from_fd_negative (s : mxio_state) :
  mxio_unbind_from_fd (-1) s = Undefined /\
  __mxio_fd_to_io (-1) s = Returns None s /\
  close (-1) s = Returns (-1) (set_errno EBADF s).
Proof.
  split; [apply unbind_negative; lia|].
  split; [apply fd_to_io_bad | apply close_bad]; left; lia.
Qed.

(** What holds of the claim C2.  For a live object [io]:
    [mxio_bind_to_fd(io, fd, starting_fd)] with [fd < 0] and a scan that
    starts at a slot of the table installs [io] at the lowest free slot
    of [[starting_fd, MAX_MXIO_FD)], counts the slot in [dupcount] and
    returns the index; with no free slot in that range it returns -1
    with errno EMFILE; with [fd >= MAX_MXIO_FD] it returns -1 with errno
    EINVAL and changes nothing else. *)
Lemma mxio_bind_to_fd_lowest_free (s : mxio_state) (io : ioref) (o : mxio_t)
    (fd starting_fd : Z) :
  objs s !! io = Some o ->
  (fd < 0 -> 0 <= starting_fd ->
     (forall k, lowest_free s starting_fd k ->
        mxio_bind_to_fd io fd starting_fd s = Returns k (installed s io o k)) /\
     ((forall j, starting_fd <= j < MAX_MXIO_FD -> fdtab s !! j <> None) ->
        mxio_bind_to_fd io fd starting_fd s = Returns (-1) (set_errno EMFILE s))) /\
  (MAX_MXIO_FD <= fd ->
     mxio_bind_to_fd io fd starting_fd s = Returns (-1) (set_errno EINVAL s)).
Proof.
  intros Hio. split.
  - intros Hfd Hlo. split.
    + intros k Hk. eapply bind_any_lowest; eassumption.
    + intros Hfull. apply bind_any_full; assumption.
  - intros Hfd. apply bind_too_high. assumption.
Qed.

(** C2 (defect of the code).  [mxio_bind_to_fd] with [fd < 0] starts
    its scan at [mxio_fdtab[starting_fd]] without a test of
    [starting_fd]: with a negative [starting_fd] the first read is
    outside the table and nothing is promised, where the claim has the
    lowest free slot of the range, or EMFILE.  The value reaches the
    function from [fcntl(fd, F_DUPFD, arg)] and
    [fcntl(fd, F_DUPFD_CLOEXEC, arg)], which pass the caller's [arg] on
    as [starting_fd] for every bound [fd]. *)
Theorem mxio_bind_to_fd_negative_start (s : mxio_state) (io : ioref) :
  mxio_bind_to_fd io (-1) (-1) s = Undefined /\
  (forall fd starting_fd, fd < 0 -> starting_fd < 0 ->
     mxio_bind_to_fd io fd starting_fd s = Undefined) /\
  (forall fd p o arg,
     in_table fd -> fdtab s !! fd = Some p -> objs s !! p = Some o -> arg < 0 ->
     fcntl fd F_DUPFD arg s = Undefined /\
     fcntl fd F_DUPFD_CLOEXEC arg s = Undefined).
Proof.
  split; [apply bind_any_negative_start; lia|].
  split; [intros fd lo Hfd Hlo; apply bind_any_negative_start; assumption|].
  intros fd p o arg Hin Hfd Hp Harg.
  assert (Hdup : mxio_dup fd (-1) arg s = Undefined).
  { unfold mxio_dup.
    erewrite bind_returns by (eapply fd_to_io_bound; eassumption).
    apply bind_undefined. apply bind_any_negative_start; [lia | assumption]. }
  split; exact Hdup.
Qed.

(** C3.  For an fd bound to a live object [p].  [read] keeps every
    answer of the transport read in its [mx_status_t] variable [status]:
    a negative code as it is, a count cut to 32 bits.  When that status
    is ERR_SHOULD_WAIT and NONBLOCK is set, [read] returns -1 with errno
    EAGAIN after that one call.  When NONBLOCK is unset, every status
    ERR_SHOULD_WAIT is followed by
    [mxio_wait_fd(fd, MXIO_EVT_READABLE, NULL, MX_TIME_INFINITE)] and
    another transport read: if the first [k] statuses are
    ERR_SHOULD_WAIT and the next one is not, [read] returns the
    translation of that status, after exactly those [k] waits and not
    before; if every status is ERR_SHOULD_WAIT it never returns.  The
    answer ERR_SHOULD_WAIT of the transport is kept as ERR_SHOULD_WAIT,
    and a count below [2^31] as that count; a count from [2^31] up to
    [2^32] is kept as a negative code. *)
Theorem read_should_wait (s : mxio_state) (fd : Z) (p : ioref) (o : mxio_t)
    (b : addr) (count : Z) :
  in_table fd -> fdtab s !! fd = Some p -> objs s !! p = Some o -> 1 <= refcount o ->
  let c := CallRead p b count in
  let f := ops_read p b count in
  let after k := rounds k c f p MXIO_EVT_READABLE s in
  let st k := to_mx_status (try_status f (after k)) in
  (Z.land (flags o) MXIO_FLAG_NONBLOCK <> 0 ->
   st O = Err ERR_SHOULD_WAIT ->
   forall fuel,
     read (S fuel) fd (Some b) count s = Returns (-1) (set_errno EAGAIN (try_round c f s)))
  /\
  (Z.land (flags o) MXIO_FLAG_NONBLOCK = 0 ->
   (forall k,
      (forall j, (j < k)%nat -> st j = Err ERR_SHOULD_WAIT) ->
      st k <> Err ERR_SHOULD_WAIT ->
      forall fuel,
        ((k < fuel)%nat ->
         read fuel fd (Some b) count s = STATUS (st k) (try_round c f (after k))) /\
        ((fuel <= k)%nat -> read fuel fd (Some b) count s = OutOfFuel))
   /\
   ((forall j, st j = Err ERR_SHOULD_WAIT) ->
    forall fuel, read fuel fd (Some b) count s = OutOfFuel))
  /\
  (forall e, to_mx_status (Err e) = Err e) /\
  (forall n, (n < 2 ^ 31)%N -> to_mx_status (Ok n) = Ok n) /\
  (forall n, (2 ^ 31 <= n < 2 ^ 32)%N ->
     to_mx_status (Ok n) = Err (status_code (Z.of_N n - 2 ^ 32))).
Proof.
  intros Hin Hfd Hp Hr c f after st. split; [|split; [|split; [|split]]].
  - intros Hnb Hst fuel. unfold read.
    rewrite (blocking_io_nonblock fd p o (fun q => CallRead q b count)
               (fun q => ops_read q b count) MXIO_EVT_READABLE s fuel Hin Hfd Hp Hr Hnb).
    change (stored_status (ops_read p b count) s) with (st O). rewrite Hst. reflexivity.
  - intros Hnb. split.
    + intros k Hwait Hdone fuel.
      exact (blocking_io_blocks fd p o (fun q => CallRead q b count)
               (fun q => ops_read q b count) MXIO_EVT_READABLE s k
               Hin Hfd Hp Hr Hnb Hwait Hdone fuel).
    + intros Hwait fuel.
      exact (blocking_io_forever fd p o (fun q => CallRead q b count)
               (fun q => ops_read q b count) MXIO_EVT_READABLE s
               Hin Hfd Hp Hr Hnb Hwait fuel).
  - reflexivity.
  - apply to_mx_status_small.
  - apply to_mx_status_wide.
Qed.


(** C5 (as amended).  For every fd that is negative, at least
    [MAX_MXIO_FD], or not bound: [read], [write], [pread] and [pwrite]
    with a buffer that is not NULL, [close], [fstat], [fsync],
    [ftruncate], [lseek], [ioctl], and [fcntl] with one of the commands
    F_DUPFD, F_DUPFD_CLOEXEC, F_GETFD, F_SETFD, F_GETFL, F_SETFL return
    -1 with errno EBADF and change nothing else. *)
Theorem bad_fd_ebadf (s : mxio_state) (fd : Z) :
  bad_fd s fd ->
  (forall fuel b count, read fuel fd (Some b) count s = Returns (-1) (set_errno EBADF s)) /\
  (forall fuel b count, write fuel fd (Some b) count s = Returns (-1) (set_errno EBADF s)) /\
  (forall fuel b size ofs,
     pread fuel fd (Some b) size ofs s = Returns (-1) (set_errno EBADF s)) /\
  (forall fuel b size ofs,
     pwrite fuel fd (Some b) size ofs s = Returns (-1) (set_errno EBADF s)) /\
  close fd s = Returns (-1) (set_errno EBADF s) /\
  fstat fd s = Returns (-1) (set_errno EBADF s) /\
  fsync fd s = Returns (-1) (set_errno EBADF s) /\
  (forall len, ftruncate fd len s = Returns (-1) (set_errno EBADF s)) /\
  (forall offset whence, lseek fd offset whence s = Returns (-1) (set_errno EBADF s)) /\
  (forall req ap, ioctl fd req ap s = Returns (-1) (set_errno EBADF s)) /\
  (forall cmd arg, fcntl_uses_fd cmd ->
     fcntl fd cmd arg s = Returns (-1) (set_errno EBADF s)).
Proof.
  intros Hb. destruct (fd_op_bad fd s Hb) as (Hseek & Htrunc & Hsync & Hstat & Hioctl).
  unfold read, write, pread, pwrite.
  split; [intros; apply blocking_io_bad; assumption|].
  split; [intros; apply blocking_io_bad; assumption|].
  split; [intros; apply blocking_io_bad; assumption|].
  split; [intros; apply blocking_io_bad; assumption|].
  split; [apply close_bad; assumption|].
  split; [exact Hstat|]. split; [exact Hsync|]. split; [exact Htrunc|].
  split; [exact Hseek|]. split; [exact Hioctl|].
  intros cmd arg Hcmd. apply fcntl_bad; assumption.
Qed.

(** C6.  For every path, mode and dirfd, [open] and [openat] with flags
    that contain both O_CREAT and O_DIRECTORY return -1 with errno
    EINVAL; the state is otherwise the one before the call: no
    transport was called, and the fd table, the cwd and every object
    are unchanged. *)
Theorem open_creat_directory_einval (s : mxio_state) (dirfd : Z) (path : option cstr)
    (oflags mode : Z) :
  Z.land oflags O_CREAT = O_CREAT -> Z.land oflags O_DIRECTORY = O_DIRECTORY ->
  open path oflags mode s = Returns (-1) (set_errno EINVAL s) /\
  openat dirfd path oflags mode s = Returns (-1) (set_errno EINVAL s) /\
  calls (set_errno EINVAL s) = calls s /\
  fdtab (set_errno EINVAL s) = fdtab s /\
  objs (set_errno EINVAL s) = objs s /\
  cwd_handle (set_errno EINVAL s) = cwd_handle s /\
  cwd_path (set_errno EINVAL s) = cwd_path s.
Proof.
  intros Hc Hd. unfold open, openat.
  rewrite !vopenat_creat_directory by assumption. repeat split.
Qed.

(** C7 (as amended).  [poll] on more than [MAX_POLL_NFDS] entries
    returns -1 with errno EINVAL and leaves the array.  Otherwise, in a
    table whose slots point to live objects: when the [wait_begin] of
    some looked-up entry yields an invalid handle, the call returns -1
    with the errno of ERR_INVALID_ARGS without a kernel wait; the
    entries before the first such entry are marked (0 for a negative fd
    and for a looked-up one, POLLNVAL for an unbound one), that entry
    gets [revents = 0] and the entries behind it are left as they were.
    When none does, entries with a negative fd get [revents = 0],
    entries with an unbound fd get POLLNVAL, and the result is 0 without
    a kernel wait when no entry is looked up, else the kernel wait
    decides: on NO_ERROR or ERR_TIMED_OUT every looked-up entry gets as
    [revents] the events that [wait_end] returns for its item, masked
    to the requested events plus POLLHUP and POLLERR, and the result is
    the number of looked-up entries whose [revents] is not zero (the
    entries marked POLLNVAL do not count); on another status the result
    is -1 with its errno and the looked-up entries keep [revents = 0]. *)
Theorem poll_result (s : mxio_state) (fds : list pollfd) (timeout : Z) :
  wf_table s ->
  (MAX_POLL_NFDS < Z.of_nat (length fds) ->
   poll fds timeout s = Returns (-1, fds) (set_errno EINVAL s)) /\
  (Z.of_nat (length fds) <= MAX_POLL_NFDS ->
   (Exists (no_handle s) fds ->
    exists i pfd,
      fds !! i = Some pfd /\ no_handle s pfd /\
      Forall (fun pfd => ~ no_handle s pfd) (take i fds) /\
      poll fds timeout s
      = Returns (-1, poll_unwaited s (take i fds) ++ set_revents pfd 0 :: drop (S i) fds)
                (set_errno (mxio_status_to_errno ERR_INVALID_ARGS) s)) /\
   (Forall (fun pfd => ~ no_handle s pfd) fds ->
    (poll_items s fds = [] ->
     poll fds timeout s = Returns (0, poll_unwaited s fds) s) /\
    (poll_items s fds <> [] ->
     let items := poll_items s fds in
     let tmo := if timeout >=? 0 then MX_MSEC timeout else MX_TIME_INFINITE in
     let ans := mx_object_wait_many items tmo (world s) in
     let s' := set_world (CallWaitMany items tmo) ans.2 s in
     let fds' := poll_marked s ans.1.2 0 fds in
     (ans.1.1 = NO_ERROR \/ ans.1.1 = Err ERR_TIMED_OUT ->
      poll fds timeout s
      = Returns (Z.of_nat (length (filter (fun pfd => is_Some (poll_io s pfd) /\
                                                     pfd_revents pfd <> 0) fds')),
                 fds') s') /\
     (ans.1.1 <> NO_ERROR -> ans.1.1 <> Err ERR_TIMED_OUT ->
      poll fds timeout s
      = Returns (-1, poll_unwaited s fds) (set_errno (error_errno ans.1.1) s'))))) /\
  (forall i pfd pending, fds !! i = Some pfd -> poll_io s pfd = None ->
     let mark := set_revents pfd (if pfd_fd pfd <? 0 then 0 else POLLNVAL) in
     poll_unwaited s fds !! i = Some mark /\
     poll_marked s pending 0 fds !! i = Some mark) /\
  (forall i pfd p pending, fds !! i = Some pfd -> poll_io s pfd = Some p ->
     let j := length (poll_items s (take i fds)) in
     let events := to_uint32 (ops_wait_end p (nth j pending 0)) in
     poll_unwaited s fds !! i = Some (set_revents pfd 0) /\
     poll_marked s pending 0 fds !! i
     = Some (set_revents pfd
               (to_short (Z.land events
                                 (Z.lor (pfd_events pfd) (Z.lor POLLHUP POLLERR)))))).
Proof.
  intros Hwf. split; [apply poll_too_many|]. split; [|split].
  - intros Hn. split; [apply poll_no_handle; assumption|].
    intros Hall. split.
    + intros Hnil. apply poll_items_nil in Hnil.
      destruct (poll_items_idle s fds Hnil) as (_ & _ & ->).
      apply poll_idle; [assumption|].
      eapply Forall_impl; [exact Hnil|]. intros pfd Hp. apply poll_io_none. exact Hp.
    + intros Hne items tmo ans s' fds'.
      pose proof (poll_waits fds timeout s Hwf Hn Hall Hne) as Hpoll.
      unfold poll_answer, poll_timeout in Hpoll. cbv zeta in Hpoll.
      fold items tmo ans in Hpoll. fold s' in Hpoll. fold fds' in Hpoll.
      split.
      * intros Hok. rewrite Hpoll.
        replace (bool_decide (ans.1.1 = NO_ERROR) || bool_decide (ans.1.1 = Err ERR_TIMED_OUT))
          with true; [reflexivity|].
        symmetry. apply orb_true_iff.
        destruct Hok as [Hok|Hok]; [left | right]; apply bool_decide_eq_true; exact Hok.
      * intros Hne1 Hne2. rewrite Hpoll.
        rewrite (bool_decide_eq_false_2 _ Hne1), (bool_decide_eq_false_2 _ Hne2).
        reflexivity.
  - intros i pfd pending Hi Hio mark.
    split; [apply poll_unwaited_idle | apply poll_marked_idle]; assumption.
  - intros i pfd p pending Hi Hio j events.
    split; [eapply poll_unwaited_waited; eassumption|].
    exact (poll_marked_waited s pending fds O i pfd p Hi Hio).
Qed.

(** C8 (as amended).  For every cwd string in the form the tracker
    keeps (the path of a stack of segments that are not empty, hold no
    slash, are neither [.] nor [..], and each passed the check on
    [PATH_MAX] when it was appended), [update_cwd_path] of that string
    leaves the cwd string equal to it, whatever the cwd was; the tracker
    leaves that form only for ["(unknown)"]; consequently, from a cwd of
    that form, [getcwd] returns the string and a [chdir] to it does not
    change the cwd string. *)
Theorem update_cwd_path_idempotent (stack : list cstr) :
  tracked stack ->
  (forall cwd, update_cwd_path cwd (render stack) = render stack) /\
  (forall p,
     update_cwd_path (render stack) p = unknown_path \/
     exists stack', tracked stack' /\ update_cwd_path (render stack) p = render stack') /\
  (forall s, cwd_path s = render stack ->
     getcwd None 0 s = Returns (Some (render stack)) s /\
     forall r s', chdir (Some (render stack)) s = Returns r s' ->
                  cwd_path s' = render stack).
Proof.
  intros Ht. split; [intros cwd; apply update_cwd_path_tracked; assumption|].
  split; [intros p; apply update_cwd_path_keeps_tracked; assumption|].
  intros s Hcwd. split.
  - rewrite <- Hcwd. apply getcwd_alloc. rewrite Hcwd.
    pose proof (tracked_length stack Ht). lia.
  - intros r s' Hch. apply chdir_cwd_path in Hch as [[_ Hp]|[_ Hp]].
    + rewrite Hp, Hcwd. apply update_cwd_path_tracked. assumption.
    + rewrite Hp. exact Hcwd.
Qed.

(** C9.  For every fd, bound or not, and every count, [read], [write],
    [pread] and [pwrite] with a NULL buffer return -1 with errno EINVAL:
    the fd is never looked up, so the fd table, the objects and the log
    of calls are untouched, and the errno is EINVAL, not EBADF, also for
    an fd that is not bound. *)
Theorem null_buffer_einval (s : mxio_state) (fd count ofs : Z) (fuel : nat) :
  read fuel fd None count s = Returns (-1) (set_errno EINVAL s) /\
  write fuel fd None count s = Returns (-1) (set_errno EINVAL s) /\
  pread fuel fd None count ofs s = Returns (-1) (set_errno EINVAL s) /\
  pwrite fuel fd None count ofs s = Returns (-1) (set_errno EINVAL s) /\
  fdtab (set_errno EINVAL s) = fdtab s /\
  objs (set_errno EINVAL s) = objs s /\
  calls (set_errno EINVAL s) = calls s /\
  errno (set_errno EINVAL s) = EINVAL /\ EINVAL <> EBADF.
Proof.
  destruct (null_buffer s fd count ofs fuel) as (Hr & Hw & Hpr & Hpw).
  repeat split; try assumption. discriminate.
Qed.

(** C10 (as amended).  For every array of at most [MAX_POLL_NFDS]
    entries each of which has a negative fd or an fd that is not bound,
    and for every timeout, negative ones included, [poll] returns 0
    without calling the kernel: the state is the one before the call,
    the entries with an unbound fd are marked POLLNVAL and the others
    0. *)
Theorem poll_idle_returns_zero (s : mxio_state) (fds : list pollfd) (timeout : Z) :
  Z.of_nat (length fds) <= MAX_POLL_NFDS ->
  Forall (fun pfd => pfd_fd pfd < 0 \/ bad_fd s (pfd_fd pfd)) fds ->
  poll fds timeout s
  = Returns (0, map (fun pfd => set_revents pfd (if pfd_fd pfd <? 0 then 0 else POLLNVAL)) fds) s.
Proof.
  intros Hn Hidle.
  assert (Hio : Forall (fun pfd => poll_io s pfd = None) fds).
  { eapply Forall_impl; [exact Hidle|]. intros pfd Hp. apply poll_io_none. exact Hp. }
  destruct (poll_items_idle s fds Hio) as (Eitems & Eios & Efds).
  unfold poll. rewrite (poll_small fds Hn).
  mrun ltac:(apply poll_begin_idle; exact Hio).
  cbn [scanned ps_fds ps_ios ps_items ps_r]. rewrite Eitems, Eios, Efds.
  cbn [length]. rewrite andb_false_r.
  mrun ltac:(reflexivity).
  mrun ltac:(apply poll_release_none).
  reflexivity.
Qed.

End MxioFacts.

(** * The claims on the example world *)

#[local] Existing Instance example_world.

Lemma example_wf (fl : Z) : wf_table (example_state fl).
Proof.
  intros fd p Hfd. unfold example_state in Hfd. simpl in Hfd.
  apply lookup_singleton_Some in Hfd as [<- <-].
  exists (example_obj fl). split; [reflexivity | simpl; lia].
Qed.

Lemma example_in_table : in_table 3.
Proof. unfold in_table, MAX_MXIO_FD. lia. Qed.

(** A scan from slot 3, which is taken, finds slot 4. *)
Lemma mxio_bind_to_fd_lowest_free_example :
  lowest_free (example_state 0) 3 4 /\
  mxio_bind_to_fd 2%positive (-1) 3 (example_state 0)
  = Returns 4 (installed (example_state 0) 2%positive example_dir 4) /\
  mxio_bind_to_fd 2%positive MAX_MXIO_FD 0 (example_state 0)
  = Returns (-1) (set_errno EINVAL (example_state 0)).
Proof.
  assert (Hfree : lowest_free (example_state 0) 3 4).
  { split; [unfold MAX_MXIO_FD; lia|]. split; [reflexivity|].
    intros j Hj. replace j with 3 by lia. discriminate. }
  assert (Hobj : objs (example_state 0) !! 2%positive = Some example_dir) by reflexivity.
  split; [exact Hfree|]. split.
  - apply (mxio_bind_to_fd_lowest_free (example_state 0) 2%positive example_dir (-1) 3 Hobj);
      [lia | lia | exact Hfree].
  - apply (mxio_bind_to_fd_lowest_free (example_state 0) 2%positive example_dir MAX_MXIO_FD 0 Hobj).
    lia.
Qed.

Lemma mxio_bind_to_fd_negative_start_witness :
  mxio_bind_to_fd 2%positive (-1) (-1) (example_state 0) = Undefined /\
  fcntl 3 F_DUPFD (-1) (example_state 0) = Undefined /\
  fcntl 3 F_DUPFD 0 (example_state 0)
  = Returns 0 (installed (set_objs <[1%positive := acquired (example_obj 0)]> (example_state 0))
                 1%positive (acquired (example_obj 0)) 0).
Proof.
  destruct (mxio_bind_to_fd_negative_start (example_state 0) 2%positive)
    as (Hbind & _ & Hfcntl).
  split; [exact Hbind|]. split; [|reflexivity].
  destruct (Hfcntl 3 1%positive (example_obj 0) (-1) example_in_table eq_refl eq_refl
              ltac:(lia)) as [Hdup _].
  exact Hdup.
Defined.

Lemma read_should_wait_witness :
  (exists s', read 3 3 (Some 100) 3 (example_state 0) = Returns 3 s' /\
              calls s' = [CallRead 1%positive 100 3;
                          CallWaitOne 1 1 MX_TIME_INFINITE;
                          CallRead 1%positive 100 3;
                          CallWaitOne 1 1 MX_TIME_INFINITE;
                          CallRead 1%positive 100 3]) /\
  read 2 3 (Some 100) 3 (example_state 0) = OutOfFuel /\
  (exists s', read 1 3 (Some 100) 3 (example_state 16) = Returns (-1) s' /\
              errno s' = EAGAIN /\ calls s' = [CallRead 1%positive 100 3]) /\
  (exists s', read 1 3 (Some 100) (2 ^ 31 + 5) (slow_state 0) = Returns (-1) s' /\
              errno s' = EIO /\ calls s' = [CallRead 1%positive 100 (2 ^ 31 + 5)]) /\
  read 9 3 (Some 100) (2 ^ 32 - 22) (slow_state 0) = OutOfFuel.
Proof.
  assert (Hr : forall fl, 1 <= refcount (example_obj fl)) by (intros fl; simpl; lia).
  destruct (read_should_wait (example_state 0) 3 1%positive (example_obj 0) 100 3
              example_in_table eq_refl eq_refl (Hr 0)) as (_ & Hblock & _).
  destruct (Hblock eq_refl) as [Hk _].
  assert (Hwait : forall j, (j < 2)%nat ->
            to_mx_status
              (try_status (ops_read 1%positive 100 3)
                 (rounds j (CallRead 1%positive 100 3) (ops_read 1%positive 100 3)
                         1%positive MXIO_EVT_READABLE (example_state 0)))
            = Err ERR_SHOULD_WAIT).
  { intros j Hj. destruct j as [|[|j]]; [reflexivity | reflexivity | exfalso; clear - Hj; lia]. }
  assert (Hdone : to_mx_status
              (try_status (ops_read 1%positive 100 3)
                 (rounds 2 (CallRead 1%positive 100 3) (ops_read 1%positive 100 3)
                         1%positive MXIO_EVT_READABLE (example_state 0)))
            <> Err ERR_SHOULD_WAIT) by (vm_compute; discriminate).
  split; [|split; [|split; [|split]]].
  - destruct (Hk 2%nat Hwait Hdone 3%nat) as [Hret _].
    eexists. split; [rewrite Hret by lia; reflexivity | reflexivity].
  - destruct (Hk 2%nat Hwait Hdone 2%nat) as [_ Hout]. apply Hout. lia.
  - destruct (read_should_wait (example_state 16) 3 1%positive (example_obj 16) 100 3
                example_in_table eq_refl eq_refl (Hr 16)) as [Hnb _].
    eexists. split; [apply (Hnb ltac:(vm_compute; discriminate) eq_refl 0%nat)|].
    split; reflexivity.
  - destruct (read_should_wait (slow_state 0) 3 1%positive (example_obj 0) 100 (2 ^ 31 + 5)
                example_in_table eq_refl eq_refl (Hr 0)) as (_ & Hwide & _).
    destruct (Hwide eq_refl) as [Hk' _].
    destruct (Hk' 0%nat ltac:(intros j Hj; exfalso; clear - Hj; lia)
                ltac:(vm_compute; discriminate) 1%nat) as [Hret _].
    eexists. split; [rewrite Hret by lia; reflexivity|]. split; reflexivity.
  - destruct (read_should_wait (slow_state 0) 3 1%positive (example_obj 0) 100 (2 ^ 32 - 22)
                example_in_table eq_refl eq_refl (Hr 0)) as (_ & Hwide & _).
    destruct (Hwide eq_refl) as [_ Hever].
    apply Hever. intros j. vm_compute. reflexivity.
Defined.


Lemma bad_fd_ebadf_witness :
  bad_fd (example_state 0) 7 /\
  read 1 7 (Some 100) 3 (example_state 0) = Returns (-1) (set_errno EBADF (example_state 0)) /\
  close 7 (example_state 0) = Returns (-1) (set_errno EBADF (example_state 0)) /\
  fcntl 7 F_GETFL 0 (example_state 0) = Returns (-1) (set_errno EBADF (example_state 0)).
Proof.
  assert (Hb : bad_fd (example_state 0) 7) by (right; right; reflexivity).
  destruct (bad_fd_ebadf (example_state 0) 7 Hb)
    as (Hread & _ & _ & _ & Hclose & _ & _ & _ & _ & _ & Hfcntl).
  split; [exact Hb|]. split; [apply Hread|]. split; [exact Hclose|].
  apply Hfcntl. exact I.
Defined.

Lemma open_creat_directory_einval_witness :
  Z.land 65600 O_CREAT = O_CREAT /\ Z.land 65600 O_DIRECTORY = O_DIRECTORY /\
  open (Some (str "/tmp/x")) 65600 493 (example_state 0)
  = Returns (-1) (set_errno EINVAL (example_state 0)) /\
  openat 3 (Some (str "x")) 65600 493 (example_state 0)
  = Returns (-1) (set_errno EINVAL (example_state 0)).
Proof.
  split; [reflexivity|]. split; [reflexivity|].
  split.
  - apply (open_creat_directory_einval (example_state 0) 3 (Some (str "/tmp/x")) 65600 493);
      reflexivity.
  - apply (open_creat_directory_einval (example_state 0) 3 (Some (str "x")) 65600 493);
      reflexivity.
Defined.

Lemma slow_wf (fl : Z) : wf_table (slow_state fl).
Proof.
  intros fd p Hfd. unfold slow_state in Hfd. simpl in Hfd.
  apply lookup_singleton_Some in Hfd as [<- <-].
  exists (example_obj fl). split; [reflexivity | simpl; lia].
Qed.

Lemma poll_result_witness :
  let fds := [ {| pfd_fd := -1; pfd_events := 1; pfd_revents := 7 |};
               {| pfd_fd := 7; pfd_events := 1; pfd_revents := 7 |};
               {| pfd_fd := 3; pfd_events := 1; pfd_revents := 7 |};
               {| pfd_fd := 3; pfd_events := 4; pfd_revents := 7 |};
               {| pfd_fd := 3; pfd_events := 2; pfd_revents := 7 |} ] in
  exists s',
    poll fds 0 (slow_state 0)
    = Returns (2, [ {| pfd_fd := -1; pfd_events := 1; pfd_revents := 0 |};
                    {| pfd_fd := 7; pfd_events := 1; pfd_revents := POLLNVAL |};
                    {| pfd_fd := 3; pfd_events := 1; pfd_revents := 0 |};
                    {| pfd_fd := 3; pfd_events := 4; pfd_revents := 20 |};
                    {| pfd_fd := 3; pfd_events := 2; pfd_revents := POLLHUP |} ]) s' /\
    calls s' = [CallWaitMany [ {| wi_handle := 1; wi_waitfor := 1; wi_pending := 0 |};
                               {| wi_handle := 1; wi_waitfor := 4; wi_pending := 0 |};
                               {| wi_handle := 1; wi_waitfor := 2; wi_pending := 0 |} ] 0].
Proof.
  intros fds.
  destruct (poll_result (slow_state 0) fds 0 (slow_wf 0)) as (_ & Hsmall & _).
  destruct (Hsmall ltac:(vm_compute; discriminate)) as [_ Hvalid].
  assert (Hall : Forall (fun pfd => ~ no_handle (slow_state 0) pfd) fds).
  { repeat constructor; intros (p & Hp & Hh); vm_compute in Hp;
      try discriminate Hp; injection Hp as <-; vm_compute in Hh; discriminate Hh. }
  destruct (Hvalid Hall) as [_ Hwait].
  destruct (Hwait ltac:(vm_compute; discriminate)) as [Hok _].
  eexists. split; [rewrite Hok by (left; reflexivity); reflexivity | reflexivity].
Defined.

Lemma update_cwd_path_idempotent_witness :
  tracked [str "a"; str "b"] /\
  update_cwd_path (str "/x/y/z") (str "/a/b") = str "/a/b" /\
  getcwd None 0 (set_cwd_path (str "/a/b") (example_state 0))
  = Returns (Some (str "/a/b")) (set_cwd_path (str "/a/b") (example_state 0)).
Proof.
  assert (Ht : tracked [str "a"; str "b"]).
  { split; [|repeat split].
    repeat constructor; try discriminate; intros Hin;
      repeat (apply elem_of_cons in Hin as [Hin|Hin]; [discriminate Hin|]);
      apply elem_of_nil in Hin; exact Hin. }
  destruct (update_cwd_path_idempotent (H := example_world) [str "a"; str "b"] Ht)
    as (Hfix & _ & Hcwd).
  split; [exact Ht|]. split; [apply (Hfix (str "/x/y/z"))|].
  apply (Hcwd (set_cwd_path (str "/a/b") (example_state 0))). reflexivity.
Defined.

Lemma poll_idle_returns_zero_witness :
  let fds := [ {| pfd_fd := -1; pfd_events := 1; pfd_revents := 7 |};
               {| pfd_fd := 7; pfd_events := 1; pfd_revents := 7 |} ] in
  poll fds (-1) (example_state 0)
  = Returns (0, [ {| pfd_fd := -1; pfd_events := 1; pfd_revents := 0 |};
                  {| pfd_fd := 7; pfd_events := 1; pfd_revents := POLLNVAL |} ])
            (example_state 0).
Proof.
  intros fds.
  apply (poll_idle_returns_zero (example_state 0) fds (-1)).
  - vm_compute. discriminate.
  - constructor; [left; simpl; lia|].
    constructor; [right; right; right; reflexivity | constructor].
Defined.

(** * Where the claims as worded fail *)

(** C5 as worded fails: on the unbound fd 7, [read] with a NULL buffer
    sets EINVAL and [fcntl] with F_GETOWN sets ENOSYS. *)
Lemma bad_fd_not_always_ebadf :
  bad_fd (example_state 0) 7 /\
  (exists s', read 1 7 None 3 (example_state 0) = Returns (-1) s' /\
              errno s' = EINVAL /\ errno s' <> EBADF) /\
  (exists s', fcntl 7 F_GETOWN 0 (example_state 0) = Returns (-1) s' /\
              errno s' = ENOSYS /\ errno s' <> EBADF).
Proof.
  split; [right; right; reflexivity|]. split.
  - eexists. split; [reflexivity|]. split; [reflexivity | discriminate].
  - eexists. split; [reflexivity|]. split; [reflexivity | discriminate].
Qed.

(** C7 as worded fails: an entry with an unbound fd is marked POLLNVAL,
    so its [revents] is not zero, but it is left out of the result:
    with one such entry and one ready entry [poll] returns 1 while two
    entries have a [revents] that is not zero. *)
Lemma poll_leaves_out_pollnval :
  let fds := [ {| pfd_fd := 7; pfd_events := 1; pfd_revents := 0 |};
               {| pfd_fd := 3; pfd_events := 1; pfd_revents := 0 |} ] in
  exists s',
    poll fds 0 (example_state 0)
    = Returns (1, [ {| pfd_fd := 7; pfd_events := 1; pfd_revents := POLLNVAL |};
                    {| pfd_fd := 3; pfd_events := 1; pfd_revents := 1 |} ]) s' /\
    length (filter (fun pfd => pfd_revents pfd <> 0)
              [ {| pfd_fd := 7; pfd_events := 1; pfd_revents := POLLNVAL |};
                {| pfd_fd := 3; pfd_events := 1; pfd_revents := 1 |} ]) = 2%nat /\
    2 <= Z.of_nat (length fds) <= MAX_POLL_NFDS.
Proof.
  intros fds. eexists. split; [vm_compute; reflexivity|].
  split; [reflexivity | vm_compute; split; discriminate].
Qed.

(** C8 as worded fails: ["/a/.."] is absolute, holds neither ["//"] nor
    ["/./"] and ends in no slash, yet [update_cwd_path] turns it into
    ["/"]; a path of one segment of [PATH_MAX - 3] letters has that form
    as well and yields ["(unknown)"]; and once the cwd string is
    ["(unknown)"], a [chdir] to the string [getcwd] returns, when the
    open succeeds, appends to it. *)
Lemma worded_normal_form_not_fixed :
  (normalized_as_worded (str "/a/..") /\
   update_cwd_path (str "/a/..") (str "/a/..") = str "/" /\
   str "/" <> str "/a/..") /\
  (normalized_as_worded (long_path 4093) /\
   update_cwd_path (long_path 4093) (long_path 4093) = unknown_path /\
   unknown_path <> long_path 4093) /\
  (let s := set_cwd_path unknown_path (example_state 0) in
   getcwd None 0 s = Returns (Some unknown_path) s /\
   exists s', chdir (Some unknown_path) s = Returns 0 s' /\
              cwd_path s' = str "(unknown)/(unknown)" /\
              cwd_path s' <> cwd_path s).
Proof.
  split; [|split].
  - split; [|split; [reflexivity | discriminate]].
    repeat split. right. discriminate.
  - split; [|split; [vm_compute; reflexivity | discriminate]].
    split; [reflexivity|]. split; [vm_compute; reflexivity|].
    split; [vm_compute; reflexivity|]. right.
    intros E. vm_compute in E. discriminate E.
  - intros s. split; [reflexivity|].
    eexists. split; [vm_compute; reflexivity|]. split; [reflexivity | discriminate].
Qed.

(** C10 as worded fails: with [MAX_POLL_NFDS + 1] entries, all of a
    negative fd, [poll] returns -1 with errno EINVAL, not 0. *)
Lemma poll_idle_too_many :
  let fds := replicate 1025 {| pfd_fd := -1; pfd_events := 0; pfd_revents := 0 |} in
  Forall (fun pfd => pfd_fd pfd < 0 \/ bad_fd (example_state 0) (pfd_fd pfd)) fds /\
  poll fds (-1) (example_state 0) = Returns (-1, fds) (set_errno EINVAL (example_state 0)).
Proof.
  intros fds. split.
  - apply Forall_replicate. left. simpl. lia.
  - vm_compute. reflexivity.
Qed.

(** * Further properties of the fd layer *)

Section MoreFacts.
Context `{World}.

(** Run the first action of the sequence in the goal; [tac] proves what
    it returns. *)
Ltac mstep tac :=
  cbv beta iota;
  match goal with
  | |- context [ (?m ≫= ?k) ?s ] => erewrite (bind_returns m k s) by tac
  end;
  cbv beta iota.

(** *** Objects: counts and references *)

Lemma state_eq (s1 s2 : mxio_state) :
  fdtab s1 = fdtab s2 -> objs s1 = objs s2 -> root_handle s1 = root_handle s2 ->
  cwd_handle s1 = cwd_handle s2 -> cwd_path s1 = cwd_path s2 -> errno s1 = errno s2 ->
  world s1 = world s2 -> calls s1 = calls s2 -> s1 = s2.
Proof. destruct s1, s2. simpl. intros. subst. reflexivity. Qed.

(** Close a goal [m s = Returns a s'] whose sides agree field by field. *)
Ltac mdone :=
  first [ reflexivity
        | cbv [mret M_ret]; f_equal; apply state_eq; reflexivity ].

Lemma set_dupcount_live p o d s :
  objs s !! p = Some o ->
  set_dupcount p d s = Returns tt (set_objs <[p := with_dupcount o d]> s).
Proof.
  intros Hp. unfold set_dupcount. mstep ltac:(apply deref_live; exact Hp). reflexivity.
Qed.

Lemma set_flags_live p o f s :
  objs s !! p = Some o ->
  set_flags p f s
  = Returns tt (set_objs <[p := {| flags := f; refcount := refcount o;
                                   dupcount := dupcount o |}]> s).
Proof.
  intros Hp. unfold set_flags. mstep ltac:(apply deref_live; exact Hp). reflexivity.
Qed.

Lemma release_live p o s :
  objs s !! p = Some o -> mxio_release p s = Returns tt (set_objs (released p) s).
Proof.
  intros Hp. unfold mxio_release. mstep ltac:(apply deref_live; exact Hp).
  unfold store, modify, set_objs, released. rewrite Hp.
  destruct (refcount o =? 1); reflexivity.
Qed.

Lemma alter_live {A} (f : A -> A) p o (m : gmap ioref A) :
  m !! p = Some o -> alter f p m = <[p := f o]> m.
Proof.
  intros Hp. apply map_eq. intros i. rewrite lookup_alter, lookup_insert.
  case_decide; subst; [rewrite Hp|]; reflexivity.
Qed.

Lemma released_acquired p o (m : gmap ioref mxio_t) :
  1 <= refcount o -> released p (<[p := acquired o]> m) = <[p := o]> m.
Proof.
  intros Hr. unfold released. rewrite lookup_insert_eq.
  replace (refcount (acquired o) =? 1) with false
    by (symmetry; apply Z.eqb_neq; simpl; lia).
  rewrite insert_insert_eq. f_equal. destruct o as [fl rc dc]. simpl. f_equal. lia.
Qed.

(** *** close *)

Lemma slot_closed_eq fd p o s :
  objs s !! p = Some o ->
  slot_closed fd p s
  = set_objs (released p)
      (set_fdtab (delete fd) (set_objs <[p := with_dupcount o (dupcount o - 1)]> s)).
Proof.
  intros Hp. unfold slot_closed. apply state_eq; try reflexivity.
  simpl. rewrite (alter_live _ p o) by assumption. reflexivity.
Qed.

Lemma close_in_range fd p s :
  in_table fd -> fdtab s !! fd = Some p ->
  ((fd <? 0) || (fd >=? MAX_MXIO_FD) || bool_decide (fdtab s !! fd = None)) = false.
Proof.
  intros [H0 H1] Hfd.
  replace (fd <? 0) with false by (symmetry; apply Z.ltb_ge; lia).
  replace (fd >=? MAX_MXIO_FD) with false
    by (symmetry; rewrite Z.geb_leb; apply Z.leb_gt; lia).
  rewrite bool_decide_eq_false_2 by congruence. reflexivity.
Qed.

Lemma close_bound fd p o s :
  in_table fd -> fdtab s !! fd = Some p -> objs s !! p = Some o ->
  close fd s =
  if dupcount o - 1 >? 0 then Returns 0 (slot_closed fd p s)
  else STATUS (try_status (ops_close p) s)
              (try_round (CallClose p) (ops_close p) (slot_closed fd p s)).
Proof.
  intros Hin Hfd Hp. rewrite (slot_closed_eq fd p o s Hp). unfold close.
  mstep ltac:(reflexivity). rewrite (close_in_range fd p s Hin Hfd).
  mstep ltac:(apply tab_get_in; exact Hin). rewrite Hfd.
  mstep ltac:(apply deref_live; exact Hp).
  mstep ltac:(apply set_dupcount_live; exact Hp).
  mstep ltac:(apply tab_set_in; exact Hin).
  set (o' := with_dupcount o (dupcount o - 1)).
  set (s2 := set_fdtab (delete fd) (set_objs <[p := o']> s)).
  assert (Hp2 : objs s2 !! p = Some o') by apply lookup_insert_eq.
  destruct (dupcount o - 1 >? 0).
  - mstep ltac:(eapply release_live; exact Hp2). reflexivity.
  - mstep ltac:(eapply op_call_live; exact Hp2).
    mstep ltac:(eapply release_live; exact Hp2). reflexivity.
Qed.

Lemma slot_closed_fdtab fd p s : fdtab (slot_closed fd p s) = delete fd (fdtab s).
Proof. reflexivity. Qed.

Lemma STATUS_fdtab r s a s' : STATUS r s = Returns a s' -> fdtab s' = fdtab s.
Proof.
  destruct r as [n|e]; intros E; injection E as _ <-; reflexivity.
Qed.

(** X1.  [close] on an fd bound to a live object empties the slot and
    leaves every other slot alone.  When the object is bound to another
    slot as well ([dupcount > 1]) the transport is not called and the
    result is 0; otherwise the transport's [close] is called once and
    its status is the result.  In both cases the object loses the
    slot's reference, and a second [close] of the fd fails with
    EBADF. *)
Theorem close_releases_slot (s : mxio_state) (fd : Z) (p : ioref) (o : mxio_t) :
  in_table fd -> fdtab s !! fd = Some p -> objs s !! p = Some o ->
  (1 < dupcount o -> close fd s = Returns 0 (slot_closed fd p s)) /\
  (dupcount o <= 1 ->
     close fd s = STATUS (try_status (ops_close p) s)
                    (try_round (CallClose p) (ops_close p) (slot_closed fd p s))) /\
  bad_fd (slot_closed fd p s) fd /\
  (forall fd', fd' <> fd -> fdtab (slot_closed fd p s) !! fd' = fdtab s !! fd') /\
  (forall r s', close fd s = Returns r s' ->
     close fd s' = Returns (-1) (set_errno EBADF s')).
Proof.
  intros Hin Hfd Hp. pose proof (close_bound fd p o s Hin Hfd Hp) as Hc.
  split; [|split; [|split; [|split]]].
  - intros Hd. rewrite Hc.
    replace (dupcount o - 1 >? 0) with true
      by (symmetry; rewrite Z.gtb_ltb; apply Z.ltb_lt; lia).
    reflexivity.
  - intros Hd. rewrite Hc.
    replace (dupcount o - 1 >? 0) with false
      by (symmetry; rewrite Z.gtb_ltb; apply Z.ltb_ge; lia).
    reflexivity.
  - right. right. rewrite slot_closed_fdtab. apply lookup_delete_eq.
  - intros fd' Hne. rewrite slot_closed_fdtab. apply lookup_delete_ne. congruence.
  - intros r s' E. apply close_bad. right. right.
    rewrite Hc in E. destruct (dupcount o - 1 >? 0).
    + injection E as _ <-. rewrite slot_closed_fdtab. apply lookup_delete_eq.
    + apply STATUS_fdtab in E. rewrite E. simpl. apply lookup_delete_eq.
Qed.

(** *** dup, dup2, dup3 *)

Lemma mxio_dup_bound oldfd newfd lo p o s :
  in_table oldfd -> fdtab s !! oldfd = Some p -> objs s !! p = Some o ->
  mxio_dup oldfd newfd lo s =
  (fd ← mxio_bind_to_fd p newfd lo;
   if fd <? 0 then _ ← mxio_release p; mret fd else mret fd)
    (set_objs <[p := acquired o]> s).
Proof.
  intros Hin Hfd Hp. unfold mxio_dup.
  mstep ltac:(eapply fd_to_io_bound; eassumption). reflexivity.
Qed.

(** X2.  [dup] of an fd bound to a live object returns the lowest free
    fd; both fds then name the same object, which counts one slot and
    one reference more.  A [close] of the new fd returns 0 and restores
    the state from before the [dup]. *)
Theorem dup_close_round_trip (s : mxio_state) (fd k : Z) (p : ioref) (o : mxio_t) :
  in_table fd -> fdtab s !! fd = Some p -> objs s !! p = Some o ->
  1 <= refcount o -> 1 <= dupcount o -> lowest_free s 0 k ->
  exists s1,
    dup fd s = Returns k s1 /\
    lookup_fd s1 k = Some p /\ lookup_fd s1 fd = Some p /\
    objs s1 !! p = Some {| flags := flags o; refcount := refcount o + 1;
                           dupcount := dupcount o + 1 |} /\
    close k s1 = Returns 0 s.
Proof.
  intros Hin Hfd Hp Hr Hd Hfree.
  assert (Hk : in_table k) by (destruct Hfree as [Hk _]; unfold in_table; lia).
  assert (Hkfree : fdtab s !! k = None) by (destruct Hfree as (_ & Hn & _); exact Hn).
  assert (Hne : fd <> k) by congruence.
  set (sa := set_objs <[p := acquired o]> s).
  set (s1 := installed sa p (acquired o) k).
  assert (Hp1 : objs s1 !! p = Some (with_dupcount (acquired o) (dupcount (acquired o) + 1)))
    by apply lookup_insert_eq.
  exists s1. split; [|split; [|split; [|split]]].
  - unfold dup. rewrite (mxio_dup_bound fd (-1) 0 p o s Hin Hfd Hp). fold sa.
    mstep ltac:(apply (bind_any_lowest p (acquired o) (-1) 0 k sa);
                [lia | lia | apply lookup_insert_eq | exact Hfree]).
    replace (k <? 0) with false
      by (symmetry; apply Z.ltb_ge; unfold in_table in Hk; lia).
    reflexivity.
  - unfold lookup_fd. destruct Hk as [Hk0 Hk1].
    replace (k <? 0) with false by (symmetry; apply Z.ltb_ge; lia).
    replace (k >=? MAX_MXIO_FD) with false
      by (symmetry; rewrite Z.geb_leb; apply Z.leb_gt; lia).
    apply lookup_insert_eq.
  - unfold lookup_fd. destruct Hin as [Hk0 Hk1].
    replace (fd <? 0) with false by (symmetry; apply Z.ltb_ge; lia).
    replace (fd >=? MAX_MXIO_FD) with false
      by (symmetry; rewrite Z.geb_leb; apply Z.leb_gt; lia).
    simpl. rewrite lookup_insert_ne by congruence. exact Hfd.
  - rewrite Hp1. reflexivity.
  - rewrite (close_bound k p _ s1 Hk (lookup_insert_eq _ _ _) Hp1).
    replace (dupcount (with_dupcount (acquired o) (dupcount (acquired o) + 1)) - 1 >? 0)
      with true by (symmetry; rewrite Z.gtb_ltb; apply Z.ltb_lt; simpl; lia).
    f_equal. rewrite (slot_closed_eq k p _ s1 Hp1).
    apply state_eq; try reflexivity.
    + unfold s1, sa, installed, set_objs, set_fdtab. cbn [fdtab objs].
      rewrite delete_insert_eq. apply delete_id. exact Hkfree.
    + unfold s1, sa, installed, set_objs, set_fdtab. cbn [fdtab objs dupcount acquired].
      rewrite !insert_insert_eq.
      replace (with_dupcount (with_dupcount (acquired o) (dupcount o + 1))
                 (dupcount (with_dupcount (acquired o) (dupcount o + 1)) - 1))
        with (acquired o)
        by (destruct o as [fl rc dc]; unfold with_dupcount, acquired; simpl; f_equal; lia).
      rewrite released_acquired by assumption.
      apply insert_id. exact Hp.
Qed.

Lemma released_insert p x (m : gmap ioref mxio_t) :
  released p (<[p := x]> m)
  = if refcount x =? 1 then delete p m
    else <[p := {| flags := flags x; refcount := refcount x - 1; dupcount := dupcount x |}]> m.
Proof.
  unfold released. rewrite lookup_insert_eq.
  destruct (refcount x =? 1); [apply delete_insert_eq | apply insert_insert_eq].
Qed.

Lemma bind_to_fd_at io fd lo s :
  in_table fd ->
  mxio_bind_to_fd io fd lo s =
  match fdtab s !! fd with
  | Some c =>
      (o ← deref c;
       _ ← set_dupcount c (dupcount o - 1);
       if dupcount o - 1 >? 0 then _ ← mxio_release c; bind_install io fd None
       else bind_install io fd (Some c)) s
  | None => bind_install io fd None s
  end.
Proof.
  intros [H0 H1]. unfold mxio_bind_to_fd.
  replace (fd <? 0) with false by (symmetry; apply Z.ltb_ge; lia).
  replace (fd >=? MAX_MXIO_FD) with false
    by (symmetry; rewrite Z.geb_leb; apply Z.leb_gt; lia).
  mstep ltac:(apply tab_get_in; split; assumption).
  destruct (fdtab s !! fd); reflexivity.
Qed.

Lemma bind_install_closing io o c oc k s :
  in_table k -> objs s !! io = Some o -> objs (installed s io o k) !! c = Some oc ->
  bind_install io k (Some c) s
  = Returns k (set_objs (released c)
                 (try_round (CallClose c) (ops_close c) (installed s io o k))).
Proof.
  intros Hin Hio Hc. unfold bind_install.
  mstep ltac:(apply deref_live; exact Hio).
  mstep ltac:(apply set_dupcount_live; exact Hio).
  mstep ltac:(apply tab_set_in; exact Hin).
  fold (installed s io o k).
  mstep ltac:(mstep ltac:(eapply op_call_live; exact Hc);
              eapply release_live; exact Hc).
  reflexivity.
Qed.

Lemma bind_to_fd_replace io c fd lo oc s :
  in_table fd -> fdtab s !! fd = Some c -> objs s !! c = Some oc ->
  mxio_bind_to_fd io fd lo s =
  if dupcount oc - 1 >? 0
  then bind_install io fd None
         (set_objs (released c) (set_objs <[c := with_dupcount oc (dupcount oc - 1)]> s))
  else bind_install io fd (Some c)
         (set_objs <[c := with_dupcount oc (dupcount oc - 1)]> s).
Proof.
  intros Hin Hfd Hc. rewrite (bind_to_fd_at io fd lo s Hin), Hfd.
  mstep ltac:(apply deref_live; exact Hc).
  mstep ltac:(apply set_dupcount_live; exact Hc).
  destruct (dupcount oc - 1 >? 0); [|reflexivity].
  mstep ltac:(eapply release_live; apply lookup_insert_eq). reflexivity.
Qed.

Lemma mxio_dup_alias (s : mxio_state) (oldfd fd lo : Z) (p : ioref) (o : mxio_t) :
  in_table oldfd -> fdtab s !! oldfd = Some p ->
  in_table fd -> fdtab s !! fd = Some p -> objs s !! p = Some o -> 1 <= refcount o ->
  (1 < dupcount o -> mxio_dup oldfd fd lo s = Returns fd s) /\
  (dupcount o <= 1 ->
     mxio_dup oldfd fd lo s = Returns fd (try_round (CallClose p) (ops_close p) s)).
Proof.
  intros Hold Hfdold Hin Hfd Hp Hr.
  set (sa := set_objs <[p := acquired o]> s).
  assert (Hpa : objs sa !! p = Some (acquired o)) by apply lookup_insert_eq.
  assert (Hnn : (fd <? 0) = false)
    by (apply Z.ltb_ge; unfold in_table in Hin; lia).
  assert (Hback : {| flags := flags o; refcount := refcount o + 1 - 1;
                     dupcount := dupcount o - 1 + 1 |} = o).
  { destruct o as [fl rc dc]. simpl. f_equal; lia. }
  pose proof (bind_to_fd_replace p p fd lo (acquired o) sa Hin Hfd Hpa) as Hb.
  change (dupcount (acquired o)) with (dupcount o) in Hb.
  split.
  - intros Hd. rewrite (mxio_dup_bound oldfd fd lo p o s Hold Hfdold Hp). fold sa.
    replace (dupcount o - 1 >? 0) with true in Hb
      by (symmetry; rewrite Z.gtb_ltb; apply Z.ltb_lt; lia).
    set (ox := {| flags := flags o; refcount := refcount o + 1 - 1;
                  dupcount := dupcount o - 1 |}).
    set (s2 := set_objs (released p)
                 (set_objs <[p := with_dupcount (acquired o) (dupcount o - 1)]> sa)) in Hb.
    assert (E2 : objs s2 = <[p := ox]> (objs s)).
    { unfold s2, sa, set_objs. cbn [objs]. rewrite released_insert.
      replace (refcount (with_dupcount (acquired o) (dupcount o - 1)) =? 1) with false
        by (symmetry; apply Z.eqb_neq; simpl; lia).
      rewrite !insert_insert_eq. reflexivity. }
    assert (Hp2 : objs s2 !! p = Some ox) by (rewrite E2; apply lookup_insert_eq).
    mstep ltac:(rewrite Hb; apply (bind_install_free p ox fd s2 Hin Hp2)).
    rewrite Hnn. f_equal. apply state_eq; try reflexivity.
    + cbn [installed set_fdtab set_objs fdtab]. apply insert_id. exact Hfd.
    + unfold installed, set_fdtab. cbn [objs set_objs]. fold (objs s2). rewrite E2.
      rewrite insert_insert_eq. unfold with_dupcount, ox. cbn [flags refcount dupcount].
      rewrite Hback. apply insert_id. exact Hp.
  - intros Hd. rewrite (mxio_dup_bound oldfd fd lo p o s Hold Hfdold Hp). fold sa.
    replace (dupcount o - 1 >? 0) with false in Hb
      by (symmetry; rewrite Z.gtb_ltb; apply Z.ltb_ge; lia).
    set (ob := with_dupcount (acquired o) (dupcount o - 1)) in Hb.
    set (sb := set_objs <[p := ob]> sa) in Hb.
    assert (Hpb : objs sb !! p = Some ob) by apply lookup_insert_eq.
    mstep ltac:(rewrite Hb;
                apply (bind_install_closing p ob p (with_dupcount ob (dupcount ob + 1))
                         fd sb Hin Hpb); apply lookup_insert_eq).
    rewrite Hnn. f_equal. apply state_eq; try reflexivity.
    + cbn [installed set_fdtab set_objs try_round set_world fdtab]. apply insert_id. exact Hfd.
    + unfold installed, try_round, set_world, set_fdtab, sb, sa, set_objs. cbn [objs].
      rewrite released_insert.
      replace (refcount (with_dupcount ob (dupcount ob + 1)) =? 1) with false
        by (symmetry; apply Z.eqb_neq; simpl; lia).
      rewrite !insert_insert_eq. unfold with_dupcount, ob, with_dupcount, acquired.
      cbn [flags refcount dupcount]. rewrite Hback. apply insert_id. exact Hp.
Qed.


(** X3.  [dup2(fd, fd)] on an fd bound to a live object returns [fd]
    and leaves the table and the object's counts as they were.  When the
    object is bound to another slot as well nothing else happens; when
    [fd] is its only slot ([dupcount <= 1]) the transport's [close] is
    called on the object, which stays bound to [fd].  [dup3] given the
    same fd twice returns -1 with errno EINVAL without a lookup, for
    any flags and also for an fd that is not bound. *)
Theorem dup2_same_fd (s : mxio_state) (fd : Z) (p : ioref) (o : mxio_t) :
  in_table fd -> fdtab s !! fd = Some p -> objs s !! p = Some o -> 1 <= refcount o ->
  (1 < dupcount o -> dup2 fd fd s = Returns fd s) /\
  (dupcount o <= 1 ->
     dup2 fd fd s = Returns fd (try_round (CallClose p) (ops_close p) s)) /\
  (forall fd' oflags s', dup3 fd' fd' oflags s' = Returns (-1) (set_errno EINVAL s')).
Proof.
  intros Hin Hfd Hp Hr.
  destruct (mxio_dup_alias s fd fd 0 p o Hin Hfd Hin Hfd Hp Hr) as [Hmany Hlast].
  split; [exact Hmany|]. split; [exact Hlast|].
  intros fd' oflags s'. unfold dup3. rewrite Z.eqb_refl. reflexivity.
Qed.

Lemma lookup_released_ne p q (m : gmap ioref mxio_t) :
  p <> q -> released q m !! p = m !! p.
Proof.
  intros Hne. unfold released. destruct (m !! q) as [o|]; [|reflexivity].
  destruct (refcount o =? 1);
    [apply lookup_delete_ne | apply lookup_insert_ne]; congruence.
Qed.

Lemma released_insert_ne p q x (m : gmap ioref mxio_t) :
  p <> q -> released q (<[p := x]> m) = <[p := x]> (released q m).
Proof.
  intros Hne. unfold released. rewrite lookup_insert_ne by congruence.
  destruct (m !! q) as [o|]; [|reflexivity].
  destruct (refcount o =? 1).
  - apply delete_insert_ne. congruence.
  - apply insert_insert_ne. congruence.
Qed.

Lemma slot_given_eq fd p q o oq s :
  p <> q -> objs s !! p = Some o -> objs s !! q = Some oq ->
  slot_given fd p q s
  = set_fdtab <[fd := p]>
      (set_objs (fun m => <[p := with_dupcount (acquired o) (dupcount o + 1)]>
                            (released q (<[q := with_dupcount oq (dupcount oq - 1)]> m))) s).
Proof.
  intros Hne Hp Hq. unfold slot_given. apply state_eq; try reflexivity.
  cbn [set_fdtab set_objs objs].
  rewrite (alter_live _ p o) by assumption.
  rewrite (alter_live _ q oq) by (rewrite lookup_insert_ne by congruence; assumption).
  rewrite (insert_insert_ne _ q p) by congruence.
  apply released_insert_ne. assumption.
Qed.

Lemma mxio_dup_takes (s : mxio_state) (oldfd newfd lo : Z) (p : ioref) (o : mxio_t) :
  in_table oldfd -> fdtab s !! oldfd = Some p -> objs s !! p = Some o ->
  in_table newfd ->
  (fdtab s !! newfd = None ->
     mxio_dup oldfd newfd lo s
     = Returns newfd (installed (set_objs <[p := acquired o]> s) p (acquired o) newfd)) /\
  (forall q oq, fdtab s !! newfd = Some q -> q <> p -> objs s !! q = Some oq ->
     (1 < dupcount oq -> mxio_dup oldfd newfd lo s = Returns newfd (slot_given newfd p q s)) /\
     (dupcount oq <= 1 ->
        mxio_dup oldfd newfd lo s
        = Returns newfd (try_round (CallClose q) (ops_close q) (slot_given newfd p q s))) /\
     lookup_fd (slot_given newfd p q s) newfd = Some p /\
     lookup_fd (slot_given newfd p q s) oldfd = Some p).
Proof.
  intros Hin Hfd Hp Hnew.
  set (sa := set_objs <[p := acquired o]> s).
  assert (Hpa : objs sa !! p = Some (acquired o)) by apply lookup_insert_eq.
  assert (Hnn : (newfd <? 0) = false)
    by (apply Z.ltb_ge; unfold in_table in Hnew; lia).
  assert (Hlook : forall (t : gmap Z ioref) fd r, in_table fd -> t !! fd = Some r ->
            forall s0, fdtab s0 = t -> lookup_fd s0 fd = Some r).
  { intros t fd r [H0 H1] Hr s0 <-. unfold lookup_fd.
    replace (fd <? 0) with false by (symmetry; apply Z.ltb_ge; lia).
    replace (fd >=? MAX_MXIO_FD) with false
      by (symmetry; rewrite Z.geb_leb; apply Z.leb_gt; lia).
    exact Hr. }
  split.
  - intros Hfree. rewrite (mxio_dup_bound oldfd newfd lo p o s Hin Hfd Hp). fold sa.
    mstep ltac:(rewrite (bind_to_fd_at p newfd lo sa Hnew);
                change (fdtab sa !! newfd) with (fdtab s !! newfd); rewrite Hfree;
                apply (bind_install_free p (acquired o) newfd sa Hnew Hpa)).
    rewrite Hnn. reflexivity.
  - intros q oq Hq Hne Hoq.
    assert (Hqa : objs sa !! q = Some oq)
      by (unfold sa; cbn [set_objs objs]; rewrite lookup_insert_ne by congruence; exact Hoq).
    pose proof (bind_to_fd_replace p q newfd lo oq sa Hnew Hq Hqa) as Hb.
    rewrite (slot_given_eq newfd p q o oq s (not_eq_sym Hne) Hp Hoq).
    split; [|split; [|split]].
    + intros Hd. rewrite (mxio_dup_bound oldfd newfd lo p o s Hin Hfd Hp). fold sa.
      replace (dupcount oq - 1 >? 0) with true in Hb
        by (symmetry; rewrite Z.gtb_ltb; apply Z.ltb_lt; lia).
      set (s2 := set_objs (released q)
                   (set_objs <[q := with_dupcount oq (dupcount oq - 1)]> sa)) in Hb.
      assert (Hp2 : objs s2 !! p = Some (acquired o)).
      { unfold s2. cbn [set_objs objs].
        rewrite lookup_released_ne, lookup_insert_ne by congruence. exact Hpa. }
      mstep ltac:(rewrite Hb; apply (bind_install_free p (acquired o) newfd s2 Hnew Hp2)).
      rewrite Hnn. f_equal. apply state_eq; try reflexivity.
      unfold installed, s2, sa, set_fdtab, set_objs. cbn [objs].
      change (dupcount (acquired o)) with (dupcount o).
      rewrite (insert_insert_ne _ q p) by congruence.
      rewrite released_insert_ne by congruence.
      rewrite insert_insert_eq. reflexivity.
    + intros Hd. rewrite (mxio_dup_bound oldfd newfd lo p o s Hin Hfd Hp). fold sa.
      replace (dupcount oq - 1 >? 0) with false in Hb
        by (symmetry; rewrite Z.gtb_ltb; apply Z.ltb_ge; lia).
      set (oq' := with_dupcount oq (dupcount oq - 1)) in *.
      set (sb := set_objs <[q := oq']> sa) in Hb.
      assert (Hpb : objs sb !! p = Some (acquired o)).
      { unfold sb. cbn [set_objs objs]. rewrite lookup_insert_ne by congruence. exact Hpa. }
      mstep ltac:(rewrite Hb;
                  apply (bind_install_closing p (acquired o) q oq' newfd sb Hnew Hpb);
                  unfold installed, sb; cbn [set_fdtab set_objs objs];
                  rewrite lookup_insert_ne by congruence; apply lookup_insert_eq).
      rewrite Hnn. f_equal. apply state_eq; try reflexivity.
      unfold installed, try_round, set_world, sb, sa, set_fdtab, set_objs. cbn [objs].
      change (dupcount (acquired o)) with (dupcount o).
      rewrite released_insert_ne by congruence.
      rewrite (insert_insert_ne _ q p) by congruence.
      rewrite released_insert_ne by congruence.
      rewrite insert_insert_eq. reflexivity.
    + eapply Hlook; [exact Hnew | | reflexivity].
      cbn [set_fdtab fdtab]. apply lookup_insert_eq.
    + eapply Hlook; [exact Hin | | reflexivity].
      cbn [set_fdtab set_objs fdtab]. rewrite lookup_insert_ne by congruence. exact Hfd.
Qed.

(** X4.  [dup2(oldfd, newfd)] with [oldfd] bound to a live object [p]
    and another fd [newfd] in range returns [newfd], which then names
    [p]; [p] counts one slot and one reference more.  When [newfd] was
    free nothing else changes.  When it was bound to another live object
    [q], that object loses the slot and its reference, and its
    transport's [close] is called exactly when [newfd] was its last slot
    ([dupcount <= 1]). *)
Theorem dup2_takes_slot (s : mxio_state) (oldfd newfd : Z) (p : ioref) (o : mxio_t) :
  in_table oldfd -> fdtab s !! oldfd = Some p -> objs s !! p = Some o ->
  in_table newfd ->
  (fdtab s !! newfd = None ->
     dup2 oldfd newfd s
     = Returns newfd (installed (set_objs <[p := acquired o]> s) p (acquired o) newfd)) /\
  (forall q oq, fdtab s !! newfd = Some q -> q <> p -> objs s !! q = Some oq ->
     (1 < dupcount oq -> dup2 oldfd newfd s = Returns newfd (slot_given newfd p q s)) /\
     (dupcount oq <= 1 ->
        dup2 oldfd newfd s
        = Returns newfd (try_round (CallClose q) (ops_close q) (slot_given newfd p q s))) /\
     lookup_fd (slot_given newfd p q s) newfd = Some p /\
     lookup_fd (slot_given newfd p q s) oldfd = Some p).
Proof.
  intros Hin Hfd Hp Hnew. unfold dup2.
  exact (mxio_dup_takes s oldfd newfd 0 p o Hin Hfd Hp Hnew).
Qed.

(** X5.  [mxio_unbind_from_fd] on an fd that is not negative: an fd of
    at least [MAX_MXIO_FD] or with an empty slot yields ERR_INVALID_ARGS;
    an fd whose object is bound to another slot as well or is in use
    ([dupcount > 1] or [refcount > 1]) yields ERR_UNAVAILABLE; in both
    cases nothing changes.  Otherwise the result is NO_ERROR with the
    object handed out: its [dupcount] is 0, the slot is empty, and every
    other slot is as before. *)
Theorem mxio_unbind_from_fd_in_range (s : mxio_state) (fd : Z) :
  0 <= fd ->
  (MAX_MXIO_FD <= fd \/ fdtab s !! fd = None ->
     mxio_unbind_from_fd fd s = Returns (Err ERR_INVALID_ARGS, None) s) /\
  (forall p o, fd < MAX_MXIO_FD -> fdtab s !! fd = Some p -> objs s !! p = Some o ->
     (1 < dupcount o \/ 1 < refcount o ->
        mxio_unbind_from_fd fd s = Returns (Err ERR_UNAVAILABLE, None) s) /\
     (dupcount o <= 1 -> refcount o <= 1 ->
        exists s', mxio_unbind_from_fd fd s = Returns (NO_ERROR, Some p) s' /\
                   bad_fd s' fd /\
                   objs s' !! p = Some (with_dupcount o 0) /\
                   (forall fd', fd' <> fd -> fdtab s' !! fd' = fdtab s !! fd') /\
                   calls s' = calls s)).
Proof.
  intros H0. split.
  - intros [Hhigh|Hnone]; [apply unbind_out_of_range_high; exact Hhigh|].
    destruct (Z_lt_ge_dec fd MAX_MXIO_FD) as [Hlt|Hge].
    + apply unbind_unbound; [split; assumption | exact Hnone].
    + apply unbind_out_of_range_high. lia.
  - intros p o Hlt Hfd Hp.
    assert (Hin : in_table fd) by (split; assumption).
    split; [exact (unbind_unavailable fd p o s Hin Hfd Hp)|].
    intros Hd Hr. rewrite (unbind_prefix fd s Hin), Hfd, Hp.
    replace (dupcount o >? 1) with false
      by (symmetry; rewrite Z.gtb_ltb; apply Z.ltb_ge; lia).
    replace (refcount o >? 1) with false
      by (symmetry; rewrite Z.gtb_ltb; apply Z.ltb_ge; lia).
    eexists. split; [reflexivity|]. split; [|split; [|split]].
    + right. right. apply lookup_delete_eq.
    + apply lookup_insert_eq.
    + intros fd' Hne. cbn [set_fdtab fdtab]. apply lookup_delete_ne. congruence.
    + reflexivity.
Qed.

(** *** Operations on a bound fd *)

Lemma release_restores p o s s' :
  objs s !! p = Some o -> 1 <= refcount o -> objs s' = <[p := acquired o]> (objs s) ->
  mxio_release p s' = Returns tt (set_objs (fun _ => objs s) s').
Proof.
  intros Hp Hr Hs'.
  rewrite (release_acquired p o s') by (try rewrite Hs'; try apply lookup_insert_eq; assumption).
  f_equal. apply set_objs_ext. rewrite Hs', insert_insert_eq. apply insert_id. assumption.
Qed.

(** X6.  [write], [pread] and [pwrite] on an fd bound to a live object
    follow the retry discipline of [read].  Each keeps the answer of
    its transport call in an [mx_status_t]: a negative code as it is, a
    count cut to 32 bits.  With NONBLOCK set the transport is tried once
    and that status translated; with NONBLOCK unset every status
    ERR_SHOULD_WAIT is followed by a wait with infinite timeout, for
    MXIO_EVT_WRITABLE in [write] and [pwrite] and for MXIO_EVT_READABLE
    in [pread], and the first other status is translated, after exactly
    those waits and not before. *)
Theorem write_pread_pwrite_retry (s : mxio_state) (fd : Z) (p : ioref) (o : mxio_t)
    (b : addr) (count ofs : Z) :
  in_table fd -> fdtab s !! fd = Some p -> objs s !! p = Some o -> 1 <= refcount o ->
  let cw := CallWrite p b count in
  let fw := ops_write p b count in
  let cr := CallReadAt p b count ofs in
  let fr := ops_read_at p b count ofs in
  let cp := CallWriteAt p b count ofs in
  let fp := ops_write_at p b count ofs in
  let kept f s' := to_mx_status (try_status f s') in
  (Z.land (flags o) MXIO_FLAG_NONBLOCK <> 0 ->
   forall fuel,
     write (S fuel) fd (Some b) count s = STATUS (kept fw s) (try_round cw fw s) /\
     pread (S fuel) fd (Some b) count ofs s = STATUS (kept fr s) (try_round cr fr s) /\
     pwrite (S fuel) fd (Some b) count ofs s = STATUS (kept fp s) (try_round cp fp s))
  /\
  (Z.land (flags o) MXIO_FLAG_NONBLOCK = 0 ->
   forall k fuel,
     (ready_after k cw fw p MXIO_EVT_WRITABLE s ->
      ((k < fuel)%nat ->
       write fuel fd (Some b) count s
       = STATUS (kept fw (rounds k cw fw p MXIO_EVT_WRITABLE s))
                (try_round cw fw (rounds k cw fw p MXIO_EVT_WRITABLE s))) /\
      ((fuel <= k)%nat -> write fuel fd (Some b) count s = OutOfFuel)) /\
     (ready_after k cr fr p MXIO_EVT_READABLE s ->
      ((k < fuel)%nat ->
       pread fuel fd (Some b) count ofs s
       = STATUS (kept fr (rounds k cr fr p MXIO_EVT_READABLE s))
                (try_round cr fr (rounds k cr fr p MXIO_EVT_READABLE s))) /\
      ((fuel <= k)%nat -> pread fuel fd (Some b) count ofs s = OutOfFuel)) /\
     (ready_after k cp fp p MXIO_EVT_WRITABLE s ->
      ((k < fuel)%nat ->
       pwrite fuel fd (Some b) count ofs s
       = STATUS (kept fp (rounds k cp fp p MXIO_EVT_WRITABLE s))
                (try_round cp fp (rounds k cp fp p MXIO_EVT_WRITABLE s))) /\
      ((fuel <= k)%nat -> pwrite fuel fd (Some b) count ofs s = OutOfFuel))).
Proof.
  intros Hin Hfd Hp Hr cw fw cr fr cp fp kept. split.
  - intros Hnb fuel. unfold write, pread, pwrite. split; [|split].
    + exact (blocking_io_nonblock fd p o (fun q => CallWrite q b count)
               (fun q => ops_write q b count) MXIO_EVT_WRITABLE s fuel Hin Hfd Hp Hr Hnb).
    + exact (blocking_io_nonblock fd p o (fun q => CallReadAt q b count ofs)
               (fun q => ops_read_at q b count ofs) MXIO_EVT_READABLE s fuel
               Hin Hfd Hp Hr Hnb).
    + exact (blocking_io_nonblock fd p o (fun q => CallWriteAt q b count ofs)
               (fun q => ops_write_at q b count ofs) MXIO_EVT_WRITABLE s fuel
               Hin Hfd Hp Hr Hnb).
  - intros Hnb k fuel. unfold write, pread, pwrite. split; [|split].
    + intros [Hwait Hdone].
      exact (blocking_io_blocks fd p o (fun q => CallWrite q b count)
               (fun q => ops_write q b count) MXIO_EVT_WRITABLE s k
               Hin Hfd Hp Hr Hnb Hwait Hdone fuel).
    + intros [Hwait Hdone].
      exact (blocking_io_blocks fd p o (fun q => CallReadAt q b count ofs)
               (fun q => ops_read_at q b count ofs) MXIO_EVT_READABLE s k
               Hin Hfd Hp Hr Hnb Hwait Hdone fuel).
    + intros [Hwait Hdone].
      exact (blocking_io_blocks fd p o (fun q => CallWriteAt q b count ofs)
               (fun q => ops_write_at q b count ofs) MXIO_EVT_WRITABLE s k
               Hin Hfd Hp Hr Hnb Hwait Hdone fuel).
Qed.

(** *** readv, writev, preadv, pwritev *)

Lemma iov_loop_empty io iov count s :
  Forall (fun v => iov_len v = 0) iov -> iov_loop io iov count s = Returns count s.
Proof.
  induction 1 as [|v rest Hv _ IH]; [reflexivity|].
  cbn [iov_loop]. rewrite Hv. exact IH.
Qed.

Lemma iov_loop_at_empty io iov count ofs s :
  Forall (fun v => iov_len v = 0) iov -> iov_loop_at io iov count ofs s = Returns count s.
Proof.
  induction 1 as [|v rest Hv _ IH]; [reflexivity|].
  cbn [iov_loop_at]. rewrite Hv. exact IH.
Qed.

Lemma iov_loop_single io v s :
  iov_len v <> 0 -> iov_loop io [v] 0 s = io (iov_base v) (iov_len v) s.
Proof.
  intros Hv. cbn [iov_loop].
  replace (iov_len v =? 0) with false by (symmetry; apply Z.eqb_neq; assumption).
  unfold mbind, M_bind. destruct (io (iov_base v) (iov_len v) s) as [r s'| |]; try reflexivity.
  destruct (r <? 0); [reflexivity|]. destruct (r <? iov_len v); reflexivity.
Qed.

Lemma iov_loop_at_single io v ofs s :
  iov_len v <> 0 -> iov_loop_at io [v] 0 ofs s = io (iov_base v) (iov_len v) ofs s.
Proof.
  intros Hv. cbn [iov_loop_at].
  replace (iov_len v =? 0) with false by (symmetry; apply Z.eqb_neq; assumption).
  unfold mbind, M_bind.
  destruct (io (iov_base v) (iov_len v) ofs s) as [r s'| |]; try reflexivity.
  destruct (r <? 0); [reflexivity|]. destruct (r <? iov_len v); reflexivity.
Qed.

(** X7.  The vectored calls skip entries of length 0: when every entry
    is empty (or there is none) they return 0 and touch nothing, the fd
    is not even looked up.  With one entry that is not empty they are
    the plain call on that buffer. *)
Theorem vectored_io_edges (s : mxio_state) (fuel : nat) (fd ofs : Z) :
  (forall iov, Forall (fun v => iov_len v = 0) iov ->
     readv fuel fd iov s = Returns 0 s /\ writev fuel fd iov s = Returns 0 s /\
     preadv fuel fd iov ofs s = Returns 0 s /\ pwritev fuel fd iov ofs s = Returns 0 s) /\
  (forall v, iov_len v <> 0 ->
     readv fuel fd [v] s = read fuel fd (iov_base v) (iov_len v) s /\
     writev fuel fd [v] s = write fuel fd (iov_base v) (iov_len v) s /\
     preadv fuel fd [v] ofs s = pread fuel fd (iov_base v) (iov_len v) ofs s /\
     pwritev fuel fd [v] ofs s = pwrite fuel fd (iov_base v) (iov_len v) ofs s).
Proof.
  split.
  - intros iov Hiov. unfold readv, writev, preadv, pwritev.
    split; [apply iov_loop_empty; assumption|].
    split; [apply iov_loop_empty; assumption|].
    split; apply iov_loop_at_empty; assumption.
  - intros v Hv. unfold readv, writev, preadv, pwritev.
    split; [apply iov_loop_single; assumption|].
    split; [apply iov_loop_single; assumption|].
    split; apply iov_loop_at_single; assumption.
Qed.

Lemma iov_loop_monotone io iov : forall count s r s',
  Forall (fun v => 0 <= iov_len v) iov -> 0 < count ->
  iov_loop io iov count s = Returns r s' -> count <= r.
Proof.
  induction iov as [|v rest IH]; intros count s r s' Hlen Hc E.
  - injection E as <- _. lia.
  - apply Forall_cons in Hlen as [Hv Hrest]. cbn [iov_loop] in E.
    destruct (iov_len v =? 0) eqn:E0; [eapply IH; eassumption|].
    apply Z.eqb_neq in E0.
    apply bind_inv in E as (r1 & s1 & _ & E).
    destruct (r1 <? 0) eqn:Eneg.
    + replace (count =? 0) with false in E by (symmetry; apply Z.eqb_neq; lia).
      injection E as <- _. lia.
    + apply Z.ltb_ge in Eneg. destruct (r1 <? iov_len v) eqn:Eshort.
      * injection E as <- _. lia.
      * apply IH in E; [lia | assumption | lia].
Qed.

Lemma iov_loop_at_monotone io iov : forall count ofs s r s',
  Forall (fun v => 0 <= iov_len v) iov -> 0 < count ->
  iov_loop_at io iov count ofs s = Returns r s' -> count <= r.
Proof.
  induction iov as [|v rest IH]; intros count ofs s r s' Hlen Hc E.
  - injection E as <- _. lia.
  - apply Forall_cons in Hlen as [Hv Hrest]. cbn [iov_loop_at] in E.
    destruct (iov_len v =? 0) eqn:E0; [eapply IH; eassumption|].
    apply Z.eqb_neq in E0.
    apply bind_inv in E as (r1 & s1 & _ & E).
    destruct (r1 <? 0) eqn:Eneg.
    + replace (count =? 0) with false in E by (symmetry; apply Z.eqb_neq; lia).
      injection E as <- _. lia.
    + apply Z.ltb_ge in Eneg. destruct (r1 <? iov_len v) eqn:Eshort.
      * injection E as <- _. lia.
      * apply IH in E; [lia | assumption | lia].
Qed.

Lemma iov_loop_first io v rest s r1 s1 :
  0 < iov_len v -> Forall (fun v => 0 <= iov_len v) rest ->
  io (iov_base v) (iov_len v) s = Returns r1 s1 ->
  (r1 < iov_len v -> iov_loop io (v :: rest) 0 s = Returns r1 s1) /\
  (iov_len v <= r1 ->
     iov_loop io (v :: rest) 0 s = iov_loop io rest r1 s1 /\
     forall r s', iov_loop io (v :: rest) 0 s = Returns r s' -> r1 <= r).
Proof.
  intros Hv Hrest E1.
  assert (E : iov_loop io (v :: rest) 0 s =
              if r1 <? 0 then Returns r1 s1
              else if r1 <? iov_len v then Returns r1 s1
              else iov_loop io rest r1 s1).
  { cbn [iov_loop].
    replace (iov_len v =? 0) with false by (symmetry; apply Z.eqb_neq; lia).
    erewrite bind_returns by exact E1. cbn beta.
    destruct (r1 <? 0); [reflexivity|]. destruct (r1 <? iov_len v); reflexivity. }
  rewrite E. split.
  - intros Hshort. destruct (r1 <? 0); [reflexivity|].
    replace (r1 <? iov_len v) with true by (symmetry; apply Z.ltb_lt; assumption).
    reflexivity.
  - intros Hfull.
    replace (r1 <? 0) with false by (symmetry; apply Z.ltb_ge; lia).
    replace (r1 <? iov_len v) with false by (symmetry; apply Z.ltb_ge; assumption).
    split; [reflexivity|]. intros r s' Er.
    apply iov_loop_monotone in Er; [assumption | assumption | lia].
Qed.

Lemma iov_loop_at_first io v rest ofs s r1 s1 :
  0 < iov_len v -> Forall (fun v => 0 <= iov_len v) rest ->
  io (iov_base v) (iov_len v) ofs s = Returns r1 s1 ->
  (r1 < iov_len v -> iov_loop_at io (v :: rest) 0 ofs s = Returns r1 s1) /\
  (iov_len v <= r1 ->
     iov_loop_at io (v :: rest) 0 ofs s = iov_loop_at io rest r1 (ofs + r1) s1 /\
     forall r s', iov_loop_at io (v :: rest) 0 ofs s = Returns r s' -> r1 <= r).
Proof.
  intros Hv Hrest E1.
  assert (E : iov_loop_at io (v :: rest) 0 ofs s =
              if r1 <? 0 then Returns r1 s1
              else if r1 <? iov_len v then Returns r1 s1
              else iov_loop_at io rest r1 (ofs + r1) s1).
  { cbn [iov_loop_at].
    replace (iov_len v =? 0) with false by (symmetry; apply Z.eqb_neq; lia).
    erewrite bind_returns by exact E1. cbn beta.
    destruct (r1 <? 0); [reflexivity|]. destruct (r1 <? iov_len v); reflexivity. }
  rewrite E. split.
  - intros Hshort. destruct (r1 <? 0); [reflexivity|].
    replace (r1 <? iov_len v) with true by (symmetry; apply Z.ltb_lt; assumption).
    reflexivity.
  - intros Hfull.
    replace (r1 <? 0) with false by (symmetry; apply Z.ltb_ge; lia).
    replace (r1 <? iov_len v) with false by (symmetry; apply Z.ltb_ge; assumption).
    split; [reflexivity|]. intros r s' Er.
    apply iov_loop_at_monotone in Er; [assumption | assumption | lia].
Qed.

(** X8.  A vectored call whose first entry is not empty stops at that
    entry when the plain call on it fails or transfers less than the
    entry holds, and returns what that call returned.  When the first
    entry is filled the call goes on with the next entries (at the
    advanced offset for [preadv] and [pwritev]), and whatever they do
    its result is at least the count of the first: a failure after some
    bytes were transferred is not reported as -1. *)
Theorem vectored_io_progress (s s1 : mxio_state) (fuel : nat) (fd ofs r1 : Z)
    (v : iovec) (rest : list iovec) :
  0 < iov_len v -> Forall (fun v => 0 <= iov_len v) rest ->
  (read fuel fd (iov_base v) (iov_len v) s = Returns r1 s1 ->
   (r1 < iov_len v -> readv fuel fd (v :: rest) s = Returns r1 s1) /\
   (iov_len v <= r1 ->
      readv fuel fd (v :: rest) s = iov_loop (read fuel fd) rest r1 s1 /\
      forall r s', readv fuel fd (v :: rest) s = Returns r s' -> r1 <= r)) /\
  (write fuel fd (iov_base v) (iov_len v) s = Returns r1 s1 ->
   (r1 < iov_len v -> writev fuel fd (v :: rest) s = Returns r1 s1) /\
   (iov_len v <= r1 ->
      writev fuel fd (v :: rest) s = iov_loop (write fuel fd) rest r1 s1 /\
      forall r s', writev fuel fd (v :: rest) s = Returns r s' -> r1 <= r)) /\
  (pread fuel fd (iov_base v) (iov_len v) ofs s = Returns r1 s1 ->
   (r1 < iov_len v -> preadv fuel fd (v :: rest) ofs s = Returns r1 s1) /\
   (iov_len v <= r1 ->
      preadv fuel fd (v :: rest) ofs s
      = iov_loop_at (pread fuel fd) rest r1 (ofs + r1) s1 /\
      forall r s', preadv fuel fd (v :: rest) ofs s = Returns r s' -> r1 <= r)) /\
  (pwrite fuel fd (iov_base v) (iov_len v) ofs s = Returns r1 s1 ->
   (r1 < iov_len v -> pwritev fuel fd (v :: rest) ofs s = Returns r1 s1) /\
   (iov_len v <= r1 ->
      pwritev fuel fd (v :: rest) ofs s
      = iov_loop_at (pwrite fuel fd) rest r1 (ofs + r1) s1 /\
      forall r s', pwritev fuel fd (v :: rest) ofs s = Returns r s' -> r1 <= r)).
Proof.
  intros Hv Hrest. unfold readv, writev, preadv, pwritev.
  split; [intros E1; apply iov_loop_first; assumption|].
  split; [intros E1; apply iov_loop_first; assumption|].
  split; intros E1; apply iov_loop_at_first; assumption.
Qed.

(** *** fcntl: the flag words *)

Lemma land_lor_mask f a m :
  Z.land (Z.lor (Z.land f (Z.lnot m)) (Z.land a m)) m = Z.land a m.
Proof.
  apply Z.bits_inj'. intros n Hn.
  rewrite !Z.land_spec, Z.lor_spec, !Z.land_spec, Z.lnot_spec by assumption.
  destruct (Z.testbit f n), (Z.testbit a n), (Z.testbit m n); reflexivity.
Qed.

Lemma land_lor_same f m : Z.land (Z.lor f m) m = m.
Proof.
  apply Z.bits_inj'. intros n Hn. rewrite Z.land_spec, Z.lor_spec.
  destruct (Z.testbit f n), (Z.testbit m n); reflexivity.
Qed.

Lemma land_lnot_same f m : Z.land (Z.land f (Z.lnot m)) m = 0.
Proof.
  apply Z.bits_inj'. intros n Hn.
  rewrite !Z.land_spec, Z.lnot_spec, Z.bits_0 by assumption.
  destruct (Z.testbit f n), (Z.testbit m n); reflexivity.
Qed.

(** A command of [fcntl] that reads the object and answers [g o]. *)
Lemma fd_peek fd p o s (g : mxio_t -> Z) :
  in_table fd -> fdtab s !! fd = Some p -> objs s !! p = Some o -> 1 <= refcount o ->
  (io ← __mxio_fd_to_io fd;
   match io with
   | None => ERRNO EBADF
   | Some q => o' ← deref q; _ ← mxio_release q; mret (g o')
   end) s = Returns (g (acquired o)) s.
Proof.
  intros Hin Hfd Hp Hr.
  mstep ltac:(eapply fd_to_io_bound; eassumption).
  mstep ltac:(apply deref_live; apply lookup_insert_eq).
  mstep ltac:(eapply (release_restores p o s); [exact Hp | exact Hr | reflexivity]).
  f_equal. apply state_eq; reflexivity.
Qed.

(** A command of [fcntl] that stores the flag word [g o]. *)
Lemma fd_poke fd p o s (g : mxio_t -> Z) :
  in_table fd -> fdtab s !! fd = Some p -> objs s !! p = Some o -> 1 <= refcount o ->
  (io ← __mxio_fd_to_io fd;
   match io with
   | None => ERRNO EBADF
   | Some q => o' ← deref q; _ ← set_flags q (g o'); _ ← mxio_release q; mret 0
   end) s = Returns 0 (set_objs <[p := with_flags o (g (acquired o))]> s).
Proof.
  intros Hin Hfd Hp Hr.
  mstep ltac:(eapply fd_to_io_bound; eassumption).
  mstep ltac:(apply deref_live; apply lookup_insert_eq).
  mstep ltac:(apply set_flags_live; apply lookup_insert_eq).
  mstep ltac:(apply (release_acquired p (with_flags o (g (acquired o))));
              [apply lookup_insert_eq | exact Hr]).
  f_equal. apply state_eq; try reflexivity.
  cbn [set_objs objs]. rewrite !insert_insert_eq. reflexivity.
Qed.

(** X9.  On an fd bound to a live object, [fcntl(fd, F_SETFL, arg)]
    returns 0 and sets or clears the object's NONBLOCK flag after the
    O_NONBLOCK bit of [arg], leaving the rest of the flag word; a
    following F_GETFL reports O_NONBLOCK exactly when it was set, and
    nothing of the other bits of [arg].  Once set, a [read] that finds
    the transport not ready returns -1 with errno EAGAIN. *)
Theorem fcntl_setfl_getfl (s : mxio_state) (fd arg : Z) (p : ioref) (o : mxio_t) :
  in_table fd -> fdtab s !! fd = Some p -> objs s !! p = Some o -> 1 <= refcount o ->
  MXIO_FLAG_NONBLOCK <> 0 ->
  let nb := negb (Z.land arg O_NONBLOCK =? 0) in
  let s1 := set_objs <[p := with_flags o
                          (if nb then Z.lor (flags o) MXIO_FLAG_NONBLOCK
                           else Z.land (flags o) (Z.lnot MXIO_FLAG_NONBLOCK))]> s in
  fcntl fd F_SETFL arg s = Returns 0 s1 /\
  fcntl fd F_GETFL 0 s1 = Returns (if nb then O_NONBLOCK else 0) s1 /\
  (nb = true ->
   forall b count fuel,
     try_status (ops_read p b count) s = Err ERR_SHOULD_WAIT ->
     read (S fuel) fd (Some b) count s1
     = Returns (-1) (set_errno EAGAIN
                       (try_round (CallRead p b count) (ops_read p b count) s1))).
Proof.
  intros Hin Hfd Hp Hr Hnz nb s1.
  set (f' := if nb then Z.lor (flags o) MXIO_FLAG_NONBLOCK
             else Z.land (flags o) (Z.lnot MXIO_FLAG_NONBLOCK)).
  assert (Hp1 : objs s1 !! p = Some (with_flags o f')) by apply lookup_insert_eq.
  assert (Hbit : (Z.land f' MXIO_FLAG_NONBLOCK =? 0) = negb nb).
  { unfold f'. destruct nb; cbn [negb].
    - rewrite land_lor_same. apply Z.eqb_neq. assumption.
    - rewrite land_lnot_same. reflexivity. }
  split; [|split].
  - unfold fcntl.
    rewrite (fd_poke fd p o s
               (fun o' => if Z.land arg O_NONBLOCK =? 0
                          then Z.land (flags o') (Z.lnot MXIO_FLAG_NONBLOCK)
                          else Z.lor (flags o') MXIO_FLAG_NONBLOCK) Hin Hfd Hp Hr).
    unfold s1, nb. cbn [acquired flags].
    destruct (Z.land arg O_NONBLOCK =? 0); reflexivity.
  - unfold fcntl.
    rewrite (fd_peek fd p (with_flags o f') s1
               (fun o' => if Z.land (flags o') MXIO_FLAG_NONBLOCK =? 0 then 0 else O_NONBLOCK)
               Hin Hfd Hp1 Hr).
    cbn [acquired with_flags flags]. rewrite Hbit. destruct nb; reflexivity.
  - intros Hnb b count fuel Hst. unfold read.
    rewrite (blocking_io_nonblock fd p (with_flags o f') (fun q => CallRead q b count)
               (fun q => ops_read q b count) MXIO_EVT_READABLE s1 fuel Hin Hfd Hp1 Hr).
    + change (stored_status (ops_read p b count) s1)
        with (to_mx_status (try_status (ops_read p b count) s)).
      rewrite Hst. reflexivity.
    + cbn [with_flags flags]. apply Z.eqb_neq. rewrite Hbit, Hnb. reflexivity.
Qed.

(** X10.  On an fd bound to a live object, [fcntl(fd, F_SETFD, arg)]
    returns 0 and replaces the bits of the flag word under
    MXIO_FD_FLAGS by those of [arg]; a following F_GETFD returns
    [arg & MXIO_FD_FLAGS], F_GETFD before it returns the old bits, and
    neither changes anything else: the reference the lookup took is
    given back.  (The mask MXIO_FD_FLAGS is not negative, so the value
    F_GETFD asserts to be non-negative is.) *)
Theorem fcntl_setfd_getfd (s : mxio_state) (fd arg : Z) (p : ioref) (o : mxio_t) :
  in_table fd -> fdtab s !! fd = Some p -> objs s !! p = Some o -> 1 <= refcount o ->
  0 <= MXIO_FD_FLAGS ->
  let s1 := set_objs <[p := with_flags o
                          (Z.lor (Z.land (flags o) (Z.lnot MXIO_FD_FLAGS))
                                 (Z.land arg MXIO_FD_FLAGS))]> s in
  fcntl fd F_GETFD 0 s = Returns (Z.land (flags o) MXIO_FD_FLAGS) s /\
  fcntl fd F_SETFD arg s = Returns 0 s1 /\
  fcntl fd F_GETFD 0 s1 = Returns (Z.land arg MXIO_FD_FLAGS) s1 /\
  0 <= Z.land (flags o) MXIO_FD_FLAGS /\ 0 <= Z.land arg MXIO_FD_FLAGS.
Proof.
  intros Hin Hfd Hp Hr Hmask s1.
  split; [|split; [|split; [|split; apply Z.land_nonneg; right; assumption]]].
  - unfold fcntl.
    exact (fd_peek fd p o s (fun o' => Z.land (flags o') MXIO_FD_FLAGS) Hin Hfd Hp Hr).
  - unfold fcntl.
    exact (fd_poke fd p o s
             (fun o' => Z.lor (Z.land (flags o') (Z.lnot MXIO_FD_FLAGS))
                              (Z.land arg MXIO_FD_FLAGS)) Hin Hfd Hp Hr).
  - unfold fcntl.
    rewrite (fd_peek fd p _ s1 (fun o' => Z.land (flags o') MXIO_FD_FLAGS)
               Hin Hfd (lookup_insert_eq _ _ _) Hr).
    cbn [acquired with_flags flags]. rewrite land_lor_mask. reflexivity.
Qed.

(** *** fstat, futimens, isatty *)

Lemma mxio_stat_live p o s :
  objs s !! p = Some o ->
  let c := CallMisc p MXRIO_STAT 0 (Z.of_N sizeof_vnattr) MiscStatBuf 0 in
  let f := ops_misc p MXRIO_STAT 0 (Z.of_N sizeof_vnattr) MiscStatBuf 0 in
  mxio_stat p s
  = Returns (match try_status f s with
             | Err _ => Err ERR_BAD_HANDLE
             | Ok n => if (n <? sizeof_vnattr)%N then Err ERR_IO else Ok 0
             end) (try_round c f s).
Proof.
  intros Hp c f. unfold mxio_stat.
  mstep ltac:(eapply op_call_live; exact Hp). fold c f.
  unfold try_status, try_round. destruct (f (world s)) as [[n|e] w]; cbn [fst snd].
  - destruct (n <? sizeof_vnattr)%N; reflexivity.
  - reflexivity.
Qed.

(** X11.  [fstat] on an fd bound to a live object asks the transport
    for the attributes once and gives the reference back.  Whatever
    error the transport answers, the result is -1 with errno EBADF; a
    reply shorter than the attribute record gives -1 with errno EIO; a
    full reply gives 0 and leaves errno. *)
Theorem fstat_result (s : mxio_state) (fd : Z) (p : ioref) (o : mxio_t) :
  in_table fd -> fdtab s !! fd = Some p -> objs s !! p = Some o -> 1 <= refcount o ->
  let c := CallMisc p MXRIO_STAT 0 (Z.of_N sizeof_vnattr) MiscStatBuf 0 in
  let f := ops_misc p MXRIO_STAT 0 (Z.of_N sizeof_vnattr) MiscStatBuf 0 in
  fstat fd s =
  match try_status f s with
  | Err _ => Returns (-1) (set_errno EBADF (try_round c f s))
  | Ok n =>
      if (n <? sizeof_vnattr)%N then Returns (-1) (set_errno EIO (try_round c f s))
      else Returns 0 (try_round c f s)
  end.
Proof.
  intros Hin Hfd Hp Hr c f. unfold fstat.
  mstep ltac:(eapply fd_to_io_bound; eassumption).
  set (sa := set_objs <[p := acquired o]> s).
  assert (Hrel : forall s', objs s' = objs sa ->
            mxio_release p s' = Returns tt (set_objs (fun _ => objs s) s')).
  { intros s' Hs'. apply (release_restores p o s); [exact Hp | exact Hr | exact Hs']. }
  mstep ltac:(apply (mxio_stat_live p (acquired o) sa); apply lookup_insert_eq).
  fold c f. change (try_status f sa) with (try_status f s).
  destruct (try_status f s) as [n|e].
  - destruct (n <? sizeof_vnattr)%N.
    + mstep ltac:(reflexivity). mstep ltac:(apply Hrel; reflexivity).
      mdone.
    + mstep ltac:(reflexivity). mstep ltac:(apply Hrel; reflexivity).
      mdone.
  - mstep ltac:(reflexivity). mstep ltac:(apply Hrel; reflexivity).
    reflexivity.
Qed.

(** X12.  [isatty] answers by the number of the fd alone: 1 for a bound
    fd 0, 1 or 2, with nothing changed; 0 with errno ENOTTY for any
    other bound fd; 0 with errno EBADF for an fd that names no object.
    No transport is asked. *)
Theorem isatty_by_number (s : mxio_state) (fd : Z) :
  (bad_fd s fd -> isatty fd s = Returns 0 (set_errno EBADF s)) /\
  (forall p o, in_table fd -> fdtab s !! fd = Some p -> objs s !! p = Some o ->
     1 <= refcount o ->
     isatty fd s = if bool_decide (fd = 0 \/ fd = 1 \/ fd = 2) then Returns 1 s
                   else Returns 0 (set_errno ENOTTY s)).
Proof.
  split.
  - intros Hb. unfold isatty. mstep ltac:(apply fd_to_io_bad; exact Hb). reflexivity.
  - intros p o Hin Hfd Hp Hr. unfold isatty.
    mstep ltac:(eapply fd_to_io_bound; eassumption).
    set (sa := set_objs <[p := acquired o]> s).
    assert (Hrel : forall s', objs s' = objs sa ->
              mxio_release p s' = Returns tt (set_objs (fun _ => objs s) s')).
    { intros s' Hs'. apply (release_restores p o s); [exact Hp | exact Hr | exact Hs']. }
    case_bool_decide as Hstd.
    + replace ((fd =? 0) || (fd =? 1) || (fd =? 2)) with true.
      2:{ symmetry. destruct Hstd as [->|[->| ->]]; reflexivity. }
      mstep ltac:(reflexivity). mstep ltac:(apply Hrel; reflexivity).
      mdone.
    + replace ((fd =? 0) || (fd =? 1) || (fd =? 2)) with false.
      2:{ symmetry. apply orb_false_intro; [apply orb_false_intro|]; apply Z.eqb_neq; tauto. }
      mstep ltac:(reflexivity). mstep ltac:(apply Hrel; reflexivity).
      mdone.
Qed.

(** *** mxio_wait_fd *)

(** X13.  [mxio_wait_fd] on an fd that names no object returns
    ERR_BAD_HANDLE and changes nothing.  On an fd bound to a live object
    it gives back the reference it took in every case: when
    [wait_begin] yields no handle it returns ERR_INVALID_ARGS without a
    kernel call; otherwise it waits once on the handle with the given
    timeout, and reports the events of [wait_end] both on success and
    on ERR_TIMED_OUT, while any other error is returned with the
    requested events untouched. *)
Theorem mxio_wait_fd_result (s : mxio_state) (fd events timeout : Z) :
  (bad_fd s fd -> mxio_wait_fd fd events timeout s = Returns (Err ERR_BAD_HANDLE, events) s) /\
  (forall p o, in_table fd -> fdtab s !! fd = Some p -> objs s !! p = Some o ->
     1 <= refcount o ->
     let h := (ops_wait_begin p events).1 in
     let signals := (ops_wait_begin p events).2 in
     let ans := mx_object_wait_one h signals timeout (world s) in
     let s' := set_world (CallWaitOne h signals timeout) ans.2 s in
     (h = MX_HANDLE_INVALID ->
        mxio_wait_fd fd events timeout s = Returns (Err ERR_INVALID_ARGS, events) s) /\
     (h <> MX_HANDLE_INVALID ->
        mxio_wait_fd fd events timeout s =
        if is_err ans.1.1 && negb (bool_decide (ans.1.1 = Err ERR_TIMED_OUT))
        then Returns (ans.1.1, events) s'
        else Returns (ans.1.1, ops_wait_end p ans.1.2) s')).
Proof.
  split.
  - intros Hb. unfold mxio_wait_fd. mstep ltac:(apply fd_to_io_bad; exact Hb). reflexivity.
  - intros p o Hin Hfd Hp Hr h signals ans s'.
    set (sa := set_objs <[p := acquired o]> s).
    assert (Hrel : forall s0, objs s0 = objs sa ->
              mxio_release p s0 = Returns tt (set_objs (fun _ => objs s) s0)).
    { intros s0 Hs0. apply (release_restores p o s); [exact Hp | exact Hr | exact Hs0]. }
    assert (Hpre : mxio_wait_fd fd events timeout s =
              (_ ← deref p;
               let '(h, signals) := ops_wait_begin p events in
               if h =? MX_HANDLE_INVALID then
                 _ ← mxio_release p; mret (Err ERR_INVALID_ARGS, events)
               else
                 '(r, pending) ← extern (CallWaitOne h signals timeout)
                                         (mx_object_wait_one h signals timeout);
                 if is_err r && negb (bool_decide (r = Err ERR_TIMED_OUT)) then
                   _ ← mxio_release p; mret (r, events)
                 else
                   _ ← deref p;
                   let events' := ops_wait_end p pending in
                   _ ← mxio_release p; mret (r, events')) sa).
    { unfold mxio_wait_fd. mstep ltac:(eapply fd_to_io_bound; eassumption). reflexivity. }
    rewrite Hpre. clear Hpre.
    mstep ltac:(apply deref_live; apply lookup_insert_eq).
    subst s' ans signals h.
    destruct (ops_wait_begin p events) as [h signals]. cbn [fst snd].
    split.
    + intros ->. rewrite Z.eqb_refl.
      mstep ltac:(apply Hrel; reflexivity). mdone.
    + intros Hh. replace (h =? MX_HANDLE_INVALID) with false
        by (symmetry; apply Z.eqb_neq; assumption).
      mstep ltac:(apply extern_returns).
      change (world sa) with (world s).
      destruct (mx_object_wait_one h signals timeout (world s)) as [[r pending] w].
      cbn [fst snd].
      destruct (is_err r && negb (bool_decide (r = Err ERR_TIMED_OUT))).
      * mstep ltac:(apply Hrel; reflexivity). mdone.
      * mstep ltac:(apply deref_live; apply lookup_insert_eq).
        mstep ltac:(apply Hrel; reflexivity). mdone.
Qed.

(** *** Paths: the directory of open, chdir and mkdir *)

Lemma iodir_found path dirfd s :
  mxio_iodir path dirfd s =
  match (iodir_of s path dirfd).1 with
  | Some d => (_ ← mxio_acquire d; mret (iodir_of s path dirfd)) s
  | None => Returns (iodir_of s path dirfd) s
  end.
Proof.
  unfold mxio_iodir, iodir_of.
  destruct (Ascii.eqb (char_at path 0) slash).
  { mstep ltac:(mstep ltac:(reflexivity); reflexivity).
    destruct (root_handle s); reflexivity. }
  destruct (dirfd =? AT_FDCWD).
  { mstep ltac:(mstep ltac:(reflexivity); reflexivity).
    destruct (cwd_handle s); reflexivity. }
  destruct ((0 <=? dirfd) && (dirfd <? MAX_MXIO_FD)) eqn:Ein.
  - apply andb_true_iff in Ein as [E0 E1]. apply Z.leb_le in E0. apply Z.ltb_lt in E1.
    mstep ltac:(mstep ltac:(apply tab_get_in; split; assumption); reflexivity).
    destruct (fdtab s !! dirfd); reflexivity.
  - mstep ltac:(reflexivity). reflexivity.
Qed.

Lemma acquire_live p o s :
  objs s !! p = Some o -> mxio_acquire p s = Returns tt (set_objs <[p := acquired o]> s).
Proof.
  intros Hp. unfold mxio_acquire. mstep ltac:(apply deref_live; exact Hp). reflexivity.
Qed.

Lemma next_object_fresh s : objs s !! next_object s = None.
Proof. unfold next_object. apply not_elem_of_dom. apply is_fresh. Qed.

Lemma next_object_acquired p o s :
  objs s !! p = Some o -> next_object (set_objs <[p := acquired o]> s) = next_object s.
Proof.
  intros Hp. unfold next_object. cbn [set_objs objs].
  rewrite dom_insert_lookup_L by (rewrite Hp; eauto). reflexivity.
Qed.

(** [__mxio_open_at] once the directory is found: one call of the
    transport's [open], and on success the new object with one
    reference. *)
Lemma open_at_dir dirfd p d p' od oflags mode s :
  char_at p 0 <> NUL -> iodir_of s p dirfd = (Some d, p') ->
  objs s !! d = Some od -> 1 <= refcount od ->
  __mxio_open_at dirfd (Some p) oflags mode s =
  let ans := open_answer d p' oflags mode s in
  if is_err ans.1.1 then Returns (ans.1.1, None) (opened d p' oflags mode s)
  else Returns (ans.1.1, Some (next_object s))
         (set_objs <[next_object s := {| flags := ans.1.2; refcount := 1; dupcount := 0 |}]>
            (opened d p' oflags mode s)).
Proof.
  intros Hnul Hdir Hd Hr. unfold __mxio_open_at.
  replace (Ascii.eqb (char_at p 0) NUL) with false
    by (symmetry; apply Ascii.eqb_neq; assumption).
  mstep ltac:(rewrite iodir_found, Hdir; cbn [fst];
              mstep ltac:(apply acquire_live; exact Hd); reflexivity).
  set (sa := set_objs <[d := acquired od]> s).
  mstep ltac:(reflexivity).
  assert (Hn : next_object sa = next_object s) by (apply next_object_acquired; exact Hd).
  fold (next_object sa). rewrite Hn.
  mstep ltac:(eapply op_call_live; apply lookup_insert_eq).
  change (world sa) with (world s).
  fold (open_answer d p' oflags mode s). fold (open_call d p' oflags mode s).
  cbv zeta.
  destruct (open_answer d p' oflags mode s) as [[r fl] w] eqn:Eans. cbn [fst snd].
  assert (Eopened : opened d p' oflags mode s = set_world (open_call d p' oflags mode s) w s).
  { unfold opened. rewrite Eans. reflexivity. }
  rewrite Eopened.
  destruct (is_err r).
  - mstep ltac:(reflexivity).
    mstep ltac:(apply (release_restores d od s); [exact Hd | exact Hr | reflexivity]).
    mdone.
  - pose proof (next_object_fresh s) as Hfresh.
    assert (Hne : next_object s <> d) by congruence.
    mstep ltac:(mstep ltac:(reflexivity); reflexivity).
    mstep ltac:(apply (release_acquired d od);
                [cbn [set_objs set_world objs sa];
                 rewrite lookup_insert_ne by exact Hne; apply lookup_insert_eq
                | exact Hr]).
    cbv [mret M_ret]. f_equal. apply state_eq; try reflexivity.
    cbn [set_objs set_world objs sa].
    rewrite (insert_insert_ne _ d (next_object s)) by congruence.
    rewrite insert_insert_eq. f_equal. apply insert_id. exact Hd.
Qed.

Lemma open_at_no_dir dirfd p p' oflags mode s :
  char_at p 0 <> NUL -> iodir_of s p dirfd = (None, p') ->
  __mxio_open_at dirfd (Some p) oflags mode s = Returns (Err ERR_BAD_HANDLE, None) s.
Proof.
  intros Hnul Hdir. unfold __mxio_open_at.
  replace (Ascii.eqb (char_at p 0) NUL) with false
    by (symmetry; apply Ascii.eqb_neq; assumption).
  mstep ltac:(rewrite iodir_found, Hdir; reflexivity). reflexivity.
Qed.

Lemma open_at_no_path dirfd path oflags mode s :
  path = None \/ path = Some [] ->
  __mxio_open_at dirfd path oflags mode s = Returns (Err ERR_INVALID_ARGS, None) s.
Proof. intros [->| ->]; reflexivity. Qed.

(** X14.  How [openat] picks the directory.  A path that is NULL or
    empty gives -1 with errno EINVAL for every dirfd and every flag
    word.  A path that starts with a slash is resolved the same way
    whatever [dirfd] is, valid or not.  A relative path with a [dirfd]
    that is neither AT_FDCWD nor a bound fd gives -1 with errno EBADF,
    unless the flags are refused (O_CREAT with O_DIRECTORY).  In the
    two failing cases nothing but errno changes. *)
Theorem openat_directory (s : mxio_state) (oflags mode_arg : Z) :
  (forall dirfd path, path = None \/ path = Some [] ->
     openat dirfd path oflags mode_arg s = Returns (-1) (set_errno EINVAL s)) /\
  (forall dirfd dirfd' p,
     openat dirfd (Some (slash :: p)) oflags mode_arg s
     = openat dirfd' (Some (slash :: p)) oflags mode_arg s) /\
  (forall dirfd p,
     char_at p 0 <> NUL -> char_at p 0 <> slash ->
     dirfd <> AT_FDCWD -> bad_fd s dirfd ->
     Z.land oflags O_CREAT = 0 \/ Z.land oflags O_DIRECTORY = 0 ->
     openat dirfd (Some p) oflags mode_arg s = Returns (-1) (set_errno EBADF s)).
Proof.
  split; [|split].
  - intros dirfd path Hpath. unfold openat, vopenat.
    destruct (negb (Z.land oflags O_CREAT =? 0) && negb (Z.land oflags O_DIRECTORY =? 0));
      [reflexivity|].
    mstep ltac:(apply open_at_no_path; exact Hpath). reflexivity.
  - intros dirfd dirfd' p. unfold openat, vopenat, __mxio_open_at, mxio_iodir.
    cbn [char_at nth]. replace (Ascii.eqb slash slash) with true by reflexivity.
    reflexivity.
  - intros dirfd p Hnul Hrel Hcwd Hbad Hflags. unfold openat, vopenat.
    replace (negb (Z.land oflags O_CREAT =? 0) && negb (Z.land oflags O_DIRECTORY =? 0))
      with false.
    2:{ symmetry. destruct Hflags as [-> | ->]; [reflexivity | apply andb_false_r]. }
    assert (Hdir : iodir_of s p dirfd = (None, p)).
    { unfold iodir_of.
      replace (Ascii.eqb (char_at p 0) slash) with false
        by (symmetry; apply Ascii.eqb_neq; assumption).
      replace (dirfd =? AT_FDCWD) with false by (symmetry; apply Z.eqb_neq; assumption).
      destruct ((0 <=? dirfd) && (dirfd <? MAX_MXIO_FD)) eqn:Ein; [|reflexivity].
      apply andb_true_iff in Ein as [E0 E1]. apply Z.leb_le in E0. apply Z.ltb_lt in E1.
      destruct Hbad as [Hb|[Hb|Hb]]; [lia | lia | rewrite Hb; reflexivity]. }
    mstep ltac:(eapply open_at_no_dir; eassumption). reflexivity.
Qed.

Lemma bind_is {A B} (m : M A) (k : A -> M B) s r :
  m s = r ->
  (m ≫= k) s = match r with
               | Returns a s' => k a s'
               | Undefined => Undefined
               | OutOfFuel => OutOfFuel
               end.
Proof. intros <-. reflexivity. Qed.

Lemma not_creat_directory oflags :
  Z.land oflags O_CREAT = 0 \/ Z.land oflags O_DIRECTORY = 0 ->
  negb (Z.land oflags O_CREAT =? 0) && negb (Z.land oflags O_DIRECTORY =? 0) = false.
Proof. intros [-> | ->]; [reflexivity | apply andb_false_r]. Qed.

Lemma delete_fresh_insert (new : ioref) (x : mxio_t) (m : gmap ioref mxio_t) :
  m !! new = None -> delete new (<[new := x]> m) = m.
Proof. intros Hn. rewrite delete_insert_eq. apply delete_id. exact Hn. Qed.

(** [vopenat] once the transport has opened the object: the flag word
    is completed and the object goes to the fd table. *)
Lemma vopenat_opened dirfd p d p' od oflags mode_arg s :
  char_at p 0 <> NUL -> iodir_of s p dirfd = (Some d, p') ->
  objs s !! d = Some od -> 1 <= refcount od ->
  Z.land oflags O_CREAT = 0 \/ Z.land oflags O_DIRECTORY = 0 ->
  let mode := open_mode oflags mode_arg in
  let ans := open_answer d p' oflags mode s in
  let new := next_object s in
  let fl := if Z.land oflags O_NONBLOCK =? 0 then ans.1.2
            else Z.lor ans.1.2 MXIO_FLAG_NONBLOCK in
  is_err ans.1.1 = false ->
  vopenat dirfd (Some p) oflags mode_arg s =
  (fd ← mxio_bind_to_fd new (-1) 0;
   if fd <? 0 then
     _ ← op_call new (CallClose new) (ops_close new);
     _ ← mxio_release new;
     ERRNO EMFILE
   else mret fd)
    (set_objs <[new := {| flags := fl; refcount := 1; dupcount := 0 |}]>
       (opened d p' oflags mode s)).
Proof.
  intros Hnul Hdir Hd Hr Hflags mode ans new fl Hok.
  match goal with |- _ = ?rhs => set (R := rhs) end.
  unfold vopenat. rewrite (not_creat_directory oflags Hflags).
  replace (if negb (Z.land oflags O_CREAT =? 0) then Z.land (to_uint32 mode_arg) 511 else 0)
    with mode by (unfold mode, open_mode; destruct (Z.land oflags O_CREAT =? 0); reflexivity).
  rewrite (bind_is _ _ s _ (open_at_dir dirfd p d p' od oflags mode s Hnul Hdir Hd Hr)). cbv zeta.
  fold ans. rewrite Hok. cbv iota beta. rewrite ?Hok. fold new. unfold R, fl. clear R.
  destruct (Z.land oflags O_NONBLOCK =? 0).
  - reflexivity.
  - erewrite (bind_returns (o ← deref new;
                            set_flags new (Z.lor (flags o) MXIO_FLAG_NONBLOCK)))
      by (mstep ltac:(apply deref_live; apply lookup_insert_eq);
          apply set_flags_live; apply lookup_insert_eq).
    cbn [flags refcount dupcount].
    match goal with
    | |- ?f ?s1 = ?g ?s2 => replace s1 with s2; [reflexivity|]
    end.
    apply state_eq; try reflexivity.
    cbn [set_objs objs]. rewrite insert_insert_eq. reflexivity.
Qed.

(** X15.  [openat] once the directory [d] of the path is found and
    live: the transport's [open] is called once on [d], with the
    adjusted path, the flags, and a mode that is 0 without O_CREAT and
    the low nine bits of the argument with it.  When it fails the
    result is -1 with the errno of its status and nothing else changes.
    When it succeeds the new object gets the NONBLOCK flag if
    O_NONBLOCK was asked for, is bound to the lowest free fd, which is
    the result, and holds one reference and one slot. *)
Theorem openat_result (s : mxio_state) (dirfd : Z) (p p' : cstr) (d : ioref) (od : mxio_t)
    (oflags mode_arg : Z) :
  char_at p 0 <> NUL -> iodir_of s p dirfd = (Some d, p') ->
  objs s !! d = Some od -> 1 <= refcount od ->
  Z.land oflags O_CREAT = 0 \/ Z.land oflags O_DIRECTORY = 0 ->
  let mode := open_mode oflags mode_arg in
  let ans := open_answer d p' oflags mode s in
  let new := next_object s in
  let fl := if Z.land oflags O_NONBLOCK =? 0 then ans.1.2
            else Z.lor ans.1.2 MXIO_FLAG_NONBLOCK in
  (forall e, ans.1.1 = Err e ->
     openat dirfd (Some p) oflags mode_arg s
     = Returns (-1) (set_errno (mxio_status_to_errno e) (opened d p' oflags mode s))) /\
  (forall k, is_err ans.1.1 = false -> lowest_free s 0 k ->
     openat dirfd (Some p) oflags mode_arg s
     = Returns k (set_fdtab <[k := new]>
                    (set_objs <[new := {| flags := fl; refcount := 1; dupcount := 1 |}]>
                       (opened d p' oflags mode s))) /\
     objs s !! new = None).
Proof.
  intros Hnul Hdir Hd Hr Hflags mode ans new fl. split.
  - intros e He. unfold openat, vopenat.
    rewrite (not_creat_directory oflags Hflags).
    replace (if negb (Z.land oflags O_CREAT =? 0) then Z.land (to_uint32 mode_arg) 511 else 0)
      with mode by (unfold mode, open_mode; destruct (Z.land oflags O_CREAT =? 0); reflexivity).
    rewrite (bind_is _ _ s _ (open_at_dir dirfd p d p' od oflags mode s Hnul Hdir Hd Hr)). cbv zeta.
    fold ans. rewrite He. reflexivity.
  - intros k Hok Hfree. split; [|apply next_object_fresh].
    unfold openat.
    rewrite (vopenat_opened dirfd p d p' od oflags mode_arg s Hnul Hdir Hd Hr Hflags Hok).
    fold mode ans new fl.
    set (n0 := {| flags := fl; refcount := 1; dupcount := 0 |}).
    set (s2 := set_objs <[new := n0]> (opened d p' oflags mode s)).
    mstep ltac:(apply (bind_any_lowest new n0 (-1) 0 k s2);
                [lia | lia | apply lookup_insert_eq | exact Hfree]).
    replace (k <? 0) with false
      by (symmetry; apply Z.ltb_ge; destruct Hfree as [Hk _]; lia).
    cbv [mret M_ret]. f_equal. apply state_eq; try reflexivity.
    unfold installed, s2. cbn [set_fdtab set_objs objs].
    rewrite insert_insert_eq. reflexivity.
Qed.

(** X16.  [openat] with the table full: when the transport's [open]
    succeeds and no fd from 0 on is free, the result is -1 with errno
    EMFILE, the transport's [close] is called on the object just opened
    and its only reference is dropped, so the objects and the table are
    as before the call. *)
Theorem openat_table_full (s : mxio_state) (dirfd : Z) (p p' : cstr) (d : ioref)
    (od : mxio_t) (oflags mode_arg : Z) :
  char_at p 0 <> NUL -> iodir_of s p dirfd = (Some d, p') ->
  objs s !! d = Some od -> 1 <= refcount od ->
  Z.land oflags O_CREAT = 0 \/ Z.land oflags O_DIRECTORY = 0 ->
  let mode := open_mode oflags mode_arg in
  let new := next_object s in
  is_err (open_answer d p' oflags mode s).1.1 = false ->
  (forall j, 0 <= j < MAX_MXIO_FD -> fdtab s !! j <> None) ->
  openat dirfd (Some p) oflags mode_arg s
  = Returns (-1) (set_errno EMFILE
                    (try_round (CallClose new) (ops_close new) (opened d p' oflags mode s))).
Proof.
  intros Hnul Hdir Hd Hr Hflags mode new Hok Hfull. unfold openat.
  rewrite (vopenat_opened dirfd p d p' od oflags mode_arg s Hnul Hdir Hd Hr Hflags Hok).
  fold mode new.
  set (n0 := {| flags := _; refcount := 1; dupcount := 0 |}).
  set (s2 := set_objs <[new := n0]> (opened d p' oflags mode s)).
  mstep ltac:(apply (bind_any_full new (-1) 0 s2); [lia | lia | exact Hfull]).
  change (-1 <? 0) with true. cbv iota.
  mstep ltac:(apply (op_call_live new n0); apply lookup_insert_eq).
  mstep ltac:(apply (release_live new n0); apply lookup_insert_eq).
  cbv [ERRNO]. mstep ltac:(reflexivity).
  cbv [mret M_ret]. f_equal. apply state_eq; try reflexivity.
  unfold s2. cbn [set_errno set_objs set_world try_round opened objs].
  rewrite released_insert. change (refcount n0 =? 1) with true. cbv iota.
  apply delete_id. apply next_object_fresh.
Qed.

(** X17.  [chdir] once the directory [d] of the path is found and
    live, with a live cwd object [old]: the transport's [open] is
    called once on [d] with O_DIRECTORY.  When it fails the result is
    -1 with the errno of its status, and the cwd object, the cwd string,
    the objects and the table are as before.  When it succeeds the
    result is 0, the new object is the cwd and holds one reference, the
    cwd string is updated, the transport's [close] is called on [old]
    and [old] loses the reference of the cwd.  A path that is NULL or
    empty gives -1 with errno EINVAL and changes nothing else. *)
Theorem chdir_result (s : mxio_state) (p p' : cstr) (d old : ioref) (od oold : mxio_t) :
  char_at p 0 <> NUL -> iodir_of s p AT_FDCWD = (Some d, p') ->
  objs s !! d = Some od -> 1 <= refcount od ->
  cwd_handle s = Some old -> objs s !! old = Some oold ->
  let ans := open_answer d p' O_DIRECTORY 0 s in
  let new := next_object s in
  let s1 := opened d p' O_DIRECTORY 0 s in
  (forall e, ans.1.1 = Err e ->
     chdir (Some p) s = Returns (-1) (set_errno (mxio_status_to_errno e) s1)) /\
  (is_err ans.1.1 = false ->
     chdir (Some p) s
     = Returns 0
         (set_objs (released old)
            (try_round (CallClose old) (ops_close old)
               (set_cwd_handle (Some new)
                  (set_cwd_path (update_cwd_path (cwd_path s) p)
                     (set_objs <[new := {| flags := ans.1.2; refcount := 1; dupcount := 0 |}]>
                        s1)))))) /\
  chdir None s = Returns (-1) (set_errno EINVAL s) /\
  chdir (Some []) s = Returns (-1) (set_errno EINVAL s).
Proof.
  intros Hnul Hdir Hd Hr Hcwd Hold ans new s1.
  split; [|split; [|split; reflexivity]].
  - intros e He. unfold chdir, __mxio_open.
    rewrite (bind_is _ _ s _ (open_at_dir AT_FDCWD p d p' od O_DIRECTORY 0 s Hnul Hdir Hd Hr)). cbv zeta.
    fold ans. rewrite He. reflexivity.
  - intros Hok. unfold chdir, __mxio_open.
    rewrite (bind_is _ _ s _ (open_at_dir AT_FDCWD p d p' od O_DIRECTORY 0 s Hnul Hdir Hd Hr)). cbv zeta.
    fold ans new s1. rewrite Hok. cbv iota beta. rewrite ?Hok.
    mstep ltac:(reflexivity). mstep ltac:(reflexivity).
    unfold s1. cbn [cwd_handle cwd_path set_cwd_path set_objs opened set_world]. rewrite Hcwd.
    mstep ltac:(reflexivity).
    assert (Hne : new <> old).
    { pose proof (next_object_fresh s) as Hf. fold new in Hf. congruence. }
    mstep ltac:(apply (op_call_live old oold);
                cbn [set_cwd_handle set_cwd_path set_world set_objs objs];
                rewrite lookup_insert_ne by exact Hne; exact Hold).
    mstep ltac:(apply (release_live old oold);
                cbn [set_cwd_handle set_cwd_path set_world set_objs objs];
                rewrite lookup_insert_ne by exact Hne; exact Hold).
    reflexivity.
Qed.

(** X18.  [mkdirat] once the directory [d] of the path is found and
    live: the transport's [open] is called once on [d] with the flags
    O_CREAT, O_EXCL and O_RDWR and with the low nine bits of [mode]
    marked S_IFDIR.  When it fails the result is -1 with the errno of
    its status.  When it succeeds the result is 0, whatever the
    transport's [close] of the new object answers; that object is
    released again, so the objects and the table are as before. *)
Theorem mkdirat_result (s : mxio_state) (dirfd mode : Z) (p p' : cstr) (d : ioref)
    (od : mxio_t) :
  char_at p 0 <> NUL -> iodir_of s p dirfd = (Some d, p') ->
  objs s !! d = Some od -> 1 <= refcount od ->
  let oflags := Z.lor (Z.lor O_CREAT O_EXCL) O_RDWR in
  let mode' := Z.lor (Z.land mode 511) S_IFDIR in
  let ans := open_answer d p' oflags mode' s in
  let new := next_object s in
  let s1 := opened d p' oflags mode' s in
  (forall e, ans.1.1 = Err e ->
     mkdirat dirfd (Some p) mode s = Returns (-1) (set_errno (mxio_status_to_errno e) s1)) /\
  (is_err ans.1.1 = false ->
     mkdirat dirfd (Some p) mode s
     = Returns 0 (try_round (CallClose new) (ops_close new) s1)).
Proof.
  intros Hnul Hdir Hd Hr oflags mode' ans new s1. split.
  - intros e He. unfold mkdirat.
    rewrite (bind_is _ _ s _ (open_at_dir dirfd p d p' od oflags mode' s Hnul Hdir Hd Hr)). cbv zeta.
    fold ans. rewrite He. reflexivity.
  - intros Hok. unfold mkdirat.
    rewrite (bind_is _ _ s _ (open_at_dir dirfd p d p' od oflags mode' s Hnul Hdir Hd Hr)). cbv zeta.
    fold ans new s1. rewrite Hok. cbv iota beta. rewrite ?Hok.
    set (n0 := {| flags := _; refcount := 1; dupcount := 0 |}).
    mstep ltac:(apply (op_call_live new n0); apply lookup_insert_eq).
    mstep ltac:(apply (release_live new n0); apply lookup_insert_eq).
    cbv [mret M_ret]. f_equal. apply state_eq; try reflexivity.
    cbn [set_objs set_world try_round objs].
    rewrite released_insert. change (refcount n0 =? 1) with true. cbv iota.
    apply delete_id. unfold s1. cbn [opened set_world objs]. apply next_object_fresh.
Qed.

(** *** The table and the counts of its objects *)

Lemma slot_count_delete_same (t : gmap Z ioref) fd p :
  t !! fd = Some p ->
  slot_count t p = S (slot_count (delete fd t) p).
Proof.
  intros Hfd. unfold slot_count. rewrite map_filter_delete.
  rewrite map_size_delete_Some.
  - assert (Hpos : size (filter (fun kv : Z * ioref => kv.2 = p) t) <> O).
    { intros Hz. apply map_size_empty_inv in Hz.
      assert (Hin : filter (fun kv : Z * ioref => kv.2 = p) t !! fd = Some p)
        by (apply map_lookup_filter_Some; split; [exact Hfd | reflexivity]).
      rewrite Hz, lookup_empty in Hin. discriminate Hin. }
    lia.
  - exists p. apply map_lookup_filter_Some. split; [exact Hfd | reflexivity].
Qed.

Lemma slot_count_delete_other (t : gmap Z ioref) fd p q :
  t !! fd = Some p -> q <> p -> slot_count (delete fd t) q = slot_count t q.
Proof.
  intros Hfd Hne. unfold slot_count. rewrite map_filter_delete.
  apply map_size_delete_None. apply map_lookup_filter_None. right.
  intros x Hx. rewrite Hfd in Hx. injection Hx as <-. cbn. congruence.
Qed.

Lemma slot_count_delete_free (t : gmap Z ioref) fd q :
  t !! fd = None -> slot_count (delete fd t) q = slot_count t q.
Proof. intros Hfd. rewrite delete_id by exact Hfd. reflexivity. Qed.

Lemma slot_count_insert_same (t : gmap Z ioref) fd p :
  t !! fd = None -> slot_count (<[fd := p]> t) p = S (slot_count t p).
Proof.
  intros Hfd. unfold slot_count.
  rewrite map_filter_insert_True by reflexivity.
  apply map_size_insert_None. apply map_lookup_filter_None. left. exact Hfd.
Qed.

Lemma slot_count_insert_other (t : gmap Z ioref) fd p q :
  t !! fd = None -> q <> p -> slot_count (<[fd := p]> t) q = slot_count t q.
Proof.
  intros Hfd Hne. unfold slot_count.
  rewrite map_filter_insert_False by (cbn; congruence).
  rewrite delete_id by exact Hfd. reflexivity.
Qed.

Lemma slot_count_bound (t : gmap Z ioref) fd p :
  t !! fd = Some p -> (0 < slot_count t p)%nat.
Proof. intros Hfd. rewrite (slot_count_delete_same t fd p Hfd). lia. Qed.

Lemma slot_count_pos (t : gmap Z ioref) p :
  (0 < slot_count t p)%nat -> exists fd, t !! fd = Some p.
Proof.
  unfold slot_count. intros Hpos.
  destruct (map_choose (filter (fun kv : Z * ioref => kv.2 = p) t)) as (fd & q & Hq).
  { intros Hz. rewrite Hz, map_size_empty in Hpos. lia. }
  apply map_lookup_filter_Some in Hq as [Hq Hp]. cbn in Hp. subst q. eauto.
Qed.

Lemma table_ok_bound s fd p :
  table_ok s -> fdtab s !! fd = Some p ->
  in_table fd /\
  exists o, objs s !! p = Some o /\ dupcount o = Z.of_nat (slot_count (fdtab s) p) /\
            1 <= dupcount o /\ dupcount o <= refcount o.
Proof.
  intros [Hrange Hobj] Hfd. split; [eapply Hrange; exact Hfd|].
  pose proof (slot_count_bound _ _ _ Hfd) as Hpos.
  destruct (Hobj p Hpos) as (o & Ho & Hd & Hr).
  exists o. split; [exact Ho|]. split; [exact Hd|]. split; [lia | exact Hr].
Qed.

Lemma table_ok_same s s' :
  fdtab s' = fdtab s -> objs s' = objs s -> table_ok s -> table_ok s'.
Proof. intros Ht Ho [Hrange Hobj]. unfold table_ok. rewrite Ht, Ho. split; assumption. Qed.

(** Giving up one slot of [p] keeps the table and the objects in
    agreement, provided [p] counts the slot out when it has others. *)
Lemma table_ok_unslot s s' fd p o :
  table_ok s -> fdtab s !! fd = Some p -> objs s !! p = Some o ->
  fdtab s' = delete fd (fdtab s) ->
  (forall q, q <> p -> objs s' !! q = objs s !! q) ->
  (1 < dupcount o ->
   exists o', objs s' !! p = Some o' /\ dupcount o' = dupcount o - 1 /\
              dupcount o' <= refcount o') ->
  table_ok s'.
Proof.
  intros [Hrange Hobj] Hfd Hp Ht Hothers Hself. split.
  - intros fd' q Hq. rewrite Ht in Hq.
    apply lookup_delete_Some in Hq as [_ Hq]. eapply Hrange. exact Hq.
  - intros q Hpos. rewrite Ht in Hpos |- *.
    pose proof (slot_count_delete_same _ _ _ Hfd) as Hcount.
    destruct (decide (q = p)) as [->|Hne].
    + destruct (Hobj p ltac:(lia)) as (o0 & Ho0 & Hd0 & Hr0).
      rewrite Hp in Ho0. injection Ho0 as <-.
      destruct (Hself ltac:(lia)) as (o' & Ho' & Hd' & Hr').
      exists o'. split; [exact Ho'|]. split; [lia | exact Hr'].
    + rewrite (slot_count_delete_other _ _ _ _ Hfd Hne) in Hpos |- *.
      rewrite (Hothers q Hne). apply Hobj. exact Hpos.
Qed.

Lemma STATUS_cases r s :
  exists a s', STATUS r s = Returns a s' /\ fdtab s' = fdtab s /\ objs s' = objs s.
Proof.
  destruct r as [n|e]; eexists; eexists; (split; [reflexivity|]); split; reflexivity.
Qed.

Lemma slot_closed_table_ok s fd p o :
  table_ok s -> fdtab s !! fd = Some p -> objs s !! p = Some o ->
  forall s', fdtab s' = fdtab (slot_closed fd p s) -> objs s' = objs (slot_closed fd p s) ->
  table_ok s'.
Proof.
  intros Hok Hfd Hp s' Ht Ho.
  destruct (table_ok_bound s fd p Hok Hfd) as (_ & o0 & Ho0 & Hd0 & Hd1 & Hr0).
  rewrite Hp in Ho0. injection Ho0 as <-.
  rewrite (slot_closed_eq fd p o s Hp) in Ht, Ho. cbn [set_objs set_fdtab fdtab objs] in Ht, Ho.
  apply (table_ok_unslot s s' fd p o Hok Hfd Hp Ht).
  - intros q Hne. rewrite Ho, lookup_released_ne, lookup_insert_ne by congruence. reflexivity.
  - intros Hd. rewrite Ho, released_insert.
    replace (refcount (with_dupcount o (dupcount o - 1)) =? 1) with false
      by (symmetry; apply Z.eqb_neq; simpl; lia).
    eexists. split; [apply lookup_insert_eq|]. simpl. split; lia.
Qed.

(** X19.  [close] and [mxio_unbind_from_fd] keep the table and the
    objects in agreement: from a state in which every object of the
    table is live, counts its slots in [dupcount] and holds a reference
    for each of them, [close] of any fd and [mxio_unbind_from_fd] of any
    fd that is not negative return, and the state they leave is such a
    state again.  No slot is ever left pointing to an object that was
    freed. *)
Theorem close_keeps_table (s : mxio_state) (fd : Z) :
  table_ok s ->
  (exists r s', close fd s = Returns r s' /\ table_ok s') /\
  (0 <= fd -> exists r s', mxio_unbind_from_fd fd s = Returns r s' /\ table_ok s').
Proof.
  intros Hok. split.
  - destruct (fdtab s !! fd) as [p|] eqn:Hfd.
    + destruct (table_ok_bound s fd p Hok Hfd) as (Hin & o & Hp & _).
      rewrite (close_bound fd p o s Hin Hfd Hp).
      destruct (dupcount o - 1 >? 0).
      * eexists. eexists. split; [reflexivity|].
        apply (slot_closed_table_ok s fd p o Hok Hfd Hp); reflexivity.
      * destruct (STATUS_cases (try_status (ops_close p) s)
                    (try_round (CallClose p) (ops_close p) (slot_closed fd p s)))
          as (a & s' & E & Ht & Ho).
        exists a, s'. split; [exact E|].
        apply (slot_closed_table_ok s fd p o Hok Hfd Hp); [rewrite Ht | rewrite Ho]; reflexivity.
    + rewrite (close_bad fd s) by (right; right; exact Hfd).
      eexists. eexists. split; [reflexivity|].
      apply (table_ok_same s); [reflexivity | reflexivity | exact Hok].
  - intros H0. destruct (Z_lt_ge_dec fd MAX_MXIO_FD) as [Hlt|Hge].
    2:{ rewrite unbind_out_of_range_high by lia.
        eexists. eexists. split; [reflexivity | exact Hok]. }
    assert (Hin : in_table fd) by (split; assumption).
    rewrite (unbind_prefix fd s Hin).
    destruct (fdtab s !! fd) as [p|] eqn:Hfd.
    2:{ eexists. eexists. split; [reflexivity | exact Hok]. }
    destruct (table_ok_bound s fd p Hok Hfd) as (_ & o & Hp & Hd & Hd1 & Hr).
    rewrite Hp.
    destruct (dupcount o >? 1) eqn:Ed;
      [eexists; eexists; split; [reflexivity | exact Hok]|].
    destruct (refcount o >? 1);
      [eexists; eexists; split; [reflexivity | exact Hok]|].
    rewrite Z.gtb_ltb in Ed. apply Z.ltb_ge in Ed.
    eexists. eexists. split; [reflexivity|].
    apply (table_ok_unslot s _ fd p o Hok Hfd Hp); [reflexivity | | intros; lia].
    intros q Hne. cbn [set_fdtab set_objs objs].
    rewrite lookup_insert_ne by congruence. reflexivity.
Qed.

(** *** mxio_exit *)

Lemma mxio_exit_loop_ok n : forall fd s,
  0 <= fd -> fd + Z.of_nat n = MAX_MXIO_FD -> table_ok s ->
  (forall j, 0 <= j < fd -> fdtab s !! j = None) ->
  exists s', mxio_exit_loop n fd s = Returns tt s' /\ table_ok s' /\
             (forall j, 0 <= j < MAX_MXIO_FD -> fdtab s' !! j = None).
Proof.
  induction n as [|n IH]; intros fd s H0 Hn Hok Hlow.
  - exists s. split; [reflexivity|]. split; [exact Hok|].
    intros j Hj. apply Hlow. lia.
  - assert (Hin : in_table fd) by (unfold in_table; lia).
    cbn [mxio_exit_loop].
    mstep ltac:(apply tab_get_in; exact Hin).
    destruct (fdtab s !! fd) as [p|] eqn:Hfd.
    + destruct (table_ok_bound s fd p Hok Hfd) as (_ & o & Hp & Hd & Hd1 & Hr).
      set (s1 := set_fdtab (delete fd) s).
      set (s2 := set_objs <[p := with_dupcount o (dupcount o - 1)]> s1).
      assert (Hstep : exists s3,
                (_ ← tab_set fd None;
                 o0 ← deref p;
                 _ ← set_dupcount p (dupcount o0 - 1);
                 if dupcount o0 - 1 =? 0 then
                   _ ← op_call p (CallClose p) (ops_close p); mxio_release p
                 else mret tt) s = Returns tt s3 /\
                table_ok s3 /\ fdtab s3 = delete fd (fdtab s)).
      { mstep ltac:(apply tab_set_in; exact Hin). fold s1.
        mstep ltac:(apply deref_live; exact Hp).
        mstep ltac:(apply set_dupcount_live; exact Hp). fold s2.
        destruct (dupcount o - 1 =? 0) eqn:Elast.
        - apply Z.eqb_eq in Elast.
          mstep ltac:(apply (op_call_live p (with_dupcount o (dupcount o - 1)));
                      apply lookup_insert_eq).
          rewrite (release_live p (with_dupcount o (dupcount o - 1)))
            by apply lookup_insert_eq.
          eexists. split; [reflexivity|]. split; [|reflexivity].
          apply (table_ok_unslot s _ fd p o Hok Hfd Hp); [reflexivity | | intros; lia].
          intros q Hne. cbn [set_objs set_world try_round set_fdtab objs s2 s1].
          rewrite lookup_released_ne, lookup_insert_ne by congruence. reflexivity.
        - apply Z.eqb_neq in Elast.
          exists s2. split; [reflexivity|]. split; [|reflexivity].
          apply (table_ok_unslot s s2 fd p o Hok Hfd Hp); [reflexivity | |].
          + intros q Hne. cbn [set_objs set_fdtab objs s2 s1].
            rewrite lookup_insert_ne by congruence. reflexivity.
          + intros _. eexists. split; [apply lookup_insert_eq|]. simpl. split; lia. }
      destruct Hstep as (s3 & E3 & Hok3 & Ht3).
      mstep ltac:(exact E3).
      apply IH; [lia | lia | exact Hok3 |].
      intros j Hj. rewrite Ht3. destruct (decide (j = fd)) as [->|Hne].
      * apply lookup_delete_eq.
      * rewrite lookup_delete_ne by congruence. apply Hlow. lia.
    + mstep ltac:(reflexivity).
      apply IH; [lia | lia | exact Hok |].
      intros j Hj. destruct (decide (j = fd)) as [->|Hne]; [exact Hfd | apply Hlow; lia].
Qed.

(** X20.  [mxio_exit], run on a table that agrees with its objects,
    returns, having cleared every slot, and never touches an object
    that was already freed; the state it leaves, with the empty table,
    is in agreement again. *)
Theorem mxio_exit_empties_table (s : mxio_state) :
  table_ok s ->
  exists s', mxio_exit s = Returns tt s' /\ fdtab s' = ∅ /\ table_ok s'.
Proof.
  intros Hok. unfold mxio_exit.
  destruct (mxio_exit_loop_ok (Z.to_nat MAX_MXIO_FD) 0 s) as (s' & E & Hok' & Hnone).
  - lia.
  - unfold MAX_MXIO_FD. lia.
  - exact Hok.
  - intros j Hj. lia.
  - exists s'. split; [exact E|]. split; [|exact Hok'].
    apply map_empty. intros j. destruct (fdtab s' !! j) as [p|] eqn:Hj; [|reflexivity].
    destruct Hok' as [Hrange _]. pose proof (Hrange j p Hj) as Hin.
    rewrite (Hnone j Hin) in Hj. discriminate Hj.
Qed.

(** *** dup keeps the table *)

(** Taking a free slot for [p] keeps the table and the objects in
    agreement, provided [p] counts the slot in. *)
Lemma table_ok_slot s s' k p :
  table_ok s -> in_table k -> fdtab s !! k = None ->
  fdtab s' = <[k := p]> (fdtab s) ->
  (forall q, q <> p -> objs s' !! q = objs s !! q) ->
  (exists o', objs s' !! p = Some o' /\
              dupcount o' = Z.of_nat (S (slot_count (fdtab s) p)) /\
              dupcount o' <= refcount o') ->
  table_ok s'.
Proof.
  intros [Hrange Hobj] Hk Hfree Ht Hothers Hself. split.
  - intros fd q Hq. rewrite Ht in Hq.
    apply lookup_insert_Some in Hq as [[<- _]|[_ Hq]]; [exact Hk | eapply Hrange; exact Hq].
  - intros q Hpos. rewrite Ht in Hpos |- *.
    destruct (decide (q = p)) as [->|Hne].
    + rewrite (slot_count_insert_same _ _ _ Hfree). exact Hself.
    + rewrite (slot_count_insert_other _ _ _ _ Hfree Hne) in Hpos |- *.
      rewrite (Hothers q Hne). apply Hobj. exact Hpos.
Qed.

Lemma installed_table_ok s k p o :
  table_ok s -> in_table k -> fdtab s !! k = None ->
  objs s !! p = Some o -> dupcount o = Z.of_nat (slot_count (fdtab s) p) ->
  dupcount o <= refcount o ->
  table_ok (installed (set_objs <[p := acquired o]> s) p (acquired o) k).
Proof.
  intros Hok Hk Hfree Hp Hd Hr.
  apply (table_ok_slot s _ k p Hok Hk Hfree); [reflexivity | |].
  - intros q Hne. cbn [installed set_fdtab set_objs objs].
    rewrite !lookup_insert_ne by congruence. reflexivity.
  - eexists. split; [apply lookup_insert_eq|]. simpl. split; lia.
Qed.

Lemma slot_given_table_ok s new p q o oq :
  table_ok s -> in_table new -> fdtab s !! new = Some q -> q <> p ->
  objs s !! p = Some o -> objs s !! q = Some oq ->
  dupcount o = Z.of_nat (slot_count (fdtab s) p) -> dupcount o <= refcount o ->
  forall s', fdtab s' = fdtab (slot_given new p q s) ->
             objs s' = objs (slot_given new p q s) -> table_ok s'.
Proof.
  intros Hok Hnew Hq Hne Hp Hoq Hd Hr s' Ht Ho.
  assert (Hmid : table_ok (slot_closed new q s))
    by (apply (slot_closed_table_ok s new q oq Hok Hq Hoq); reflexivity).
  rewrite (slot_given_eq new p q o oq s (not_eq_sym Hne) Hp Hoq) in Ht, Ho.
  cbn [set_fdtab set_objs fdtab objs] in Ht, Ho.
  apply (table_ok_slot (slot_closed new q s) s' new p Hmid Hnew).
  - rewrite slot_closed_fdtab. apply lookup_delete_eq.
  - rewrite Ht, slot_closed_fdtab. symmetry. apply insert_delete_eq.
  - intros r Hr'. rewrite Ho, lookup_insert_ne by congruence.
    rewrite (slot_closed_eq new q oq s Hoq). reflexivity.
  - rewrite slot_closed_fdtab, (slot_count_delete_other _ _ _ _ Hq (not_eq_sym Hne)).
    rewrite Ho. eexists. split; [apply lookup_insert_eq|]. simpl. split; lia.
Qed.

Lemma mxio_dup_keeps s oldfd newfd lo :
  table_ok s -> 0 <= lo ->
  exists r s', mxio_dup oldfd newfd lo s = Returns r s' /\ table_ok s'.
Proof.
  intros Hok Hlo. destruct (fdtab s !! oldfd) as [p|] eqn:Hfd.
  2:{ rewrite (mxio_dup_bad oldfd newfd lo s) by (right; right; exact Hfd).
      eexists. eexists. split; [reflexivity|].
      apply (table_ok_same s); [reflexivity | reflexivity | exact Hok]. }
  destruct (table_ok_bound s oldfd p Hok Hfd) as (Hin & o & Hp & Hd & Hd1 & Hr).
  assert (Hr1 : 1 <= refcount o) by lia.
  set (sa := set_objs <[p := acquired o]> s).
  assert (Hfail : forall e,
            mxio_bind_to_fd p newfd lo sa = Returns (-1) (set_errno e sa) ->
            exists r s', mxio_dup oldfd newfd lo s = Returns r s' /\ table_ok s').
  { intros e Hb. rewrite (mxio_dup_bound oldfd newfd lo p o s Hin Hfd Hp). fold sa.
    mstep ltac:(exact Hb). change (-1 <? 0) with true. cbv iota.
    mstep ltac:(apply (release_restores p o s); [exact Hp | exact Hr1 | reflexivity]).
    eexists. eexists. split; [reflexivity|].
    apply (table_ok_same s); [reflexivity | reflexivity | exact Hok]. }
  assert (Hinst : forall k, in_table k -> fdtab s !! k = None ->
            mxio_bind_to_fd p newfd lo sa = Returns k (installed sa p (acquired o) k) ->
            exists r s', mxio_dup oldfd newfd lo s = Returns r s' /\ table_ok s').
  { intros k Hk Hfree Hb. rewrite (mxio_dup_bound oldfd newfd lo p o s Hin Hfd Hp). fold sa.
    mstep ltac:(exact Hb).
    replace (k <? 0) with false by (symmetry; apply Z.ltb_ge; unfold in_table in Hk; lia).
    eexists. eexists. split; [reflexivity|].
    apply installed_table_ok; assumption. }
  destruct (Z_lt_ge_dec newfd 0) as [Hneg|Hnn].
  - (* any free fd from [lo] on *)
    destruct (Z_le_gt_dec lo MAX_MXIO_FD) as [Hle|Hgt].
    + destruct (find_free_fd_scan (Z.to_nat (MAX_MXIO_FD - lo)) lo sa Hlo ltac:(lia))
        as [(k & Hk & Hfree & Hlow & _)|[Hall _]].
      * apply (Hinst k); [unfold in_table; lia | exact Hfree|].
        apply (bind_any_lowest p (acquired o) newfd lo k sa Hneg Hlo);
          [apply lookup_insert_eq|].
        split; [lia|]. split; [exact Hfree | exact Hlow].
      * apply (Hfail EMFILE). apply bind_any_full; [exact Hneg | exact Hlo|].
        intros j Hj. apply Hall. lia.
    + apply (Hfail EMFILE). apply bind_any_full; [exact Hneg | exact Hlo|].
      intros j Hj. lia.
  - destruct (Z_lt_ge_dec newfd MAX_MXIO_FD) as [Hlt|Hge].
    + assert (Hnew : in_table newfd) by (unfold in_table; lia).
      destruct (fdtab s !! newfd) as [q|] eqn:Hq.
      * destruct (decide (q = p)) as [->|Hne].
        -- destruct (mxio_dup_alias s oldfd newfd lo p o Hin Hfd Hnew Hq Hp Hr1)
             as [Hmany Hlast].
           destruct (Z_lt_ge_dec 1 (dupcount o)) as [Hd2|Hd2].
           ++ rewrite (Hmany Hd2). eexists. eexists. split; [reflexivity | exact Hok].
           ++ rewrite (Hlast ltac:(lia)). eexists. eexists. split; [reflexivity|].
              apply (table_ok_same s); [reflexivity | reflexivity | exact Hok].
        -- destruct (table_ok_bound s newfd q Hok Hq) as (_ & oq & Hoq & _).
           destruct (mxio_dup_takes s oldfd newfd lo p o Hin Hfd Hp Hnew) as [_ Htakes].
           destruct (Htakes q oq Hq Hne Hoq) as (Hmany & Hlast & _).
           destruct (Z_lt_ge_dec 1 (dupcount oq)) as [Hd2|Hd2].
           ++ rewrite (Hmany Hd2). eexists. eexists. split; [reflexivity|].
              apply (slot_given_table_ok s newfd p q o oq); try assumption; reflexivity.
           ++ rewrite (Hlast ltac:(lia)). eexists. eexists. split; [reflexivity|].
              apply (slot_given_table_ok s newfd p q o oq); try assumption; reflexivity.
      * destruct (mxio_dup_takes s oldfd newfd lo p o Hin Hfd Hp Hnew) as [Hfree _].
        rewrite (Hfree Hq). eexists. eexists. split; [reflexivity|].
        apply installed_table_ok; assumption.
    + apply (Hfail EINVAL). apply bind_too_high. lia.
Qed.

(** X21.  [dup], [dup2] and [fcntl] with F_DUPFD or F_DUPFD_CLOEXEC and
    a starting fd that is not negative keep the table and the objects
    in agreement: from a state in which every object of the table is
    live, counts its slots in [dupcount] and holds a reference for each
    of them, each of them returns, for any arguments, and leaves such a
    state again. *)
Theorem dup_keeps_table (s : mxio_state) (oldfd : Z) :
  table_ok s ->
  (exists r s', dup oldfd s = Returns r s' /\ table_ok s') /\
  (forall newfd, exists r s', dup2 oldfd newfd s = Returns r s' /\ table_ok s') /\
  (forall lo, 0 <= lo ->
     (exists r s', fcntl oldfd F_DUPFD lo s = Returns r s' /\ table_ok s') /\
     (exists r s', fcntl oldfd F_DUPFD_CLOEXEC lo s = Returns r s' /\ table_ok s')).
Proof.
  intros Hok. split; [|split].
  - unfold dup. apply mxio_dup_keeps; [exact Hok | lia].
  - intros newfd. unfold dup2. apply mxio_dup_keeps; [exact Hok | lia].
  - intros lo Hlo. unfold fcntl. split; apply mxio_dup_keeps; assumption.
Qed.

(** *** The directory that contains a path *)

Lemma skip_slashes_back_stop p x k :
  (forall j, (x < j <= x + k)%nat -> char_at p j = slash) ->
  (x = O \/ char_at p x <> slash) ->
  skip_slashes_back p (x + k) = x.
Proof.
  induction k as [|k IH]; intros Hsl Hx.
  - rewrite Nat.add_0_r. destruct x as [|x]; [reflexivity|]. cbn [skip_slashes_back].
    destruct Hx as [Hx|Hx]; [discriminate Hx|].
    replace (Ascii.eqb (char_at p (S x)) slash) with false
      by (symmetry; apply Ascii.eqb_neq; exact Hx).
    reflexivity.
  - replace (x + S k)%nat with (S (x + k)) by lia. cbn [skip_slashes_back].
    rewrite (Hsl (S (x + k))) by lia. rewrite Ascii.eqb_refl.
    apply IH; [|exact Hx]. intros j Hj. apply Hsl. lia.
Qed.

Lemma back_to_slash_stop p y m :
  (forall j, (y < j <= y + m)%nat -> char_at p j <> slash) ->
  (y = O \/ char_at p y = slash) ->
  back_to_slash p (y + m) = y.
Proof.
  induction m as [|m IH]; intros Hns Hy.
  - rewrite Nat.add_0_r. destruct y as [|y]; [reflexivity|]. cbn [back_to_slash].
    destruct Hy as [Hy|Hy]; [discriminate Hy|].
    rewrite Hy, Ascii.eqb_refl. reflexivity.
  - replace (y + S m)%nat with (S (y + m)) by lia. cbn [back_to_slash].
    replace (Ascii.eqb (char_at p (S (y + m))) slash) with false
      by (symmetry; apply Ascii.eqb_neq; apply Hns; lia).
    apply IH; [|exact Hy]. intros j Hj. apply Hns. lia.
Qed.

Lemma back_to_slash_found p n :
  back_to_slash p n <> O -> char_at p (back_to_slash p n) = slash.
Proof.
  induction n as [|n IH]; intros Hnz; [contradiction Hnz; reflexivity|].
  cbn [back_to_slash] in *.
  destruct (Ascii.eqb (char_at p (S n)) slash) eqn:E.
  - apply Ascii.eqb_eq. exact E.
  - apply IH. exact Hnz.
Qed.

Lemma char_at_slash_split p n :
  char_at p n = slash -> p = take n p ++ slash :: drop (S n) p.
Proof.
  revert n. induction p as [|c p IH]; intros n Hc.
  - unfold char_at in Hc. destruct n; discriminate Hc.
  - destruct n as [|n].
    + cbn in Hc. subst c. reflexivity.
    + cbn [take drop app]. f_equal. apply IH. exact Hc.
Qed.

Lemma char_at_app_l a b j : (j < length a)%nat -> char_at (a ++ b) j = char_at a j.
Proof. intros Hj. unfold char_at. apply app_nth1. exact Hj. Qed.

Lemma char_at_app_r a b j :
  (length a <= j)%nat -> char_at (a ++ b) j = char_at b (j - length a).
Proof. intros Hj. unfold char_at. apply app_nth2. lia. Qed.

Lemma char_at_no_slash base j :
  slash ∉ base -> (j < length base)%nat -> char_at base j <> slash.
Proof.
  intros Hns Hj Hc. apply Hns. unfold char_at in Hc. rewrite nth_lookup in Hc.
  destruct (base !! j) as [c|] eqn:E.
  - cbn in Hc. subst c. eapply list_elem_of_lookup_2. exact E.
  - apply lookup_ge_None in E. lia.
Qed.

Lemma char_at_replicate k j : (j < k)%nat -> char_at (replicate k slash) j = slash.
Proof.
  intros Hj. unfold char_at. rewrite nth_lookup.
  rewrite lookup_replicate_2 by exact Hj. reflexivity.
Qed.

Lemma char_at_0_nonempty s : char_at s 0 <> NUL -> (0 < length s)%nat.
Proof. destruct s; [intros Hc; contradiction Hc; reflexivity | cbn; lia]. Qed.

(** X22.  The split of [__mxio_opendir_containing_at].  Whenever it
    yields a directory part and a name, either the directory part is
    ["."] and the name is the whole path, or the path is the directory
    part, a slash, and the name.  A path shorter than PATH_MAX
    whose only slashes are at its end has the directory ["."]; a path
    [dir/base] has the directory [dir] and the name [base]; slashes at
    the end of the path stay in the name.  The path ["/"] is refused. *)
Theorem containing_split_forms :
  (forall p e dirpath name,
     containing_split p e = Some (dirpath, name) ->
     (dirpath = str "." /\ name = p) \/ p = dirpath ++ slash :: name) /\
  (forall base k,
     char_at base 0 <> NUL -> slash ∉ base ->
     (length (base ++ replicate k slash) < PATH_MAX)%nat ->
     containing_split (base ++ replicate k slash) (length (base ++ replicate k slash) - 1)
     = Some (str ".", base ++ replicate k slash)) /\
  (forall dir base k,
     char_at base 0 <> NUL -> slash ∉ base ->
     (length (dir ++ slash :: base ++ replicate k slash) < PATH_MAX)%nat ->
     containing_split (dir ++ slash :: base ++ replicate k slash)
                      (length (dir ++ slash :: base ++ replicate k slash) - 1)
     = Some (dir, base ++ replicate k slash)) /\
  containing_split [slash] 0 = None.
Proof.
  split; [|split; [|split; [|reflexivity]]].
  - intros p e dirpath name. unfold containing_split.
    set (n := back_to_slash p (skip_slashes_back p e)).
    destruct ((n =? 0)%nat && negb (Ascii.eqb (char_at p n) slash)) eqn:Enone.
    + cbn [mbind option_bind]. destruct (Ascii.eqb (char_at p 0) NUL); [discriminate|].
      intros [= <- <-]. left. split; reflexivity.
    + destruct (PATH_MAX - 1 <? n)%nat; [discriminate|]. cbn [mbind option_bind].
      destruct (Ascii.eqb (char_at (drop (S n) p) 0) NUL); [discriminate|].
      intros [= <- <-]. right. apply char_at_slash_split.
      destruct (n =? 0)%nat eqn:E0.
      * cbn [andb] in Enone. apply negb_false_iff, Ascii.eqb_eq in Enone. exact Enone.
      * apply back_to_slash_found. apply Nat.eqb_neq. exact E0.
  - intros base k Hnul Hns Hlen.
    pose proof (char_at_0_nonempty base Hnul) as Hpos.
    set (p := base ++ replicate k slash) in *.
    assert (Hp : length p = (length base + k)%nat)
      by (unfold p; rewrite length_app, length_replicate; reflexivity).
    unfold containing_split.
    replace (length p - 1)%nat with ((length base - 1) + k)%nat by lia.
    rewrite (skip_slashes_back_stop p (length base - 1) k).
    2:{ intros j Hj. unfold p. rewrite char_at_app_r by lia.
        apply char_at_replicate. lia. }
    2:{ right. unfold p. rewrite char_at_app_l by lia. apply char_at_no_slash; [exact Hns | lia]. }
    replace (length base - 1)%nat with (0 + (length base - 1))%nat by lia.
    rewrite (back_to_slash_stop p 0 (length base - 1)).
    2:{ intros j Hj. unfold p. rewrite char_at_app_l by lia.
        apply char_at_no_slash; [exact Hns | lia]. }
    2:{ left. reflexivity. }
    assert (H0 : char_at p 0 = char_at base 0) by (unfold p; apply char_at_app_l; exact Hpos).
    rewrite H0. cbn [Nat.eqb andb].
    replace (Ascii.eqb (char_at base 0) slash) with false
      by (symmetry; apply Ascii.eqb_neq; apply char_at_no_slash; assumption).
    cbn [negb mbind option_bind]. rewrite H0.
    replace (Ascii.eqb (char_at base 0) NUL) with false
      by (symmetry; apply Ascii.eqb_neq; exact Hnul).
    reflexivity.
  - intros dir base k Hnul Hns Hlen.
    pose proof (char_at_0_nonempty base Hnul) as Hpos.
    set (rest := base ++ replicate k slash) in *.
    set (p := dir ++ slash :: rest) in *.
    assert (Hrest : length rest = (length base + k)%nat)
      by (unfold rest; rewrite length_app, length_replicate; reflexivity).
    assert (Hp : length p = (length dir + 1 + length base + k)%nat)
      by (unfold p; rewrite length_app; cbn [length]; lia).
    assert (Hchar : forall j, (length dir < j)%nat ->
              char_at p j = char_at rest (j - length dir - 1)).
    { intros j Hj. unfold p. rewrite char_at_app_r by lia.
      unfold char_at. destruct (j - length dir)%nat as [|i] eqn:E; [lia|].
      cbn [nth]. f_equal. lia. }
    assert (Hslash : char_at p (length dir) = slash).
    { unfold p. rewrite char_at_app_r by lia. rewrite Nat.sub_diag. reflexivity. }
    unfold containing_split.
    replace (length p - 1)%nat with ((length dir + length base) + k)%nat by lia.
    rewrite (skip_slashes_back_stop p (length dir + length base) k).
    2:{ intros j Hj. rewrite Hchar by lia. unfold rest. rewrite char_at_app_r by lia.
        apply char_at_replicate. lia. }
    2:{ right. rewrite Hchar by lia. unfold rest. rewrite char_at_app_l by lia.
        apply char_at_no_slash; [exact Hns | lia]. }
    rewrite (back_to_slash_stop p (length dir) (length base)).
    2:{ intros j Hj. rewrite Hchar by lia. unfold rest. rewrite char_at_app_l by lia.
        apply char_at_no_slash; [exact Hns | lia]. }
    2:{ right. exact Hslash. }
    rewrite Hslash, Ascii.eqb_refl. cbn [negb]. rewrite andb_false_r.
    replace (PATH_MAX - 1 <? length dir)%nat with false
      by (symmetry; apply Nat.ltb_ge; lia).
    assert (Htake : take (length dir) p = dir) by (unfold p; apply take_app_length).
    assert (Hdrop : drop (S (length dir)) p = rest).
    { unfold p. replace (S (length dir)) with (length dir + 1)%nat by lia.
      rewrite <- drop_drop, drop_app_length. reflexivity. }
    rewrite Htake, Hdrop. cbn [mbind option_bind].
    assert (H0 : char_at rest 0 = char_at base 0)
      by (unfold rest; apply char_at_app_l; exact Hpos).
    rewrite H0.
    replace (Ascii.eqb (char_at base 0) NUL) with false
      by (symmetry; apply Ascii.eqb_neq; exact Hnul).
    reflexivity.
Qed.

(** The call of the transport's [open] on a directory that is held,
    and the release of the directory. *)
Lemma open_release {B} d od path oflags mode s (g : status -> option ioref -> B) :
  objs s !! d = Some od -> 1 <= refcount od ->
  (s0 ← get;
   let new := fresh (dom (objs s0)) in
   '(r, fl) ← op_call d (CallOpen d path oflags mode new)
                        (ops_open d path oflags mode new);
   io ← (if is_err r then mret None
         else _ ← store new {| flags := fl; refcount := 1; dupcount := 0 |};
              mret (Some new));
   _ ← mxio_release d;
   mret (g r io)) (set_objs <[d := acquired od]> s)
  = let ans := open_answer d path oflags mode s in
    if is_err ans.1.1 then Returns (g ans.1.1 None) (opened d path oflags mode s)
    else Returns (g ans.1.1 (Some (next_object s)))
           (set_objs <[next_object s := {| flags := ans.1.2; refcount := 1; dupcount := 0 |}]>
              (opened d path oflags mode s)).
Proof.
  intros Hd Hr.
  set (sa := set_objs <[d := acquired od]> s).
  mstep ltac:(reflexivity).
  assert (Hn : next_object sa = next_object s) by (apply next_object_acquired; exact Hd).
  fold (next_object sa). rewrite Hn. cbv zeta.
  mstep ltac:(eapply op_call_live; apply lookup_insert_eq).
  change (world sa) with (world s).
  fold (open_answer d path oflags mode s). fold (open_call d path oflags mode s).
  cbv zeta.
  destruct (open_answer d path oflags mode s) as [[r fl] w] eqn:Eans. cbn [fst snd].
  assert (Eopened : opened d path oflags mode s
                    = set_world (open_call d path oflags mode s) w s).
  { unfold opened. rewrite Eans. reflexivity. }
  rewrite Eopened.
  destruct (is_err r).
  - mstep ltac:(reflexivity).
    mstep ltac:(apply (release_restores d od s); [exact Hd | exact Hr | reflexivity]).
    mdone.
  - pose proof (next_object_fresh s) as Hfresh.
    assert (Hne : next_object s <> d) by congruence.
    mstep ltac:(mstep ltac:(reflexivity); reflexivity).
    mstep ltac:(apply (release_acquired d od);
                [cbn [set_objs set_world objs sa];
                 rewrite lookup_insert_ne by exact Hne; apply lookup_insert_eq
                | exact Hr]).
    cbv [mret M_ret]. f_equal. apply state_eq; try reflexivity.
    cbn [set_objs set_world objs sa].
    rewrite (insert_insert_ne _ d (next_object s)) by congruence.
    rewrite insert_insert_eq. f_equal. apply insert_id. exact Hd.
Qed.

(** X23.  [__mxio_opendir_containing_at]: a NULL path yields
    ERR_INVALID_ARGS, a path with no directory to start from
    ERR_BAD_HANDLE, and nothing changes.  Once the directory [d] to
    start from is found and live and the adjusted path is not empty and
    shorter than PATH_MAX: when the split refuses the path the result is
    ERR_INVALID_ARGS and the reference of [d] is given back; otherwise
    the transport's [open] is called once on [d] with the directory part
    and O_DIRECTORY, its status is the result, the name is handed out
    whether it failed or not, and on success the new object holds one
    reference. *)
Theorem opendir_containing_result (s : mxio_state) (dirfd : Z) :
  __mxio_opendir_containing_at dirfd None s = Returns (Err ERR_INVALID_ARGS, None, None) s /\
  (forall p p', iodir_of s p dirfd = (None, p') ->
     __mxio_opendir_containing_at dirfd (Some p) s
     = Returns (Err ERR_BAD_HANDLE, None, None) s) /\
  (forall p p' d od,
     iodir_of s p dirfd = (Some d, p') -> objs s !! d = Some od -> 1 <= refcount od ->
     (0 < length p' < PATH_MAX)%nat ->
     (containing_split p' (length p' - 1) = None ->
        __mxio_opendir_containing_at dirfd (Some p) s
        = Returns (Err ERR_INVALID_ARGS, None, None) s) /\
     (forall dirpath name,
        containing_split p' (length p' - 1) = Some (dirpath, name) ->
        __mxio_opendir_containing_at dirfd (Some p) s
        = let ans := open_answer d dirpath O_DIRECTORY 0 s in
          if is_err ans.1.1
          then Returns (ans.1.1, None, Some name) (opened d dirpath O_DIRECTORY 0 s)
          else Returns (ans.1.1, Some (next_object s), Some name)
                 (set_objs <[next_object s := {| flags := ans.1.2; refcount := 1;
                                                 dupcount := 0 |}]>
                    (opened d dirpath O_DIRECTORY 0 s)))).
Proof.
  split; [reflexivity|]. split.
  - intros p p' Hdir. unfold __mxio_opendir_containing_at.
    mstep ltac:(rewrite iodir_found, Hdir; reflexivity). reflexivity.
  - intros p p' d od Hdir Hd Hr Hlen.
    assert (Hpre : __mxio_opendir_containing_at dirfd (Some p) s
              = match containing_split p' (length p' - 1) with
                | None => (_ ← mxio_release d; mret (Err ERR_INVALID_ARGS, None, None))
                            (set_objs <[d := acquired od]> s)
                | Some (dirpath, name) =>
                    (s0 ← get;
                     let new := fresh (dom (objs s0)) in
                     '(r, fl) ← op_call d (CallOpen d dirpath O_DIRECTORY 0 new)
                                          (ops_open d dirpath O_DIRECTORY 0 new);
                     io ← (if is_err r then mret None
                           else _ ← store new {| flags := fl; refcount := 1;
                                                 dupcount := 0 |};
                                mret (Some new));
                     _ ← mxio_release d;
                     mret (r, io, Some name)) (set_objs <[d := acquired od]> s)
                end).
    { unfold __mxio_opendir_containing_at.
      erewrite bind_returns
        by (rewrite iodir_found, Hdir; cbn [fst];
            mstep ltac:(apply acquire_live; exact Hd); reflexivity).
      cbv beta iota.
      replace (strnlen p' (PATH_MAX - 1)) with (S (length p' - 1))
        by (unfold strnlen; lia).
      destruct (containing_split p' (length p' - 1)) as [[dirpath name]|]; reflexivity. }
    split.
    + intros Hsplit. rewrite Hpre, Hsplit.
      mstep ltac:(apply (release_restores d od s); [exact Hd | exact Hr | reflexivity]).
      mdone.
    + intros dirpath name Hsplit. rewrite Hpre, Hsplit.
      exact (open_release d od dirpath O_DIRECTORY 0 s
               (fun r io => (r, io, Some name)) Hd Hr).
Qed.

(** *** futimens *)

Lemma bind_assoc_at {A B C} (m : M A) (f : A -> M B) (g : B -> M C) s :
  ((m ≫= f) ≫= g) s = (m ≫= fun a => f a ≫= g) s.
Proof. unfold mbind, M_bind. destruct (m s); reflexivity. Qed.

(** X24.  [futimens] on an fd bound to a live object returns, and keeps
    the reference its lookup took: afterwards the object holds one
    reference more, and the table is as before.  Whatever error the
    transport answers to the attribute call, the result is -1 with
    errno EBADF.  The first of the two times is never read. *)
Theorem futimens_keeps_reference (s : mxio_state) (fd : Z) (p : ioref) (o : mxio_t)
    (times : option (timespec * timespec)) :
  in_table fd -> fdtab s !! fd = Some p -> objs s !! p = Some o ->
  (exists r s',
     futimens fd times s = Returns r s' /\
     objs s' = <[p := acquired o]> (objs s) /\ fdtab s' = fdtab s /\
     ((r = -1 /\ errno s' = EBADF) \/ (0 <= r /\ errno s' = errno s))) /\
  (forall t0 t0' t1, futimens fd (Some (t0, t1)) s = futimens fd (Some (t0', t1)) s).
Proof.
  intros Hin Hfd Hp. split; [|reflexivity].
  unfold futimens.
  mstep ltac:(eapply fd_to_io_bound; eassumption).
  set (sa := set_objs <[p := acquired o]> s).
  assert (Hset : forall vn s0, objs s0 = objs sa ->
            exists r s',
              (r0 ← mxio_setattr (Some p) vn; STATUS r0) s0 = Returns r s' /\
              objs s' = objs s0 /\ fdtab s' = fdtab s0 /\
              ((r = -1 /\ errno s' = EBADF) \/ (0 <= r /\ errno s' = errno s0))).
  { intros vn s0 Hs0. unfold mxio_setattr.
    assert (Hp0 : objs s0 !! p = Some (acquired o)) by (rewrite Hs0; apply lookup_insert_eq).
    cbv [mbind M_bind]. rewrite (op_call_live p (acquired o) _ _ s0 Hp0).
    destruct (ops_misc p MXRIO_SETATTR 0 0 (MiscAttr vn) (Z.of_N sizeof_vnattr) (world s0))
      as [[n|e] w]; cbn [fst snd is_err]; cbv [mret M_ret].
    - eexists. eexists. split; [reflexivity|]. split; [reflexivity|]. split; [reflexivity|].
      right. split; [lia | reflexivity].
    - eexists. eexists. split; [reflexivity|]. split; [reflexivity|]. split; [reflexivity|].
      left. split; reflexivity. }
  unfold mx_utimens. rewrite bind_assoc_at.
  destruct (match times with
            | Some (_, t1) => tv_nsec t1 =? UTIME_NOW
            | None => true
            end).
  - mstep ltac:(apply extern_returns).
    match goal with
    | |- context [mxio_setattr (Some p) ?vn] =>
        destruct (Hset vn (set_world CallTimeGet (mx_time_get (world sa)).2 sa) eq_refl)
          as (r & s' & E & Ho & Ht & He)
    end.
    exists r, s'. split; [exact E|]. split; [rewrite Ho; reflexivity|].
    split; [rewrite Ht; reflexivity | exact He].
  - destruct times as [[t0 t1]|].
    + mstep ltac:(reflexivity).
      match goal with
      | |- context [mxio_setattr (Some p) ?vn] =>
          destruct (Hset vn sa eq_refl) as (r & s' & E & Ho & Ht & He)
      end.
      exists r, s'. split; [exact E|]. split; [rewrite Ho; reflexivity|].
      split; [rewrite Ht; reflexivity | exact He].
    + mstep ltac:(reflexivity).
      match goal with
      | |- context [mxio_setattr (Some p) ?vn] =>
          destruct (Hset vn sa eq_refl) as (r & s' & E & Ho & Ht & He)
      end.
      exists r, s'. split; [exact E|]. split; [rewrite Ho; reflexivity|].
      split; [rewrite Ht; reflexivity | exact He].
Qed.

(** *** select *)

Lemma select_events_none fd rfds wfds efds :
  fd_isset fd rfds = false -> fd_isset fd wfds = false -> fd_isset fd efds = false ->
  select_events fd rfds wfds efds = 0.
Proof. intros Hr Hw He. unfold select_events. rewrite Hr, Hw, He. reflexivity. Qed.

Lemma select_events_some fd rfds wfds efds :
  fd_isset fd rfds = true \/ fd_isset fd wfds = true \/ fd_isset fd efds = true ->
  (select_events fd rfds wfds efds =? 0) = false.
Proof.
  intros Hset. unfold select_events.
  destruct (fd_isset fd rfds), (fd_isset fd wfds), (fd_isset fd efds);
    try reflexivity.
  destruct Hset as [Hs|[Hs|Hs]]; discriminate Hs.
Qed.

Lemma poll_release_idle k s : poll_release (replicate k None) s = Returns tt s.
Proof. induction k as [|k IH]; [reflexivity | exact IH]. Qed.

Lemma select_begin_idle rfds wfds efds k : forall fd s,
  (forall j, fd <= j < fd + Z.of_nat k -> select_events j rfds wfds efds = 0) ->
  select_begin k fd rfds wfds efds s
  = Returns {| ss_ios := replicate k None; ss_items := []; ss_r := NO_ERROR |} s.
Proof.
  induction k as [|k IH]; intros fd s Hidle; [reflexivity|].
  cbn [select_begin]. rewrite (Hidle fd) by lia. cbn [Z.eqb].
  mstep ltac:(apply IH; intros j Hj; apply Hidle; lia).
  reflexivity.
Qed.

Lemma select_begin_bad rfds wfds efds i : forall k fd s,
  (forall j, fd <= j < fd + Z.of_nat i -> select_events j rfds wfds efds = 0) ->
  (select_events (fd + Z.of_nat i) rfds wfds efds =? 0) = false ->
  bad_fd s (fd + Z.of_nat i) ->
  select_begin (i + S k) fd rfds wfds efds s
  = Returns {| ss_ios := replicate (S i) None; ss_items := [];
               ss_r := Err ERR_BAD_HANDLE |} s.
Proof.
  induction i as [|i IH]; intros k fd s Hidle Hask Hbad.
  - rewrite Z.add_0_r in Hask, Hbad. cbn [Nat.add select_begin]. rewrite Hask.
    mstep ltac:(apply fd_to_io_bad; exact Hbad). reflexivity.
  - cbn [Nat.add select_begin]. rewrite (Hidle fd) by lia. cbn [Z.eqb].
    mstep ltac:(apply (IH k (fd + 1) s);
                [ intros j Hj; apply Hidle; lia
                | replace (fd + 1 + Z.of_nat i) with (fd + Z.of_nat (S i)) by lia; exact Hask
                | replace (fd + 1 + Z.of_nat i) with (fd + Z.of_nat (S i)) by lia; exact Hbad ]).
    reflexivity.
Qed.

Lemma select_in_range n :
  1 <= n <= FD_SETSIZE -> ((n >? FD_SETSIZE) || (n <? 1)) = false.
Proof.
  intros [H1 H2]. apply orb_false_intro.
  - rewrite Z.gtb_ltb. apply Z.ltb_ge. exact H2.
  - apply Z.ltb_ge. exact H1.
Qed.

(** X25.  [select] with [n] above FD_SETSIZE or below 1 returns -1 with
    errno EINVAL.  With [n] in range and none of the fds below [n] in
    any of the three sets it returns 0 at once, for every timeout, also
    the infinite one: no kernel wait is made, and nothing changes.  When
    the lowest fd asked for names no object it returns -1 with errno
    EBADF and leaves the three sets as they were. *)
Theorem select_edges (s : mxio_state) (rfds wfds efds : option fd_set)
    (tv : option (Z * Z)) :
  (forall n, FD_SETSIZE < n \/ n < 1 ->
     select n rfds wfds efds tv s = Returns (-1, (rfds, wfds, efds)) (set_errno EINVAL s)) /\
  (forall n, 1 <= n <= FD_SETSIZE ->
     (forall fd, 0 <= fd < n ->
        fd_isset fd rfds = false /\ fd_isset fd wfds = false /\ fd_isset fd efds = false) ->
     select n rfds wfds efds tv s = Returns (0, (rfds, wfds, efds)) s) /\
  (forall n fd, 1 <= n <= FD_SETSIZE -> 0 <= fd < n ->
     (forall j, 0 <= j < fd ->
        fd_isset j rfds = false /\ fd_isset j wfds = false /\ fd_isset j efds = false) ->
     fd_isset fd rfds = true \/ fd_isset fd wfds = true \/ fd_isset fd efds = true ->
     bad_fd s fd ->
     select n rfds wfds efds tv s = Returns (-1, (rfds, wfds, efds)) (set_errno EBADF s)).
Proof.
  split; [|split].
  - intros n Hn. unfold select.
    replace ((n >? FD_SETSIZE) || (n <? 1)) with true; [reflexivity|].
    symmetry. apply orb_true_iff. destruct Hn as [Hn|Hn].
    + left. rewrite Z.gtb_ltb. apply Z.ltb_lt. exact Hn.
    + right. apply Z.ltb_lt. exact Hn.
  - intros n Hn Hidle. unfold select. rewrite (select_in_range n Hn).
    mstep ltac:(apply select_begin_idle; intros j Hj;
                destruct (Hidle j ltac:(lia)) as (Hr & Hw & He);
                apply select_events_none; assumption).
    cbn [ss_ios ss_items ss_r length]. rewrite andb_false_r.
    mstep ltac:(reflexivity).
    mstep ltac:(apply poll_release_idle).
    reflexivity.
  - intros n fd Hn Hfd Hidle Hask Hbad. unfold select. rewrite (select_in_range n Hn).
    replace (Z.to_nat n) with (Z.to_nat fd + S (Z.to_nat (n - fd - 1)))%nat by lia.
    mstep ltac:(apply select_begin_bad;
                [ intros j Hj; destruct (Hidle j ltac:(lia)) as (Hr & Hw & He);
                  apply select_events_none; assumption
                | rewrite Z2Nat.id by lia; apply select_events_some; exact Hask
                | rewrite Z2Nat.id by lia; exact Hbad ]).
    cbn [ss_ios ss_items ss_r length].
    rewrite bool_decide_eq_false_2 by discriminate. cbn [andb].
    mstep ltac:(reflexivity).
    mstep ltac:(apply (poll_release_idle (S (Z.to_nat fd)))).
    reflexivity.
Qed.

(** *** open keeps the table *)

Lemma slot_count_unbound (t : gmap Z ioref) p :
  (forall fd, t !! fd <> Some p) -> slot_count t p = O.
Proof.
  intros Hnone. destruct (slot_count t p) as [|n] eqn:E; [reflexivity|].
  destruct (slot_count_pos t p ltac:(lia)) as (fd & Hfd).
  contradiction (Hnone fd Hfd).
Qed.

Lemma table_ok_next_object s : table_ok s -> slot_count (fdtab s) (next_object s) = O.
Proof.
  intros Hok. apply slot_count_unbound. intros fd Hfd.
  destruct (table_ok_bound s fd _ Hok Hfd) as (_ & o & Ho & _).
  rewrite next_object_fresh in Ho. discriminate Ho.
Qed.

(** X26.  [openat] keeps the table and the objects in agreement: from
    a state in which every object of the table is live, counts its
    slots in [dupcount] and holds a reference for each of them, and in
    which the directory the path starts from is live, [openat] returns,
    for any path, flags and mode and whatever the transport answers,
    and leaves such a state again. *)
Theorem openat_keeps_table (s : mxio_state) (dirfd : Z) (path : option cstr)
    (oflags mode_arg : Z) :
  table_ok s ->
  (forall p d p', path = Some p -> iodir_of s p dirfd = (Some d, p') ->
     exists od, objs s !! d = Some od /\ 1 <= refcount od) ->
  exists r s', openat dirfd path oflags mode_arg s = Returns r s' /\ table_ok s'.
Proof.
  intros Hok Hdirlive.
  assert (Hsame : forall r s', fdtab s' = fdtab s -> objs s' = objs s ->
            openat dirfd path oflags mode_arg s = Returns r s' ->
            exists r s', openat dirfd path oflags mode_arg s = Returns r s' /\ table_ok s').
  { intros r s' Ht Ho E. exists r, s'. split; [exact E|].
    apply (table_ok_same s); assumption. }
  destruct (negb (Z.land oflags O_CREAT =? 0) && negb (Z.land oflags O_DIRECTORY =? 0))
    eqn:Eflags.
  { eapply Hsame; [| |unfold openat, vopenat; rewrite Eflags; reflexivity]; reflexivity. }
  assert (Hflags : Z.land oflags O_CREAT = 0 \/ Z.land oflags O_DIRECTORY = 0).
  { apply andb_false_iff in Eflags as [E|E]; apply negb_false_iff, Z.eqb_eq in E; auto. }
  assert (Hfailed : forall st,
            __mxio_open_at dirfd path oflags (open_mode oflags mode_arg) s
            = Returns (Err st, None) s ->
            exists r s', openat dirfd path oflags mode_arg s = Returns r s' /\ table_ok s').
  { intros st E. eapply Hsame; [| |unfold openat, vopenat; rewrite Eflags].
    3:{ replace (if negb (Z.land oflags O_CREAT =? 0)
                 then Z.land (to_uint32 mode_arg) 511 else 0)
          with (open_mode oflags mode_arg)
          by (unfold open_mode; destruct (Z.land oflags O_CREAT =? 0); reflexivity).
        mstep ltac:(exact E). reflexivity. }
    all: reflexivity. }
  destruct path as [p|]; [|apply (Hfailed ERR_INVALID_ARGS); reflexivity].
  destruct (decide (char_at p 0 = NUL)) as [Hnul|Hnul].
  { apply (Hfailed ERR_INVALID_ARGS). unfold __mxio_open_at.
    rewrite Hnul, Ascii.eqb_refl. reflexivity. }
  destruct (iodir_of s p dirfd) as [[d|] p'] eqn:Hdir.
  2:{ apply (Hfailed ERR_BAD_HANDLE). eapply open_at_no_dir; eassumption. }
  destruct (Hdirlive p d p' eq_refl Hdir) as (od & Hd & Hr).
  set (mode := open_mode oflags mode_arg).
  destruct (is_err (open_answer d p' oflags mode s).1.1) eqn:Hans.
  - (* the transport refuses *)
    eapply Hsame; [| |unfold openat, vopenat; rewrite Eflags].
    3:{ replace (if negb (Z.land oflags O_CREAT =? 0)
                 then Z.land (to_uint32 mode_arg) 511 else 0)
          with mode
          by (unfold mode, open_mode; destruct (Z.land oflags O_CREAT =? 0); reflexivity).
        rewrite (bind_is _ _ s _ (open_at_dir dirfd p d p' od oflags mode s Hnul Hdir Hd Hr)).
        cbv zeta. rewrite Hans. cbv iota beta. rewrite Hans. reflexivity. }
    all: reflexivity.
  - unfold openat.
    rewrite (vopenat_opened dirfd p d p' od oflags mode_arg s Hnul Hdir Hd Hr Hflags Hans).
    fold mode.
    set (n0 := {| flags := _; refcount := 1; dupcount := 0 |}).
    set (new := next_object s).
    set (s2 := set_objs <[new := n0]> (opened d p' oflags mode s)).
    assert (Hnew2 : objs s2 !! new = Some n0) by apply lookup_insert_eq.
    destruct (find_free_fd_scan (Z.to_nat (MAX_MXIO_FD - 0)) 0 s2 ltac:(lia)
                ltac:(unfold MAX_MXIO_FD; lia))
      as [(k & Hk & Hfree & Hlow & _)|[Hall _]].
    + mstep ltac:(apply (bind_any_lowest new n0 (-1) 0 k s2);
                  [lia | lia | exact Hnew2 | split; [lia | split; assumption]]).
      replace (k <? 0) with false by (symmetry; apply Z.ltb_ge; lia).
      eexists. eexists. split; [reflexivity|].
      apply (table_ok_slot s _ k new Hok); [unfold in_table; lia | exact Hfree | reflexivity | |].
      * intros q Hne. cbn [installed set_fdtab set_objs objs s2 opened set_world].
        rewrite !lookup_insert_ne by congruence. reflexivity.
      * replace (slot_count (fdtab s) new) with O
          by (symmetry; apply table_ok_next_object; exact Hok).
        eexists. split; [apply lookup_insert_eq|]. simpl. split; lia.
    + mstep ltac:(apply (bind_any_full new (-1) 0 s2); [lia | lia|];
                  intros j Hj; apply Hall; lia).
      change (-1 <? 0) with true. cbv iota.
      mstep ltac:(apply (op_call_live new n0); exact Hnew2).
      mstep ltac:(apply (release_live new n0); exact Hnew2).
      cbv [ERRNO]. mstep ltac:(reflexivity).
      eexists. eexists. split; [reflexivity|].
      apply (table_ok_same s); [reflexivity | | exact Hok].
      unfold s2. cbn [set_errno set_objs set_world opened objs].
      rewrite released_insert. change (refcount n0 =? 1) with true. cbv iota.
      apply delete_id. apply next_object_fresh.
Qed.

(** *** lseek, ftruncate, fsync, ioctl on a bound fd *)

Lemma fd_status_op fd p o c f s :
  in_table fd -> fdtab s !! fd = Some p -> objs s !! p = Some o -> 1 <= refcount o ->
  (io ← __mxio_fd_to_io fd;
   match io with
   | None => ERRNO EBADF
   | Some q =>
       st ← op_call q (c q) (f q);
       r ← STATUS st;
       _ ← mxio_release q;
       mret r
   end) s = STATUS (try_status (f p) s) (try_round (c p) (f p) s).
Proof.
  intros Hin Hfd Hp Hr.
  mstep ltac:(eapply fd_to_io_bound; eassumption).
  mstep ltac:(eapply op_call_live; apply lookup_insert_eq).
  unfold try_status, try_round.
  change (world (set_objs <[p:=acquired o]> s)) with (world s).
  destruct (f p (world s)) as [[n|e] w]; cbn [fst snd].
  - mstep ltac:(reflexivity).
    mstep ltac:(apply (release_restores p o s); [exact Hp | exact Hr | reflexivity]).
    mdone.
  - mstep ltac:(reflexivity).
    mstep ltac:(apply (release_restores p o s); [exact Hp | exact Hr | reflexivity]).
    mdone.
Qed.

(** X27.  [ftruncate], [fsync], [fdatasync], [ioctl] and [lseek] on an
    fd bound to a live object call the transport once (the [misc]
    operation with MXRIO_TRUNCATE and the length, the [misc] operation
    with MXRIO_SYNC, [posix_ioctl], [seek]), give the reference back,
    and return the transport's count, or -1 with the errno of its
    status.  [ioctl] takes the [ssize_t] answer of [posix_ioctl] as an
    [mx_status_t]: a count is cut to 32 bits before it is returned or
    translated. *)
Theorem fd_ops_result (s : mxio_state) (fd : Z) (p : ioref) (o : mxio_t) :
  in_table fd -> fdtab s !! fd = Some p -> objs s !! p = Some o -> 1 <= refcount o ->
  (forall len,
     let c := CallMisc p MXRIO_TRUNCATE len 0 MiscNull 0 in
     let f := ops_misc p MXRIO_TRUNCATE len 0 MiscNull 0 in
     ftruncate fd len s = STATUS (try_status f s) (try_round c f s)) /\
  (let c := CallMisc p MXRIO_SYNC 0 0 MiscNull 0 in
   let f := ops_misc p MXRIO_SYNC 0 0 MiscNull 0 in
   fsync fd s = STATUS (try_status f s) (try_round c f s) /\
   fdatasync fd s = STATUS (try_status f s) (try_round c f s)) /\
  (forall req ap,
     let c := CallPosixIoctl p req ap in
     let f := ops_posix_ioctl p req ap in
     ioctl fd req ap s = STATUS (to_mx_status (try_status f s)) (try_round c f s)) /\
  (forall offset whence,
     let c := CallSeek p offset whence in
     let f := ops_seek p offset whence in
     lseek fd offset whence s = STATUS (try_status f s) (try_round c f s)).
Proof.
  intros Hin Hfd Hp Hr. split; [|split; [|split]].
  - intros len c f. unfold ftruncate.
    exact (fd_status_op fd p o (fun q => CallMisc q MXRIO_TRUNCATE len 0 MiscNull 0)
             (fun q => ops_misc q MXRIO_TRUNCATE len 0 MiscNull 0) s Hin Hfd Hp Hr).
  - intros c f. unfold fdatasync, fsync.
    split; exact (fd_status_op fd p o (fun q => CallMisc q MXRIO_SYNC 0 0 MiscNull 0)
                    (fun q => ops_misc q MXRIO_SYNC 0 0 MiscNull 0) s Hin Hfd Hp Hr).
  - intros req ap c f. unfold ioctl.
    mstep ltac:(eapply fd_to_io_bound; eassumption).
    mstep ltac:(eapply op_call_live; apply lookup_insert_eq).
    mstep ltac:(apply (release_restores p o s); [exact Hp | exact Hr | reflexivity]).
    unfold try_status, try_round. fold f.
    change (world (set_objs <[p:=acquired o]> s)) with (world s).
    destruct (to_mx_status (f (world s)).1) as [n|e]; mdone.
  - intros offset whence c f. unfold lseek.
    mstep ltac:(eapply fd_to_io_bound; eassumption).
    mstep ltac:(eapply op_call_live; apply lookup_insert_eq).
    unfold try_status, try_round. fold f.
    change (world (set_objs <[p:=acquired o]> s)) with (world s).
    destruct (f (world s)) as [[n|e] w]; cbn [fst snd].
    + mstep ltac:(reflexivity).
      mstep ltac:(apply (release_restores p o s); [exact Hp | exact Hr | reflexivity]).
      mdone.
    + mstep ltac:(reflexivity).
      mstep ltac:(apply (release_restores p o s); [exact Hp | exact Hr | reflexivity]).
      mdone.
Qed.

(** *** getcwd *)

(** X28.  [getcwd] into a buffer of size 0 fails with errno EINVAL.
    Into a buffer of any other size it succeeds exactly when the size
    exceeds the length of the cwd string by more than one: a buffer that
    the string and its terminator fill exactly is refused with errno
    ERANGE.  Without a buffer the limit is PATH_MAX.  A [getcwd] that
    succeeds changes nothing. *)
Theorem getcwd_buffer (s : mxio_state) :
  let len := Z.of_nat (length (cwd_path s)) + 1 in
  (forall b, getcwd (Some b) 0 s = Returns None (set_errno EINVAL s)) /\
  (forall b size, len < size -> getcwd (Some b) size s = Returns (Some (cwd_path s)) s) /\
  (forall b size, size <> 0 -> size <= len ->
     getcwd (Some b) size s = Returns None (set_errno ERANGE s)) /\
  (forall b, getcwd (Some b) len s = Returns None (set_errno ERANGE s)) /\
  (forall size,
     getcwd None size s = if len <? Z.of_nat PATH_MAX then Returns (Some (cwd_path s)) s
                          else Returns None (set_errno ERANGE s)).
Proof.
  intros len.
  assert (Hcopy : forall b size, size <> 0 ->
            getcwd (Some b) size s = if len <? size then Returns (Some (cwd_path s)) s
                                     else Returns None (set_errno ERANGE s)).
  { intros b size Hsize. unfold getcwd.
    replace (size =? 0) with false by (symmetry; apply Z.eqb_neq; exact Hsize).
    mstep ltac:(reflexivity). fold len. destruct (len <? size); reflexivity. }
  split; [reflexivity|]. split; [|split; [|split]].
  - intros b size Hlt. rewrite Hcopy by (unfold len in Hlt; lia).
    replace (len <? size) with true by (symmetry; apply Z.ltb_lt; exact Hlt). reflexivity.
  - intros b size Hnz Hle. rewrite Hcopy by exact Hnz.
    replace (len <? size) with false by (symmetry; apply Z.ltb_ge; exact Hle). reflexivity.
  - intros b. rewrite Hcopy by (unfold len; lia). rewrite Z.ltb_irrefl. reflexivity.
  - intros size. unfold getcwd. mstep ltac:(reflexivity). fold len.
    destruct (len <? Z.of_nat PATH_MAX); reflexivity.
Qed.

(** *** What select leaves behind *)

Lemma fd_isset_clr_same fd set : fd_isset fd (fd_clr fd set) = false.
Proof.
  destruct set as [X|]; [|reflexivity]. cbn [fd_clr fmap option_fmap option_map fd_isset].
  apply bool_decide_eq_false. rewrite elem_of_difference, elem_of_singleton.
  intros [_ Hne]. apply Hne. reflexivity.
Qed.

Lemma fd_isset_clr_other fd fd' set :
  fd' <> fd -> fd_isset fd' (fd_clr fd set) = fd_isset fd' set.
Proof.
  intros Hne. destruct set as [X|]; [|reflexivity].
  cbn [fd_clr fmap option_fmap option_map fd_isset].
  apply bool_decide_ext. rewrite elem_of_difference, elem_of_singleton. tauto.
Qed.

Lemma select_mark_spec fd events evt set nfds :
  exists set',
    select_mark fd events evt set nfds = (set', nfds + (if fd_isset fd set' then 1 else 0)) /\
    (forall fd', fd' <> fd -> fd_isset fd' set' = fd_isset fd' set) /\
    (fd_isset fd set' = true -> fd_isset fd set = true).
Proof.
  unfold select_mark. destruct (fd_isset fd set) eqn:E.
  - destruct (Z.land events evt =? 0).
    + exists (fd_clr fd set). rewrite fd_isset_clr_same, Z.add_0_r.
      split; [reflexivity|]. split; [|discriminate].
      intros fd' Hne. apply fd_isset_clr_other. exact Hne.
    + exists set. rewrite E. split; [reflexivity|]. split; [reflexivity | intros _; reflexivity].
  - exists set. rewrite E, Z.add_0_r. split; [reflexivity|].
    split; [reflexivity | discriminate].
Qed.

Lemma select_events_zero fd rfds wfds efds :
  select_events fd rfds wfds efds = 0 ->
  fd_isset fd rfds = false /\ fd_isset fd wfds = false /\ fd_isset fd efds = false.
Proof.
  unfold select_events.
  destruct (fd_isset fd rfds), (fd_isset fd wfds), (fd_isset fd efds);
    vm_compute; intros Hz; try discriminate Hz; repeat split; reflexivity.
Qed.

Lemma fd_count_idle set k : forall fd,
  (forall i, (i < k)%nat -> fd_isset (fd + Z.of_nat i) set = false) ->
  fd_count k fd set = 0.
Proof.
  induction k as [|k IH]; intros fd Hidle; [reflexivity|].
  cbn [fd_count]. pose proof (Hidle O ltac:(lia)) as H0. rewrite Z.add_0_r in H0.
  rewrite H0, IH; [reflexivity|].
  intros i Hi. replace (fd + 1 + Z.of_nat i) with (fd + Z.of_nat (S i)) by lia.
  apply Hidle. lia.
Qed.

Lemma fd_count_same k : forall fd A B,
  (forall fd', fd <= fd' < fd + Z.of_nat k -> fd_isset fd' A = fd_isset fd' B) ->
  fd_count k fd A = fd_count k fd B.
Proof.
  induction k as [|k IH]; intros fd A B Hsame; [reflexivity|].
  cbn [fd_count]. rewrite (Hsame fd) by lia. f_equal.
  apply IH. intros fd' Hfd'. apply Hsame. lia.
Qed.

(** The first loop: it takes a reference for every entry it writes to
    [ios]; when it ends without an error it has written all of them,
    one item for each entry that is not NULL, and the fds of the NULL
    entries are in none of the sets. *)
Lemma select_begin_scan rfds wfds efds k : forall fd s,
  wf_table s ->
  exists sc,
    select_begin k fd rfds wfds efds s
    = Returns sc (set_objs (bump (omap id (ss_ios sc))) s) /\
    Forall (live (objs s)) (omap id (ss_ios sc)) /\
    ss_r sc <> Err ERR_TIMED_OUT /\
    (ss_r sc = NO_ERROR ->
       length (ss_ios sc) = k /\
       length (ss_items sc) = length (omap id (ss_ios sc)) /\
       forall i, ss_ios sc !! i = Some None ->
         select_events (fd + Z.of_nat i) rfds wfds efds = 0).
Proof.
  induction k as [|k IH]; intros fd s Hwf.
  - exists {| ss_ios := []; ss_items := []; ss_r := NO_ERROR |}. split; [|split; [|split]].
    + cbn [select_begin]. unfold mret, M_ret. f_equal. apply state_eq; reflexivity.
    + constructor.
    + discriminate.
    + intros _. split; [reflexivity|]. split; [reflexivity|]. intros i Hi. discriminate Hi.
  - cbn [select_begin].
    destruct (select_events fd rfds wfds efds =? 0) eqn:Eev.
    + destruct (IH (fd + 1) s Hwf) as (sc & Ek & Hlive & Hto & Hok).
      mstep ltac:(exact Ek).
      exists {| ss_ios := None :: ss_ios sc; ss_items := ss_items sc; ss_r := ss_r sc |}.
      split; [reflexivity|]. cbn [ss_ios ss_items ss_r omap list_omap id].
      split; [exact Hlive|]. split; [exact Hto|].
      intros Hr. destruct (Hok Hr) as (Hlen & Hitems & Hidle).
      split; [cbn [length]; rewrite Hlen; reflexivity|]. split; [exact Hitems|].
      intros [|i] Hi.
      * rewrite Z.add_0_r. apply Z.eqb_eq. exact Eev.
      * replace (fd + Z.of_nat (S i)) with (fd + 1 + Z.of_nat i) by lia.
        apply Hidle. exact Hi.
    + destruct (lookup_fd s fd) as [p|] eqn:Elk.
      * destruct (lookup_fd_some _ _ _ Elk) as [Hin Hfd].
        destruct (Hwf _ _ Hfd) as (o & Ho & Hr).
        mstep ltac:(eapply fd_to_io_bound; eassumption).
        rewrite (set_objs_ext _ (alter acquired p) s (insert_acquired p o _ Ho)).
        set (s1 := set_objs (alter acquired p) s).
        assert (Hp1 : objs s1 !! p = Some (acquired o)).
        { simpl. rewrite lookup_alter_eq, Ho. reflexivity. }
        mstep ltac:(apply deref_live; exact Hp1).
        destruct (ops_wait_begin p (select_events fd rfds wfds efds)) as [h sigs] eqn:Ewb.
        destruct (h =? MX_HANDLE_INVALID) eqn:Eh.
        { exists {| ss_ios := [Some p]; ss_items := []; ss_r := Err ERR_INVALID_ARGS |}.
          split; [reflexivity|]. cbn [ss_ios ss_items ss_r omap list_omap id].
          split; [constructor; [exists o; split; assumption | constructor]|].
          split; discriminate. }
        destruct (IH (fd + 1) s1 (wf_table_acquired s p Hwf)) as (sc & Ek & Hlive & Hto & Hok).
        mstep ltac:(exact Ek).
        exists {| ss_ios := Some p :: ss_ios sc;
                  ss_items := {| wi_handle := h; wi_waitfor := sigs; wi_pending := 0 |}
                              :: ss_items sc;
                  ss_r := ss_r sc |}.
        split; [|split; [|split]].
        { unfold mret, M_ret. f_equal. cbn [ss_ios omap list_omap id].
          unfold s1. apply set_objs_twice.
          cbn [bump foldr]. fold (bump (omap id (ss_ios sc)) (objs s)).
          apply bump_alter_comm. }
        { cbn [ss_ios omap list_omap id]. constructor; [exists o; split; assumption|].
          eapply Forall_impl; [exact Hlive|]. intros q (oq & Hq & Hrq). simpl in Hq.
          rewrite lookup_alter in Hq. case_decide.
          - subst q. rewrite Ho in Hq. injection Hq as <-. exists o. split; assumption.
          - exists oq. split; assumption. }
        { exact Hto. }
        cbn [ss_ios ss_items ss_r omap list_omap id length].
        intros Hr'. destruct (Hok Hr') as (Hlen & Hitems & Hidle).
        split; [rewrite Hlen; reflexivity|]. split; [rewrite Hitems; reflexivity|].
        intros [|i] Hi; [discriminate Hi|].
        replace (fd + Z.of_nat (S i)) with (fd + 1 + Z.of_nat i) by lia.
        apply Hidle. exact Hi.
      * apply lookup_fd_none in Elk.
        mstep ltac:(apply fd_to_io_bad; exact Elk).
        exists {| ss_ios := [None]; ss_items := []; ss_r := Err ERR_BAD_HANDLE |}.
        split; [|split; [|split]].
        { unfold mret, M_ret. f_equal. apply state_eq; reflexivity. }
        { constructor. }
        { discriminate. }
        { discriminate. }
Qed.

(** The second loop: it changes no state, clears bits only, only those
    of the fds it walks over, and adds to [nfds] the number of bits it
    leaves. *)
Lemma select_end_count pending nvalid ios : forall fd j rf wf ef nfds s,
  Forall (fun p => is_Some (objs s !! p)) (omap id ios) ->
  (forall i, ios !! i = Some None ->
     fd_isset (fd + Z.of_nat i) rf = false /\ fd_isset (fd + Z.of_nat i) wf = false /\
     fd_isset (fd + Z.of_nat i) ef = false) ->
  (j + length (omap id ios) <= nvalid)%nat ->
  exists rf' wf' ef',
    select_end ios fd pending nvalid j rf wf ef nfds s
    = Returns (rf', wf', ef',
               nfds + (fd_count (length ios) fd rf' + fd_count (length ios) fd wf'
                       + fd_count (length ios) fd ef')) s /\
    (forall fd', ~ (fd <= fd' < fd + Z.of_nat (length ios)) ->
       fd_isset fd' rf' = fd_isset fd' rf /\ fd_isset fd' wf' = fd_isset fd' wf /\
       fd_isset fd' ef' = fd_isset fd' ef) /\
    (forall fd', (fd_isset fd' rf' = true -> fd_isset fd' rf = true) /\
                 (fd_isset fd' wf' = true -> fd_isset fd' wf = true) /\
                 (fd_isset fd' ef' = true -> fd_isset fd' ef = true)).
Proof.
  induction ios as [|[p|] ios IH]; intros fd j rf wf ef nfds s Hlive Hidle Hj.
  - exists rf, wf, ef. cbn [select_end length fd_count]. rewrite Z.add_0_r.
    split; [reflexivity|]. split; intros fd'; repeat split; trivial.
  - cbn [omap list_omap id length] in Hlive, Hj.
    apply Forall_cons in Hlive as [[o Ho] Hlive].
    cbn [select_end].
    replace (j <? nvalid)%nat with true by (symmetry; apply Nat.ltb_lt; lia).
    mstep ltac:(apply deref_live; exact Ho).
    set (events := to_uint32 (ops_wait_end p (nth j pending 0))).
    destruct (select_mark_spec fd events EPOLLIN rf nfds) as (rf1 & E1 & Hoth1 & Hsub1).
    rewrite E1.
    destruct (select_mark_spec fd events EPOLLOUT wf
                (nfds + (if fd_isset fd rf1 then 1 else 0))) as (wf1 & E2 & Hoth2 & Hsub2).
    rewrite E2.
    destruct (select_mark_spec fd events EPOLLERR ef
                (nfds + (if fd_isset fd rf1 then 1 else 0)
                 + (if fd_isset fd wf1 then 1 else 0))) as (ef1 & E3 & Hoth3 & Hsub3).
    rewrite E3.
    destruct (IH (fd + 1) (S j) rf1 wf1 ef1
                (nfds + (if fd_isset fd rf1 then 1 else 0)
                 + (if fd_isset fd wf1 then 1 else 0)
                 + (if fd_isset fd ef1 then 1 else 0)) s Hlive)
      as (rf' & wf' & ef' & Eend & Hout & Hsub).
    { intros i Hi. destruct (Hidle (S i) Hi) as (Hr & Hw & He).
      replace (fd + 1 + Z.of_nat i) with (fd + Z.of_nat (S i)) by lia.
      rewrite Hoth1, Hoth2, Hoth3 by lia. repeat split; assumption. }
    { lia. }
    exists rf', wf', ef'. rewrite Eend. split; [|split].
    + f_equal. f_equal. cbn [length fd_count].
      destruct (Hout fd ltac:(lia)) as (-> & -> & ->). lia.
    + intros fd' Hfd'. cbn [length] in Hfd'.
      destruct (Hout fd' ltac:(lia)) as (-> & -> & ->).
      rewrite Hoth1, Hoth2, Hoth3 by lia. repeat split; reflexivity.
    + intros fd'. destruct (Hsub fd') as (Hr & Hw & He).
      destruct (Z.eq_dec fd' fd) as [->|Hne].
      * repeat split; intros Hset; [apply Hsub1, Hr | apply Hsub2, Hw | apply Hsub3, He];
          exact Hset.
      * rewrite <- (Hoth1 fd' Hne), <- (Hoth2 fd' Hne), <- (Hoth3 fd' Hne).
        repeat split; assumption.
  - cbn [omap list_omap id length] in Hlive, Hj. cbn [select_end].
    destruct (Hidle O eq_refl) as (Hr0 & Hw0 & He0). rewrite Z.add_0_r in Hr0, Hw0, He0.
    destruct (IH (fd + 1) j rf wf ef nfds s Hlive) as (rf' & wf' & ef' & Eend & Hout & Hsub).
    { intros i Hi. replace (fd + 1 + Z.of_nat i) with (fd + Z.of_nat (S i)) by lia.
      apply Hidle. exact Hi. }
    { exact Hj. }
    exists rf', wf', ef'. rewrite Eend. split; [|split].
    + f_equal. f_equal. cbn [length fd_count].
      destruct (Hout fd ltac:(lia)) as (-> & -> & ->). rewrite Hr0, Hw0, He0. lia.
    + intros fd' Hfd'. cbn [length] in Hfd'. apply Hout. lia.
    + exact Hsub.
Qed.

Lemma bumped_live ps (m : gmap ioref mxio_t) :
  Forall (live m) ps -> Forall (fun p => is_Some (bump ps m !! p)) ps.
Proof.
  intros Hlive. apply Forall_forall. intros p Hp.
  rewrite Forall_forall in Hlive. destruct (Hlive p Hp) as (o & Ho & _).
  destruct (bump_lookup ps p o m Ho) as (o' & Ho' & _). exists o'. exact Ho'.
Qed.

Lemma select_scan_idle (sc : select_scan) k fd rfds wfds efds :
  length (ss_ios sc) = k -> length (omap id (ss_ios sc)) = O ->
  (forall i, ss_ios sc !! i = Some None ->
     select_events (fd + Z.of_nat i) rfds wfds efds = 0) ->
  fd_count k fd rfds = 0 /\ fd_count k fd wfds = 0 /\ fd_count k fd efds = 0.
Proof.
  intros Hlen Hnone Hidle.
  assert (Hall : forall i, (i < k)%nat -> ss_ios sc !! i = Some None).
  { intros i Hi. destruct (ss_ios sc !! i) as [[p|]|] eqn:Ei.
    - exfalso. assert (Hin : p ∈ omap id (ss_ios sc)).
      { apply list_elem_of_omap. exists (Some p). split; [|reflexivity].
        eapply list_elem_of_lookup_2. exact Ei. }
      destruct (omap id (ss_ios sc)); [inversion Hin | discriminate Hnone].
    - reflexivity.
    - apply lookup_ge_None in Ei. lia. }
  repeat split; apply fd_count_idle; intros i Hi;
    destruct (select_events_zero _ _ _ _ (Hidle i (Hall i Hi))) as (Hr & Hw & He);
    assumption.
Qed.

(** X29.  On a table whose slots point to live objects [select] always
    returns, and leaves the fd table and the objects, reference counts
    included, as they were.  It only clears bits of the three sets, and
    only bits of fds below [n].  When it returns -1 the three sets are
    as they were; otherwise its result is the number of bits the three
    sets are left with below [n]. *)
Theorem select_result (s : mxio_state) (n : Z) (rfds wfds efds : option fd_set)
    (tv : option (Z * Z)) :
  wf_table s ->
  exists r rf wf ef s',
    select n rfds wfds efds tv s = Returns (r, (rf, wf, ef)) s' /\
    fdtab s' = fdtab s /\ objs s' = objs s /\
    (forall fd, (fd_isset fd rf = true -> fd_isset fd rfds = true) /\
                (fd_isset fd wf = true -> fd_isset fd wfds = true) /\
                (fd_isset fd ef = true -> fd_isset fd efds = true)) /\
    (forall fd, ~ (0 <= fd < n) ->
       fd_isset fd rf = fd_isset fd rfds /\ fd_isset fd wf = fd_isset fd wfds /\
       fd_isset fd ef = fd_isset fd efds) /\
    ((r = -1 /\ rf = rfds /\ wf = wfds /\ ef = efds) \/
     (r = fd_count (Z.to_nat n) 0 rf + fd_count (Z.to_nat n) 0 wf
          + fd_count (Z.to_nat n) 0 ef)).
Proof.
  intros Hwf.
  assert (Hsame : forall A B C : option fd_set,
            (forall fd, (fd_isset fd A = true -> fd_isset fd A = true) /\
                        (fd_isset fd B = true -> fd_isset fd B = true) /\
                        (fd_isset fd C = true -> fd_isset fd C = true)) /\
            (forall fd, ~ (0 <= fd < n) ->
               fd_isset fd A = fd_isset fd A /\ fd_isset fd B = fd_isset fd B /\
               fd_isset fd C = fd_isset fd C)).
  { intros A B C. split; intros fd; repeat split; trivial. }
  unfold select. destruct ((n >? FD_SETSIZE) || (n <? 1)) eqn:En.
  { exists (-1), rfds, wfds, efds, (set_errno EINVAL s).
    split; [reflexivity|]. split; [reflexivity|]. split; [reflexivity|].
    split; [apply Hsame|]. split; [apply Hsame|]. left. repeat split. }
  apply orb_false_elim in En as [En1 En2].
  rewrite Z.gtb_ltb in En1. apply Z.ltb_ge in En1. apply Z.ltb_ge in En2.
  destruct (select_begin_scan rfds wfds efds (Z.to_nat n) 0 s Hwf)
    as (sc & Ebegin & Hlive & Hto & Hok).
  mstep ltac:(exact Ebegin).
  set (ps := omap id (ss_ios sc)) in *.
  set (s1 := set_objs (bump ps) s).
  assert (Hrel : forall s2, objs s2 = objs s1 ->
            poll_release (ss_ios sc) s2 = Returns tt (set_objs (fun _ => objs s) s2)).
  { intros s2 Hs2. apply poll_release_bumped; [exact Hlive | exact Hs2]. }
  destruct (bool_decide (ss_r sc = NO_ERROR) && (0 <? length (ss_items sc))%nat) eqn:Ego.
  - (* the kernel wait *)
    apply andb_true_iff in Ego as [Hr0 Hnv]. apply bool_decide_eq_true in Hr0.
    apply Nat.ltb_lt in Hnv. destruct (Hok Hr0) as (Hlen & Hitems & Hidle).
    set (tmo := match tv with
                | None => MX_TIME_INFINITE
                | Some (sec, usec) => (MX_SEC sec + MX_USEC usec) mod 2 ^ 64
                end).
    rewrite (bind_assoc_at _ _ _ s1).
    mstep ltac:(apply extern_returns).
    destruct (mx_object_wait_many (ss_items sc) tmo (world s1)) as [[r pending] w'] eqn:Ewait.
    cbn [fst snd].
    set (s2 := set_world (CallWaitMany (ss_items sc) tmo) w' s1).
    destruct (bool_decide (r = NO_ERROR) || bool_decide (r = Err ERR_TIMED_OUT)) eqn:Er.
    + destruct (select_end_count pending (length (ss_items sc)) (ss_ios sc) 0 0
                  rfds wfds efds 0 s2) as (rf & wf & ef & Eend & Hout & Hsub).
      { apply bumped_live. exact Hlive. }
      { intros i Hi. apply select_events_zero. apply Hidle. exact Hi. }
      { fold ps. lia. }
      rewrite (bind_assoc_at _ _ _ s2).
      mstep ltac:(exact Eend).
      mstep ltac:(reflexivity).
      mstep ltac:(apply Hrel; reflexivity).
      rewrite Er.
      exists (0 + (fd_count (length (ss_ios sc)) 0 rf + fd_count (length (ss_ios sc)) 0 wf
                   + fd_count (length (ss_ios sc)) 0 ef)), rf, wf, ef,
             (set_objs (fun _ => objs s) s2).
      split; [reflexivity|]. split; [reflexivity|]. split; [reflexivity|].
      split; [exact Hsub|]. split.
      * intros fd Hfd. apply Hout. rewrite Hlen. lia.
      * right. rewrite Hlen. lia.
    + mstep ltac:(reflexivity).
      mstep ltac:(apply Hrel; reflexivity).
      rewrite Er.
      exists (-1), rfds, wfds, efds,
             (set_errno (error_errno r) (set_objs (fun _ => objs s) s2)).
      split; [reflexivity|]. split; [reflexivity|]. split; [reflexivity|].
      split; [apply Hsame|]. split; [apply Hsame|]. left. repeat split.
  - (* no kernel wait *)
    mstep ltac:(reflexivity).
    mstep ltac:(apply Hrel; reflexivity).
    destruct (bool_decide (ss_r sc = NO_ERROR) || bool_decide (ss_r sc = Err ERR_TIMED_OUT))
      eqn:Er.
    + apply orb_true_iff in Er as [Er|Er]; apply bool_decide_eq_true in Er;
        [|contradiction].
      destruct (Hok Er) as (Hlen & Hitems & Hidle).
      rewrite bool_decide_eq_true_2 in Ego by exact Er. cbn [andb] in Ego.
      apply Nat.ltb_ge in Ego.
      destruct (select_scan_idle sc (Z.to_nat n) 0 rfds wfds efds Hlen
                  ltac:(fold ps; lia) Hidle) as (Hcr & Hcw & Hce).
      exists 0, rfds, wfds, efds, (set_objs (fun _ => objs s) s1).
      split; [reflexivity|]. split; [reflexivity|]. split; [reflexivity|].
      split; [apply Hsame|]. split; [apply Hsame|]. right.
      rewrite Hcr, Hcw, Hce. reflexivity.
    + exists (-1), rfds, wfds, efds,
             (set_errno (error_errno (ss_r sc)) (set_objs (fun _ => objs s) s1)).
      split; [reflexivity|]. split; [reflexivity|]. split; [reflexivity|].
      split; [apply Hsame|]. split; [apply Hsame|]. left. repeat split.
Qed.

End MoreFacts.

(** ** The further properties on the example world *)

Lemma example_table_ok fl : table_ok (example_state fl).
Proof.
  split.
  - intros fd p Hfd. change (({[3 := 1%positive]} : gmap Z ioref) !! fd = Some p) in Hfd.
    apply lookup_singleton_Some in Hfd as [<- _]. apply example_in_table.
  - intros p Hp. apply slot_count_pos in Hp as [fd Hfd].
    change (({[3 := 1%positive]} : gmap Z ioref) !! fd = Some p) in Hfd.
    apply lookup_singleton_Some in Hfd as [<- <-].
    exists (example_obj fl). split; [reflexivity|]. split; [|simpl; lia].
    vm_compute. reflexivity.
Qed.

Lemma full_state_full j : 0 <= j < MAX_MXIO_FD -> fdtab full_state !! j <> None.
Proof.
  intros Hj Hno. unfold full_state in Hno. cbn [fdtab set_fdtab] in Hno.
  apply not_elem_of_list_to_map in Hno. apply Hno.
  rewrite <- list_fmap_compose. apply list_elem_of_fmap.
  exists (Z.to_nat j). split; [simpl; lia|].
  apply elem_of_seq. unfold MAX_MXIO_FD in Hj. lia.
Qed.

Lemma close_releases_slot_witness :
  exists s', close 3 (example_state 0) = Returns 0 s' /\
             fdtab s' = ∅ /\ objs s' !! 1%positive = None /\
             calls s' = [CallClose 1%positive] /\
             close 3 s' = Returns (-1) (set_errno EBADF s').
Proof.
  destruct (close_releases_slot (example_state 0) 3 1%positive (example_obj 0)
              example_in_table eq_refl eq_refl) as (_ & Hlast & _ & _ & Hagain).
  specialize (Hlast ltac:(simpl; lia)).
  eexists. split; [rewrite Hlast; reflexivity|].
  split; [reflexivity|]. split; [reflexivity|]. split; [reflexivity|].
  apply (Hagain 0). rewrite Hlast. reflexivity.
Defined.

Lemma dup_close_round_trip_witness :
  exists s1, dup 3 (example_state 0) = Returns 0 s1 /\
             lookup_fd s1 0 = Some 1%positive /\ lookup_fd s1 3 = Some 1%positive /\
             close 0 s1 = Returns 0 (example_state 0).
Proof.
  assert (Hfree : lowest_free (example_state 0) 0 0).
  { split; [unfold MAX_MXIO_FD; lia|]. split; [reflexivity | intros j Hj; lia]. }
  destruct (dup_close_round_trip (example_state 0) 3 0 1%positive (example_obj 0)
              example_in_table eq_refl eq_refl ltac:(simpl; lia) ltac:(simpl; lia) Hfree)
    as (s1 & Hdup & Hk & Hfd & _ & Hclose).
  exists s1. repeat split; assumption.
Defined.

Lemma dup2_same_fd_witness :
  dup2 3 3 (example_state 0)
  = Returns 3 (try_round (CallClose 1%positive) (ops_close 1%positive) (example_state 0)) /\
  lookup_fd (try_round (CallClose 1%positive) (ops_close 1%positive) (example_state 0)) 3
  = Some 1%positive /\
  dup3 3 3 0 (example_state 0) = Returns (-1) (set_errno EINVAL (example_state 0)).
Proof.
  destruct (dup2_same_fd (example_state 0) 3 1%positive (example_obj 0)
              example_in_table eq_refl eq_refl ltac:(simpl; lia)) as (_ & Hlast & Hdup3).
  split; [apply Hlast; simpl; lia|]. split; [reflexivity | apply Hdup3].
Defined.

Lemma dup2_takes_slot_witness :
  (exists s', dup2 3 5 (example_state 0) = Returns 5 s' /\
              lookup_fd s' 5 = Some 1%positive /\ calls s' = []) /\
  (exists s', dup2 3 5 example_state2 = Returns 5 s' /\
              lookup_fd s' 5 = Some 1%positive /\ lookup_fd s' 3 = Some 1%positive /\
              objs s' !! 6%positive = None /\ calls s' = [CallClose 6%positive]).
Proof.
  assert (Hin : in_table 5) by (unfold in_table, MAX_MXIO_FD; lia).
  split.
  - destruct (dup2_takes_slot (example_state 0) 3 5 1%positive (example_obj 0)
                example_in_table eq_refl eq_refl Hin) as [Hfree _].
    eexists. split; [apply Hfree; reflexivity|]. split; reflexivity.
  - destruct (dup2_takes_slot example_state2 3 5 1%positive (example_obj 0)
                example_in_table eq_refl eq_refl Hin) as [_ Hbound].
    destruct (Hbound 6%positive (example_obj 0) eq_refl ltac:(discriminate) eq_refl)
      as (_ & Hlast & _).
    eexists. split; [apply Hlast; simpl; lia|]. repeat split; reflexivity.
Defined.

Lemma mxio_unbind_from_fd_in_range_witness :
  (exists s', mxio_unbind_from_fd 3 (example_state 0) = Returns (NO_ERROR, Some 1%positive) s' /\
              bad_fd s' 3 /\ calls s' = []) /\
  mxio_unbind_from_fd 7 (example_state 0)
  = Returns (Err ERR_INVALID_ARGS, None) (example_state 0).
Proof.
  split.
  - destruct (mxio_unbind_from_fd_in_range (example_state 0) 3 ltac:(lia)) as [_ Hbound].
    destruct (Hbound 1%positive (example_obj 0) ltac:(unfold MAX_MXIO_FD; lia) eq_refl eq_refl)
      as [_ Hsole].
    destruct (Hsole ltac:(simpl; lia) ltac:(simpl; lia)) as (s' & Hs' & Hbad & _ & _ & Hcalls).
    exists s'. repeat split; assumption.
  - destruct (mxio_unbind_from_fd_in_range (example_state 0) 7 ltac:(lia)) as [Hfree _].
    apply Hfree. right. reflexivity.
Defined.

Lemma write_pread_pwrite_retry_witness :
  (exists s', write 2 3 (Some 100) 3 (slow_state 0) = Returns 3 s' /\
              calls s' = [CallWrite 1%positive 100 3;
                          CallWaitOne 1 4 MX_TIME_INFINITE;
                          CallWrite 1%positive 100 3]) /\
  write 1 3 (Some 100) 3 (slow_state 0) = OutOfFuel /\
  (exists s', pread 2 3 (Some 100) 3 7 (slow_state 0) = Returns 3 s' /\
              calls s' = [CallReadAt 1%positive 100 3 7;
                          CallWaitOne 1 1 MX_TIME_INFINITE;
                          CallReadAt 1%positive 100 3 7]) /\
  (exists s', pwrite 2 3 (Some 100) 3 7 (slow_state 0) = Returns 3 s' /\
              calls s' = [CallWriteAt 1%positive 100 3 7;
                          CallWaitOne 1 4 MX_TIME_INFINITE;
                          CallWriteAt 1%positive 100 3 7]) /\
  (exists s', write 1 3 (Some 100) 3 (slow_state 16) = Returns (-1) s' /\
              errno s' = EAGAIN /\ calls s' = [CallWrite 1%positive 100 3]).
Proof.
  destruct (write_pread_pwrite_retry (slow_state 0) 3 1%positive (example_obj 0) 100 3 7
              example_in_table eq_refl eq_refl ltac:(simpl; lia)) as [_ Hblock].
  destruct (Hblock eq_refl 1%nat 2%nat) as (Hw & Hr & Hp).
  destruct (Hblock eq_refl 1%nat 1%nat) as (Hw1 & _ & _).
  assert (Hone : forall j, (j < 1)%nat -> j = O) by (intros j Hj; lia).
  split; [|split; [|split; [|split]]].
  - destruct Hw as [Hret _].
    { split; [intros j Hj; rewrite (Hone j Hj); reflexivity | vm_compute; discriminate]. }
    eexists. split; [rewrite Hret by lia; reflexivity | reflexivity].
  - destruct Hw1 as [_ Hout].
    { split; [intros j Hj; rewrite (Hone j Hj); reflexivity | vm_compute; discriminate]. }
    apply Hout. lia.
  - destruct Hr as [Hret _].
    { split; [intros j Hj; rewrite (Hone j Hj); reflexivity | vm_compute; discriminate]. }
    eexists. split; [rewrite Hret by lia; reflexivity | reflexivity].
  - destruct Hp as [Hret _].
    { split; [intros j Hj; rewrite (Hone j Hj); reflexivity | vm_compute; discriminate]. }
    eexists. split; [rewrite Hret by lia; reflexivity | reflexivity].
  - destruct (write_pread_pwrite_retry (slow_state 16) 3 1%positive (example_obj 16) 100 3 7
                example_in_table eq_refl eq_refl ltac:(simpl; lia)) as [Hnb _].
    destruct (Hnb ltac:(vm_compute; discriminate) 0%nat) as (Hw16 & _ & _).
    eexists. split; [rewrite Hw16; reflexivity|]. split; reflexivity.
Defined.

Lemma vectored_io_progress_witness :
  exists s', writev 1 3 [ {| iov_base := Some 100; iov_len := 3 |};
                          {| iov_base := None; iov_len := 2 |} ] (example_state 0)
             = Returns 3 s' /\
             errno s' = EINVAL /\ calls s' = [CallWrite 1%positive 100 3].
Proof.
  destruct (vectored_io_progress (example_state 0)
              (try_round (CallWrite 1%positive 100 3) (ops_write 1%positive 100 3)
                 (example_state 0))
              1 3 0 3 {| iov_base := Some 100; iov_len := 3 |}
              [ {| iov_base := None; iov_len := 2 |} ]
              ltac:(simpl; lia) ltac:(repeat constructor; simpl; lia))
    as (_ & Hw & _ & _).
  destruct (Hw eq_refl) as [_ Hfull].
  destruct (Hfull ltac:(simpl; lia)) as [Heq _].
  eexists. split; [rewrite Heq; reflexivity|]. split; reflexivity.
Defined.

Lemma fcntl_setfl_getfl_witness :
  exists s1, fcntl 3 F_SETFL O_NONBLOCK (example_state 0) = Returns 0 s1 /\
             fcntl 3 F_GETFL 0 s1 = Returns O_NONBLOCK s1 /\
             exists s2, read 1 3 (Some 100) 3 s1 = Returns (-1) s2 /\ errno s2 = EAGAIN.
Proof.
  destruct (fcntl_setfl_getfl (example_state 0) 3 O_NONBLOCK 1%positive (example_obj 0)
              example_in_table eq_refl eq_refl ltac:(simpl; lia) ltac:(simpl; lia))
    as (Hset & Hget & Hread).
  eexists. split; [exact Hset|]. split; [exact Hget|].
  eexists. split; [apply (Hread eq_refl 100 3 0%nat); reflexivity | reflexivity].
Defined.

Lemma fcntl_setfd_getfd_witness :
  exists s1, fcntl 3 F_GETFD 0 (example_state 0) = Returns 0 (example_state 0) /\
             fcntl 3 F_SETFD 1 (example_state 0) = Returns 0 s1 /\
             fcntl 3 F_GETFD 0 s1 = Returns 1 s1.
Proof.
  destruct (fcntl_setfd_getfd (example_state 0) 3 1 1%positive (example_obj 0)
              example_in_table eq_refl eq_refl ltac:(simpl; lia) ltac:(simpl; lia))
    as (Hget & Hset & Hget' & _).
  eexists. split; [exact Hget|]. split; [exact Hset | exact Hget'].
Defined.

Lemma fstat_result_witness :
  exists s', fstat 3 (example_state 0) = Returns 0 s' /\
             calls s' = [CallMisc 1%positive MXRIO_STAT 0 56 MiscStatBuf 0].
Proof.
  eexists. split.
  - rewrite (fstat_result (example_state 0) 3 1%positive (example_obj 0)
               example_in_table eq_refl eq_refl ltac:(simpl; lia)).
    reflexivity.
  - reflexivity.
Defined.

Lemma openat_result_witness :
  exists s', openat AT_FDCWD (Some (str "x")) 0 0 (example_state 0) = Returns 0 s' /\
             lookup_fd s' 0 = Some (next_object (example_state 0)) /\
             lookup_fd s' 3 = Some 1%positive /\
             calls s' = [CallOpen 4%positive (str "x") 0 0 (next_object (example_state 0))].
Proof.
  assert (Hfree : lowest_free (example_state 0) 0 0).
  { split; [unfold MAX_MXIO_FD; lia|]. split; [reflexivity | intros j Hj; lia]. }
  destruct (openat_result (example_state 0) AT_FDCWD (str "x") (str "x") 4%positive example_dir
              0 0 ltac:(discriminate) eq_refl eq_refl ltac:(simpl; lia)
              ltac:(left; reflexivity)) as [_ Hok].
  destruct (Hok 0 eq_refl Hfree) as [Hopen _].
  eexists. split; [exact Hopen|]. repeat split; reflexivity.
Defined.

Lemma openat_table_full_witness :
  exists s', openat AT_FDCWD (Some (str "x")) 0 0 full_state = Returns (-1) s' /\
             errno s' = EMFILE /\ fdtab s' = fdtab full_state.
Proof.
  eexists. split.
  - apply (openat_table_full full_state AT_FDCWD (str "x") (str "x") 4%positive example_dir
             0 0 ltac:(discriminate) eq_refl eq_refl ltac:(simpl; lia)
             ltac:(left; reflexivity) eq_refl full_state_full).
  - split; reflexivity.
Defined.

Lemma chdir_result_witness :
  exists s', chdir (Some (str "a")) (example_state 0) = Returns 0 s' /\
             cwd_path s' = str "/a" /\
             cwd_handle s' = Some (next_object (example_state 0)) /\
             objs s' !! 4%positive = None.
Proof.
  destruct (chdir_result (example_state 0) (str "a") (str "a") 4%positive 4%positive
              example_dir example_dir ltac:(discriminate) eq_refl eq_refl
              ltac:(simpl; lia) eq_refl eq_refl) as (_ & Hok & _ & _).
  eexists. split; [exact (Hok eq_refl)|]. repeat split; reflexivity.
Defined.

Lemma mkdirat_result_witness :
  exists s', mkdirat AT_FDCWD (Some (str "d")) 493 (example_state 0) = Returns 0 s' /\
             fdtab s' = fdtab (example_state 0) /\ objs s' = objs (example_state 0) /\
             calls s' = [CallClose (next_object (example_state 0));
                         CallOpen 4%positive (str "d") 194 16877
                           (next_object (example_state 0))].
Proof.
  destruct (mkdirat_result (example_state 0) AT_FDCWD 493 (str "d") (str "d") 4%positive
              example_dir ltac:(discriminate) eq_refl eq_refl ltac:(simpl; lia))
    as [_ Hok].
  eexists. split; [exact (Hok eq_refl)|]. repeat split; reflexivity.
Defined.

Lemma close_keeps_table_witness :
  (exists r s', close 3 (example_state 0) = Returns r s' /\ table_ok s') /\
  (exists r s', mxio_unbind_from_fd 3 (example_state 0) = Returns r s' /\ table_ok s').
Proof.
  destruct (close_keeps_table (example_state 0) 3 (example_table_ok 0)) as [Hclose Hunbind].
  split; [exact Hclose | apply Hunbind; lia].
Defined.

Lemma mxio_exit_empties_table_witness :
  exists s', mxio_exit (example_state 0) = Returns tt s' /\ fdtab s' = ∅ /\ table_ok s'.
Proof.
  exact (mxio_exit_empties_table (example_state 0) (example_table_ok 0)).
Defined.

Lemma dup_keeps_table_witness :
  (exists r s', dup 3 (example_state 0) = Returns r s' /\ table_ok s') /\
  (exists r s', dup2 3 5 (example_state 0) = Returns r s' /\ table_ok s') /\
  (exists r s', fcntl 3 F_DUPFD 10 (example_state 0) = Returns r s' /\ table_ok s').
Proof.
  destruct (dup_keeps_table (example_state 0) 3 (example_table_ok 0))
    as (Hdup & Hdup2 & Hfcntl).
  split; [exact Hdup|]. split; [exact (Hdup2 5)|].
  destruct (Hfcntl 10 ltac:(lia)) as [Hd _]. exact Hd.
Defined.

Lemma futimens_keeps_reference_witness :
  exists r s', futimens 3 None (example_state 0) = Returns r s' /\
               objs s' = <[1%positive := acquired (example_obj 0)]> (objs (example_state 0)) /\
               fdtab s' = fdtab (example_state 0).
Proof.
  destruct (futimens_keeps_reference (example_state 0) 3 1%positive (example_obj 0) None
              example_in_table eq_refl eq_refl) as [(r & s' & Hf & Hobjs & Hfd & _) _].
  exists r, s'. repeat split; assumption.
Defined.

Lemma openat_keeps_table_witness :
  exists r s', openat AT_FDCWD (Some (str "x")) 0 0 (example_state 0) = Returns r s' /\
               table_ok s'.
Proof.
  apply (openat_keeps_table (example_state 0) AT_FDCWD (Some (str "x")) 0 0
           (example_table_ok 0)).
  intros p d p' [= <-] [= <- _]. exists example_dir. split; [reflexivity | simpl; lia].
Defined.

Lemma fd_ops_result_witness :
  (exists s', ftruncate 3 10 (example_state 0) = Returns 56 s' /\
              calls s' = [CallMisc 1%positive MXRIO_TRUNCATE 10 0 MiscNull 0]) /\
  (exists s', fdatasync 3 (example_state 0) = Returns 56 s' /\
              calls s' = [CallMisc 1%positive MXRIO_SYNC 0 0 MiscNull 0]) /\
  (exists s', lseek 3 8 0 (example_state 0) = Returns 0 s' /\
              calls s' = [CallSeek 1%positive 8 0]) /\
  (exists s', ioctl 3 7 [] (slow_state 0) = Returns 7 s' /\
              calls s' = [CallPosixIoctl 1%positive 7 []]) /\
  (exists s', ioctl 3 (2 ^ 31 + 5) [] (slow_state 0) = Returns (-1) s' /\
              errno s' = EIO /\ calls s' = [CallPosixIoctl 1%positive (2 ^ 31 + 5) []]).
Proof.
  destruct (fd_ops_result (example_state 0) 3 1%positive (example_obj 0)
              example_in_table eq_refl eq_refl ltac:(simpl; lia))
    as (Htrunc & [_ Hsync] & _ & Hseek).
  destruct (fd_ops_result (slow_state 0) 3 1%positive (example_obj 0)
              example_in_table eq_refl eq_refl ltac:(simpl; lia))
    as (_ & _ & Hioctl & _).
  split; [|split; [|split; [|split]]].
  - eexists. split; [rewrite Htrunc; reflexivity | reflexivity].
  - eexists. split; [rewrite Hsync; reflexivity | reflexivity].
  - eexists. split; [rewrite Hseek; reflexivity | reflexivity].
  - eexists. split; [rewrite Hioctl; reflexivity | reflexivity].
  - eexists. split; [rewrite Hioctl; reflexivity|]. split; reflexivity.
Defined.

Lemma select_result_witness :
  exists r rf wf ef s',
    select 4 (Some {[3]}) None None None (example_state 0) = Returns (r, (rf, wf, ef)) s' /\
    fdtab s' = fdtab (example_state 0) /\ objs s' = objs (example_state 0) /\
    (r = -1 \/ r = fd_count 4 0 rf + fd_count 4 0 wf + fd_count 4 0 ef).
Proof.
  destruct (select_result (example_state 0) 4 (Some {[3]}) None None None (example_wf 0))
    as (r & rf & wf & ef & s' & Hsel & Hfd & Hobjs & _ & _ & Hr).
  exists r, rf, wf, ef, s'. split; [exact Hsel|]. split; [exact Hfd|]. split; [exact Hobjs|].
  destruct Hr as [[Hr _]|Hr]; [left | right]; exact Hr.
Defined.

Lemma vectored_io_edges_witness :
  readv 1 3 [ {| iov_base := Some 100; iov_len := 0 |} ] (example_state 0)
  = Returns 0 (example_state 0) /\
  pwritev 1 3 [ {| iov_base := Some 100; iov_len := 3 |} ] 7 (example_state 0)
  = pwrite 1 3 (Some 100) 3 7 (example_state 0).
Proof.
  destruct (vectored_io_edges (example_state 0) 1 3 7) as [Hnone Hone].
  split.
  - destruct (Hnone [ {| iov_base := Some 100; iov_len := 0 |} ]
                ltac:(repeat constructor)) as [Hr _]. exact Hr.
  - destruct (Hone {| iov_base := Some 100; iov_len := 3 |} ltac:(discriminate))
      as (_ & _ & _ & Hw). exact Hw.
Defined.

Lemma isatty_by_number_witness :
  isatty 3 (example_state 0) = Returns 0 (set_errno ENOTTY (example_state 0)) /\
  isatty 7 (example_state 0) = Returns 0 (set_errno EBADF (example_state 0)).
Proof.
  destruct (isatty_by_number (example_state 0) 3) as [_ Hbound].
  destruct (isatty_by_number (example_state 0) 7) as [Hbad _].
  split.
  - rewrite (Hbound 1%positive (example_obj 0) example_in_table eq_refl eq_refl
               ltac:(simpl; lia)).
    reflexivity.
  - apply Hbad. right. right. reflexivity.
Defined.

Lemma mxio_wait_fd_result_witness :
  mxio_wait_fd 7 1 0 (example_state 0) = Returns (Err ERR_BAD_HANDLE, 1) (example_state 0) /\
  exists s', mxio_wait_fd 3 1 0 (example_state 0) = Returns (NO_ERROR, 1) s' /\
             calls s' = [CallWaitOne 1 1 0].
Proof.
  destruct (mxio_wait_fd_result (example_state 0) 7 1 0) as [Hbad _].
  destruct (mxio_wait_fd_result (example_state 0) 3 1 0) as [_ Hbound].
  split; [apply Hbad; right; right; reflexivity|].
  destruct (Hbound 1%positive (example_obj 0) example_in_table eq_refl eq_refl
              ltac:(simpl; lia)) as [_ Hwait].
  eexists. split; [rewrite Hwait by discriminate; reflexivity | reflexivity].
Defined.

Lemma openat_directory_witness :
  openat 3 None 0 0 (example_state 0) = Returns (-1) (set_errno EINVAL (example_state 0)) /\
  openat 7 (Some (str "x")) 0 0 (example_state 0)
  = Returns (-1) (set_errno EBADF (example_state 0)).
Proof.
  destruct (openat_directory (example_state 0) 0 0) as (Hnull & _ & Hbad).
  split; [apply Hnull; left; reflexivity|].
  apply Hbad; [discriminate | discriminate | discriminate | right; right; reflexivity
              | left; reflexivity].
Defined.

Lemma containing_split_forms_witness :
  containing_split (str "a/b//") 4 = Some (str "a", str "b//") /\
  containing_split (str "b") 0 = Some (str ".", str "b").
Proof.
  destruct containing_split_forms as (_ & Hbase & Hdir & _).
  split.
  - apply (Hdir (str "a") (str "b") 2%nat); [discriminate | | vm_compute; lia].
    intros Hin. apply list_elem_of_In in Hin. simpl in Hin.
    destruct Hin as [Hin|Hin]; [discriminate Hin | exact Hin].
  - apply (Hbase (str "b") 0%nat); [discriminate | | vm_compute; lia].
    intros Hin. apply list_elem_of_In in Hin. simpl in Hin.
    destruct Hin as [Hin|Hin]; [discriminate Hin | exact Hin].
Defined.

Lemma opendir_containing_result_witness :
  exists s', __mxio_opendir_containing_at AT_FDCWD (Some (str "a/b")) (example_state 0)
             = Returns (NO_ERROR, Some (next_object (example_state 0)), Some (str "b")) s' /\
             calls s' = [CallOpen 4%positive (str "a") O_DIRECTORY 0
                           (next_object (example_state 0))].
Proof.
  destruct (opendir_containing_result (example_state 0) AT_FDCWD) as (_ & _ & Hdir).
  destruct (Hdir (str "a/b") (str "a/b") 4%positive example_dir eq_refl eq_refl
              ltac:(simpl; lia) ltac:(vm_compute; lia)) as [_ Hsplit].
  eexists. split; [rewrite (Hsplit (str "a") (str "b") eq_refl); reflexivity | reflexivity].
Defined.

Lemma select_edges_witness :
  select 0 (Some {[3]}) None None None (example_state 0)
  = Returns (-1, (Some {[3]}, None, None)) (set_errno EINVAL (example_state 0)) /\
  select 3 (Some {[3]}) None None None (example_state 0)
  = Returns (0, (Some {[3]}, None, None)) (example_state 0) /\
  select 8 None (Some {[7]}) None (Some (0, 0)) (example_state 0)
  = Returns (-1, (None, Some {[7]}, None)) (set_errno EBADF (example_state 0)).
Proof.
  split; [|split].
  - destruct (select_edges (example_state 0) (Some {[3]}) None None None) as [Hn _].
    apply Hn. right. lia.
  - destruct (select_edges (example_state 0) (Some {[3]}) None None None) as (_ & Hidle & _).
    apply Hidle; [unfold FD_SETSIZE; lia|].
    intros fd Hfd. split; [|split; reflexivity].
    apply bool_decide_eq_false. rewrite elem_of_singleton. lia.
  - destruct (select_edges (example_state 0) None (Some {[7]}) None (Some (0, 0)))
      as (_ & _ & Hbad).
    apply (Hbad 8 7); [unfold FD_SETSIZE; lia | lia | | right; left; reflexivity
                      | right; right; reflexivity].
    intros j Hj. split; [reflexivity|]. split; [|reflexivity].
    apply bool_decide_eq_false. rewrite elem_of_singleton. lia.
Defined.

Lemma getcwd_buffer_witness :
  getcwd (Some 100) 2 (example_state 0) = Returns None (set_errno ERANGE (example_state 0)) /\
  getcwd (Some 100) 3 (example_state 0) = Returns (Some [slash]) (example_state 0) /\
  getcwd (Some 100) 0 (example_state 0) = Returns None (set_errno EINVAL (example_state 0)).
Proof.
  destruct (getcwd_buffer (example_state 0)) as (Hzero & Hfit & _ & Hexact & _).
  split; [exact (Hexact 100)|]. split; [|exact (Hzero 100)].
  apply (Hfit 100 3). simpl. lia.
Defined.
